(** * Hover inspection and tooltip positioning (bokehjs)

    A shallow embedding of
    [bokehjs/src/lib/models/tools/inspectors/hover_tool.ts] and of the
    [Tooltip] annotation it drives.  JavaScript numbers are IEEE 754
    binary64 values, so screen and data coordinates are primitive floats;
    an array read that may be out of range yields [undefined], modelled as
    [None]. *)

From Stdlib Require Import ZArith Floats String Ascii List Bool Lia.
From stdpp Require Import base option gmap strings pretty list fin_maps.

Local Open Scope string_scope.
Local Open Scope list_scope.
Set Warnings "-register-all".

(** ** JavaScript numbers *)

Module Js.

Abbreviation number := float.

(** A value read from an array or an optional field: [None] is
    [undefined]. *)
Definition value := option number.

(** [ToNumber]: [undefined] coerces to [NaN] in arithmetic. *)
Definition to_number (v : value) : number :=
  match v with
  | Some x => x
  | None => nan
  end.

Definition sub (a b : number) : number := PrimFloat.sub a b.
Definition add (a b : number) : number := PrimFloat.add a b.
Definition mul (a b : number) : number := PrimFloat.mul a b.
Definition div (a b : number) : number := PrimFloat.div a b.
Definition lt (a b : number) : bool := PrimFloat.ltb a b.
Definition Math_abs (a : number) : number := PrimFloat.abs a.
Definition Infinity : number := infinity.

(** [Math.round]: the nearest integer, ties towards [+Infinity]; the
    sign of a zero result follows the argument. *)
Definition two52 : number := 4503599627370496%float.

Definition Math_round (x : number) : number :=
  if is_nan x || is_infinity x || is_zero x then x
  else if PrimFloat.leb two52 (PrimFloat.abs x) then x
  else
    let a := PrimFloat.abs x in
    let t := PrimFloat.sub (PrimFloat.add a two52) two52 in
    let fl := if PrimFloat.ltb a t then PrimFloat.sub t 1%float else t in
    let frac := PrimFloat.sub a fl in
    if get_sign x then
      PrimFloat.opp
        (if PrimFloat.ltb 0.5%float frac then PrimFloat.add fl 1%float else fl)
    else
      if PrimFloat.leb 0.5%float frac then PrimFloat.add fl 1%float else fl.

(** [xs[i]] on an [Arrayable<number>]. *)
Definition get (xs : list number) (i : nat) : value := xs !! i.

End Js.

(** ** Geometry queries ([core/geometry]) *)

Inductive Direction := DirH | DirV.

Inductive Geometry :=
| PointGeometry (sx sy : Js.number)
| SpanGeometry (direction : Direction) (sx sy : Js.number)
| RectGeometry (sx0 sx1 sy0 sy1 : Js.number)
| PolyGeometry (sx sy : list Js.number).

Record Point := { px : Js.value; py : Js.value }.

(** Modelled from the spec: [hittest.dist_2_pts] lives in [core/hittest],
    outside this file; the specification calls the point-mode measure the
    Euclidean distance between the two points. *)
Definition dist_2_pts (p0 p1 : Point) : Js.number :=
  let ddx := Js.sub (Js.to_number (px p0)) (Js.to_number (px p1)) in
  let ddy := Js.sub (Js.to_number (py p0)) (Js.to_number (py p1)) in
  PrimFloat.sqrt (Js.add (Js.mul ddx ddx) (Js.mul ddy ddy)).

(** A resolved line hit: [[[x, y], index]]. *)
Definition LineHit : Type := (Js.value * Js.value) * nat.

Definition _nearest_line_hit (i : nat) (geometry : Geometry)
    (sx sy : Js.number) (dx dy : list Js.number) : LineHit :=
  let d1 := {| px := Js.get dx i; py := Js.get dy i |} in
  let d2 := {| px := Js.get dx (i + 1); py := Js.get dy (i + 1) |} in
  let '(dist1, dist2) :=
    match geometry with
    | SpanGeometry direction _ _ =>
        match direction with
        | DirH =>
            (Js.Math_abs (Js.sub (Js.to_number (px d1)) sx),
             Js.Math_abs (Js.sub (Js.to_number (px d2)) sx))
        | DirV =>
            (Js.Math_abs (Js.sub (Js.to_number (py d1)) sy),
             Js.Math_abs (Js.sub (Js.to_number (py d2)) sy))
        end
    | _ =>
        let s := {| px := Some sx; py := Some sy |} in
        (dist_2_pts d1 s, dist_2_pts d2 s)
    end in
  if Js.lt dist1 dist2 then ((px d1, py d1), i)
  else ((px d2, py d2), i + 1).

Definition _line_hit (xs ys : list Js.number) (ind : nat) : LineHit :=
  ((Js.get xs ind, Js.get ys ind), ind).

(** ** Enumerations ([core/enums]) *)

Inductive HoverMode := mouse | hline | vline.
Inductive LinePolicy := prev | next | nearest | interp | LinePolicy_none.
Inductive PointPolicy := snap_to_data | PointPolicy_none.
Inductive MutedPolicy := show | ignore.
Inductive Side := left | right | above | below.
Inductive TooltipAttachment := horizontal | vertical | fixed (s : Side).

Module Anchor.
Inductive t :=
| top_left | top | top_center | top_right
| left | center_left | center | center_center | right | center_right
| bottom_left | bottom | bottom_center | bottom_right.
End Anchor.
Abbreviation Anchor := Anchor.t.

Inductive VAlign := VTop | VCenter | VBottom.
Inductive HAlign := HLeft | HCenter | HRight.

(** ** The tooltip annotation ([models/annotations/tooltip]) *)

(** Modelled from the spec: the bounding box class of [core/util/bbox] is
    outside this file; its horizontal and vertical centers are the
    midpoints of its edges, and [contains] is inclusive on all four edges. *)
Record BBox := {
  bbox_left : Js.number;
  bbox_top : Js.number;
  bbox_right : Js.number;
  bbox_bottom : Js.number
}.

Definition hcenter (b : BBox) : Js.number :=
  Js.div (Js.add (bbox_left b) (bbox_right b)) 2%float.

Definition vcenter (b : BBox) : Js.number :=
  Js.div (Js.add (bbox_top b) (bbox_bottom b)) 2%float.

Definition bbox_contains (b : BBox) (x y : Js.number) : bool :=
  PrimFloat.leb (bbox_left b) x && PrimFloat.leb x (bbox_right b)
  && PrimFloat.leb (bbox_top b) y && PrimFloat.leb y (bbox_bottom b).

(** [position: Anchor | [number, number] | null]; [null] is [None]. *)
Inductive Position :=
| PosAnchor (a : Anchor)
| PosCoords (x y : Js.value).

(** DOM content handed to a tooltip.  [NTable] is the two-column layout
    built by [_create_template], [NDiv] what [div(...)] builds, and
    [NOpaque] a node that a collaborator has built anew for one hit.
    [NElement] is an element that exists apart from the hit it is returned
    for (the element of the structured template's view, an element a user
    function keeps): equal references are one and the same DOM node. *)
Inductive Node :=
| NText (s : string)
| NOpaque (id : nat)
| NElement (ref : nat)
| NDiv (children : list Node)
| NTable (rows : list Row)
with Row :=
| MkRow (label : string) (value_el : list Node)
        (swatch_background : option string) (swatch_displayed : bool).

(** [content: string | Node]: markup, or a node by reference; the
    children of such a node are kept in the view's [dom]. *)
Inductive TooltipContent :=
| Markup (markup : string)
| Container (el : nat).

(** The properties of [Tooltip.define], and [visible], which [_reposition]
    reads and [UIElement] declares.  [content] is defined without a
    default: it is [None] for as long as nothing has set it. *)
Record Tooltip := {
  position : option Position;
  content : option TooltipContent;
  attachment : TooltipAttachment;
  show_arrow : bool;
  closable : bool;
  visible : bool
}.

(** [Tooltip.clear]. *)
Definition Tooltip_clear (t : Tooltip) : Tooltip :=
  {| position := None; content := content t; attachment := attachment t;
     show_arrow := show_arrow t; closable := closable t;
     visible := visible t |}.

Definition arrow_size : Js.number := 10%float.

Inductive CssClass :=
| css_right | css_left | css_above | css_below | css_tooltip_arrow
| css_other (name : string).

Global Instance CssClass_eq_dec : EqDecision CssClass.
Proof. solve_decision. Defined.

(** [style.top], [style.left], [style.right]: either the empty string or
    a template literal [`${n}px`], kept as the number it prints. *)
Inductive StyleLength := unset | px_ (n : Js.number).

(** The tooltip's root element, as far as [_reposition] writes it. *)
Record Element := {
  displayed : bool;
  classList : list CssClass;
  style_top : StyleLength;
  style_left : StyleLength;
  style_right : StyleLength
}.

(** Layout measurements read from the element. *)
Record Dimensions := {
  offsetWidth : Js.number;
  clientWidth : Js.number;
  offsetHeight : Js.number;
  clientHeight : Js.number
}.

Definition classList_remove (c : CssClass) (l : list CssClass) : list CssClass :=
  List.filter (fun c' => negb (bool_decide (c' = c))) l.

Definition classList_add (c : CssClass) (l : list CssClass) : list CssClass :=
  if bool_decide (c ∈ l) then l else l ++ [c].

Definition _anchor_to_align (anchor : Anchor) : VAlign * HAlign :=
  match anchor with
  | Anchor.top_left => (VTop, HLeft)
  | Anchor.top | Anchor.top_center => (VTop, HCenter)
  | Anchor.top_right => (VTop, HRight)
  | Anchor.left | Anchor.center_left => (VCenter, HLeft)
  | Anchor.center | Anchor.center_center => (VCenter, HCenter)
  | Anchor.right | Anchor.center_right => (VCenter, HRight)
  | Anchor.bottom_left => (VBottom, HLeft)
  | Anchor.bottom | Anchor.bottom_center => (VBottom, HCenter)
  | Anchor.bottom_right => (VBottom, HRight)
  end.

(** The anchor point [[sx, sy]] of [_reposition]. *)
Definition resolve_position (p : Position) (bbox : BBox) : Js.value * Js.value :=
  match p with
  | PosAnchor a =>
      let '(valign, halign) := _anchor_to_align a in
      let sx := match halign with
                | HLeft => bbox_left bbox
                | HCenter => hcenter bbox
                | HRight => bbox_right bbox
                end in
      let sy := match valign with
                | VTop => bbox_top bbox
                | VCenter => vcenter bbox
                | VBottom => bbox_bottom bbox
                end in
      (Some sx, Some sy)
  | PosCoords x y => (x, y)
  end.

(** The [side] chosen by [_reposition]. *)
Definition choose_side (att : TooltipAttachment) (sx sy : Js.value) (bbox : BBox) : Side :=
  match att with
  | horizontal => if Js.lt (Js.to_number sx) (hcenter bbox) then right else left
  | vertical => if Js.lt (Js.to_number sy) (vcenter bbox) then below else above
  | fixed s => s
  end.

Definition _reposition (model : Tooltip) (bbox : BBox) (d : Dimensions)
    (el : Element) : Element :=
  match position model, visible model with
  | Some pos, true =>
      let '(sx, sy) := resolve_position pos bbox in
      let side := choose_side (attachment model) sx sy bbox in
      let sx := Js.to_number sx in
      let sy := Js.to_number sy in
      let classes :=
        classList_remove css_below
          (classList_remove css_above
            (classList_remove css_left
              (classList_remove css_right (classList el)))) in
      let '(cls, top_, left_, right_) :=
        match side with
        | right =>
            (css_left,
             Js.sub sy (Js.div (offsetHeight d) 2%float),
             Some (Js.add (Js.add sx (Js.sub (offsetWidth d) (clientWidth d))) arrow_size),
             None)
        | left =>
            (css_right,
             Js.sub sy (Js.div (offsetHeight d) 2%float),
             None,
             Some (Js.add (Js.sub (offsetWidth d) sx) arrow_size))
        | below =>
            (css_above,
             Js.add (Js.add sy (Js.sub (offsetHeight d) (clientHeight d))) arrow_size,
             Some (Js.Math_round (Js.sub sx (Js.div (offsetWidth d) 2%float))),
             None)
        | above =>
            (css_below,
             Js.sub (Js.sub sy (offsetHeight d)) arrow_size,
             Some (Js.Math_round (Js.sub sx (Js.div (offsetWidth d) 2%float))),
             None)
        end in
      {| displayed := true;
         classList := classList_add cls classes;
         style_top := px_ top_;
         style_left := match left_ with Some l => px_ l | None => unset end;
         style_right := match right_ with Some r => px_ r | None => unset end |}
  | _, _ =>
      {| displayed := false;
         classList := classList el;
         style_top := style_top el;
         style_left := style_left el;
         style_right := style_right el |}
  end.

(** ** Strings and the two directive patterns *)

Module Str.

Definition is_word_char (c : ascii) : bool :=
  let n := nat_of_ascii c in
  (((48 <=? n) && (n <=? 57)) || ((65 <=? n) && (n <=? 90))
   || ((97 <=? n) && (n <=? 122)) || (n =? 95))%nat.

(** [(\w* )] at the head of [s]: greedy, never fails. *)
Fixpoint take_word (s : string) : string :=
  match s with
  | String c s' => if is_word_char c then String c (take_word s') else EmptyString
  | EmptyString => EmptyString
  end.

Fixpoint strip_prefix (p s : string) : option string :=
  match p, s with
  | EmptyString, _ => Some s
  | String a p', String b s' =>
      if Ascii.eqb a b then strip_prefix p' s' else None
  | String _ _, EmptyString => None
  end.

(** Leftmost match of a pattern given by its anchored matcher. *)
Fixpoint search {A : Type} (anchored : string -> option A) (s : string) : option A :=
  match anchored s with
  | Some r => Some r
  | None =>
      match s with
      | String _ s' => search anchored s'
      | EmptyString => None
      end
  end.

(** [.] does not match a line terminator: LF, CR, U+2028, U+2029 (the
    last two in their three-byte encoding). *)
Definition at_line_terminator (s : string) : bool :=
  match s with
  | String c rest =>
      let n := nat_of_ascii c in
      ((n =? 10) || (n =? 13)
       || match rest with
          | String c1 (String c2 _) =>
              (n =? 226) && (nat_of_ascii c1 =? 128)
              && ((nat_of_ascii c2 =? 168) || (nat_of_ascii c2 =? 169))
          | _ => false
          end)%nat
  | EmptyString => false
  end.

(** [.*\]:] anchored at the head of [body], greedy: the captured text
    before the bracket, and what follows the colon. *)
Fixpoint bracket_tail (body : string) : option (string * string) :=
  match body with
  | EmptyString => None
  | String c rest =>
      let longer :=
        if at_line_terminator body then None
        else match bracket_tail rest with
             | Some (inner, after) => Some (String c inner, after)
             | None => None
             end in
      match longer with
      | Some r => Some r
      | None =>
          match strip_prefix "]:" body with
          | Some after => Some (EmptyString, after)
          | None => None
          end
      end
  end.

(** [\$swatch:(\w* )] anchored at the head of [s]. *)
Definition anchored_swatch (s : string) : option string :=
  match strip_prefix "$swatch:" s with
  | Some rest => Some (take_word rest)
  | None => None
  end.

(** [\$color(\[.*\])?:(\w* )] anchored at the head of [s]: the optional
    bracketed options ([None] when the group did not take part) and the
    column name. *)
Definition anchored_color (s : string) : option (option string * string) :=
  match strip_prefix "$color" s with
  | Some (String "[" body) =>
      match bracket_tail body with
      | Some (inner, after) => Some (Some ("[" +:+ inner +:+ "]"), take_word after)
      | None => None
      end
  | Some (String ":" after) => Some (None, take_word after)
  | _ => None
  end.

(** [value.match(swatch_re)]: the captured column name. *)
Definition match_swatch (value : string) : option string :=
  search anchored_swatch value.

(** [value.match(color_re)]: the captured options and column name. *)
Definition match_color (value : string) : option (option string * string) :=
  search anchored_color value.

(** [opts.indexOf(needle) >= 0]. *)
Definition includes (needle s : string) : bool :=
  match search (fun t => match strip_prefix needle t with
                         | Some _ => Some tt
                         | None => None
                         end) s with
  | Some _ => true
  | None => false
  end.

(** [s.replace(pat, by)] with a string pattern: the first occurrence. *)
Fixpoint replace_first (pat by_ s : string) : string :=
  match strip_prefix pat s with
  | Some rest => by_ +:+ rest
  | None =>
      match s with
      | String c s' => String c (replace_first pat by_ s')
      | EmptyString => EmptyString
      end
  end.

End Str.

(** ** Data sources, glyphs and renderers *)

(** A cell of a data column; [CellNull] is [null]. *)
Inductive Cell :=
| CellNull
| CellNumber (n : Js.number)
| CellString (s : string)
| CellTuple (l : list Js.number).

Record ColumnarDataSource := {
  source_ref : nat;
  columns : gmap string (list Cell)
}.

(** [ds.get_column(colname)]; [None] is [null]. *)
Definition get_column (ds : ColumnarDataSource) (colname : string) : option (list Cell) :=
  columns ds !! colname.

Record ScreenPoint := { pt_x : Js.number; pt_y : Js.number }.

(** What every glyph view offers, whatever its kind: the optional [_x] and
    [_y] series read through [(glyph as any)._x?.[i]], and
    [get_anchor_point]. *)
Record GlyphBase := {
  base_x : option (list Js.number);
  base_y : option (list Js.number);
  get_anchor_point : Anchor -> nat -> Js.number * Js.number -> option ScreenPoint
}.

Inductive GlyphView :=
| PatchView (b : GlyphBase)
| VAreaView (b : GlyphBase)
| HAreaView (b : GlyphBase)
| LineView (b : GlyphBase) (_x _y sx sy : list Js.number)
    (get_interpolation_hit : nat -> Geometry -> Js.number * Js.number)
| MultiLineView (b : GlyphBase) (_xs _ys sxs sys : list (list Js.number))
    (get_interpolation_hit : nat -> nat -> Geometry -> Js.number * Js.number)
| OtherGlyphView (b : GlyphBase).

Definition glyph_base (g : GlyphView) : GlyphBase :=
  match g with
  | PatchView b | VAreaView b | HAreaView b | OtherGlyphView b => b
  | LineView b _ _ _ _ _ => b
  | MultiLineView b _ _ _ _ _ => b
  end.

(** [(glyph as any)._x] and [(glyph as any)._y]. *)
Definition any_x (g : GlyphView) : option (list Js.number) :=
  match g with
  | LineView _ _x _ _ _ _ => Some _x
  | _ => base_x (glyph_base g)
  end.

Definition any_y (g : GlyphView) : option (list Js.number) :=
  match g with
  | LineView _ _ _y _ _ _ => Some _y
  | _ => base_y (glyph_base g)
  end.

(** [series.get(i)[j]] on a ragged array. *)
Definition ragged_get (series : list (list Js.number)) (i j : nat) : Js.value :=
  match series !! i with
  | Some row => Js.get row j
  | None => None
  end.

Definition ragged_row (series : list (list Js.number)) (i : nat) : list Js.number :=
  default [] (series !! i).

Record ImageIndex := { image_index : nat; image_i : nat; image_j : nat }.

(** The index sets of one inspection.  [multiline_indices] is keyed by the
    decimal text of the outer index, as [i.toString()] produces it. *)
Record Selection := {
  indices : list nat;
  line_indices : list nat;
  multiline_indices : gmap string (list nat);
  image_indices : list ImageIndex;
  selection_view : option nat
}.

Definition toString (i : nat) : string := pretty i.

Definition is_nil {A : Type} (l : list A) : bool :=
  match l with
  | [] => true
  | _ :: _ => false
  end.

(** Modelled from the spec: [Selection.is_empty] belongs to
    [models/selections/selection], outside this file; a selection is empty
    when all of its index subsets are. *)
Definition Selection_is_empty (s : Selection) : bool :=
  is_nil (indices s) && is_nil (line_indices s)
  && is_nil (image_indices s) && bool_decide (multiline_indices s = ∅).

Definition empty_selection : Selection :=
  {| indices := []; line_indices := []; multiline_indices := ∅;
     image_indices := []; selection_view := None |}.

Inductive IndicesVar :=
| IndicesList (l : list nat)
| IndicesMulti (m : gmap string (list nat)).

Record TooltipVars := {
  index : option nat;
  glyph : GlyphView;
  x : Js.number;
  y : Js.number;
  sx : Js.number;
  sy : Js.number;
  tt_x : Js.value;
  tt_y : Js.value;
  tt_sx : Js.value;
  tt_sy : Js.value;
  name : option string;
  vars_indices : option IndicesVar;
  segment_index : option nat
}.

Record GlyphRenderer := {
  renderer_ref : nat;
  muted : bool;
  renderer_name : option string;
  data_source : ColumnarDataSource;
  convert_selection_to_subset : Selection -> Selection;
  convert_indices_from_subset : list nat -> list nat
}.

Inductive DataRenderer :=
| GlyphR (r : GlyphRenderer)
| GraphR (ref : nat) (node_renderer edge_renderer : GlyphRenderer)
| OtherR (ref : nat).

Definition data_renderer_ref (r : DataRenderer) : nat :=
  match r with
  | GlyphR g => renderer_ref g
  | GraphR ref _ _ => ref
  | OtherR ref => ref
  end.

Record Scale := {
  compute : Js.number -> Js.number;
  invert : Js.number -> Js.number
}.

Record RendererView := {
  x_scale : Scale;
  y_scale : Scale;
  view_glyph : GlyphView;
  hit_test : Geometry -> Selection
}.

(** ** The hover tool's properties *)

Inductive PlaceholderInput :=
| PlainText (s : string)
| Html (html : string).

(** [replace_placeholders] answers a string or a list of nodes. *)
Inductive Content :=
| ContentString (s : string)
| ContentNodes (l : list Node).

Inductive Formatter := numeral | printf | datetime | CustomJSHover (id : nat).

Inductive TooltipsSpec :=
| TemplateSpec (template : nat)
| StringSpec (s : string)
| RowsSpec (rows : list (string * string))
| FunctionSpec (f : ColumnarDataSource -> TooltipVars -> Node).

Inductive RenderersProp :=
| Auto
| Renderers (l : list DataRenderer).

Module HoverTool.
Record Attrs := {
  active : bool;
  tooltips : option TooltipsSpec;
  formatters : gmap string Formatter;
  renderers : RenderersProp;
  mode : HoverMode;
  muted_policy : MutedPolicy;
  point_policy : PointPolicy;
  line_policy : LinePolicy;
  show_arrow : bool;
  anchor : Anchor;
  attachment : TooltipAttachment;
  callback : option nat
}.

(** The defaults of [HoverTool.define]. *)
Definition defaults : Attrs :=
  {| active := true;
     tooltips := Some (RowsSpec [("index", "$index");
                                 ("data (x, y)", "($x, $y)");
                                 ("screen (x, y)", "($sx, $sy)")]);
     formatters := ∅;
     renderers := Auto;
     mode := mouse;
     muted_policy := show;
     point_policy := snap_to_data;
     line_policy := nearest;
     show_arrow := true;
     anchor := Anchor.center;
     attachment := horizontal;
     callback := None |}.
End HoverTool.

(** ** Exceptions *)

Inductive Exception :=
| Error (message : string)
| TypeError (message : string).

(** The collaborators that live outside this file: placeholder
    substitution ([core/util/templating]), whose answer is parsed anew at
    each call, so that its nodes have no parent yet; the color printers
    ([core/util/color]); what [update] renders into the element of the
    structured template's view; and what the runtime raises when
    [_update] goes to fill the content of a tooltip that has no node to
    fill, which the property getter of [core/has_props] and [empty] of
    [core/dom] decide. *)
Record Collaborators := {
  replace_placeholders :
    PlaceholderInput -> ColumnarDataSource -> option nat ->
    gmap string Formatter -> TooltipVars -> Content;
  color2css : Cell -> string;
  color2hex : Cell -> string;
  template_view_update :
    nat -> ColumnarDataSource -> option nat -> TooltipVars -> Node;
  content_failure : Exception
}.

(** A call of the user callback: the renderer, the geometry and the
    data-space pointer merged into it. *)
Record CallbackCall := {
  call_renderer : nat;
  call_geometry : Geometry;
  call_x : Js.number;
  call_y : Js.number
}.

(** The view of a structured template as [lazy_initialize] builds it: the
    template it was built for, its element, and what the last [update]
    has rendered into the element. *)
Record TemplateView := {
  tv_template : nat;
  tv_el : nat;
  tv_rendered : option Node
}.

(** ** The view's state

    Tooltips are objects shared by reference: [heap] is the store and
    [_ttmodels] maps a glyph renderer (by reference) to the reference of
    its tooltip.  [dom] holds the children of the nodes that serve as
    tooltip content, by reference too; a node without an entry has no
    children.  Content nodes are named apart from the elements handed to
    them as children.  [_template_view] is an optional slot: [None] until
    [lazy_initialize] fills it.  [_update_ttmodels] puts an object behind
    every reference it enters in [_ttmodels]; on a reference without an
    object the operations on tooltips do nothing. *)
Record HoverToolView := {
  model : HoverTool.Attrs;
  data_renderers : list DataRenderer;
  frame_bbox : BBox;
  renderer_view : nat -> option RendererView;
  _ttmodels : gmap nat nat;
  _template_el : option (list Row);
  _template_view : option TemplateView;
  heap : gmap nat Tooltip;
  dom : gmap nat (list Node);
  next_ref : nat;
  inspectors : gmap nat Selection;
  connected : gset nat;
  callback_log : list CallbackCall
}.

Definition set_model (m : HoverTool.Attrs) (v : HoverToolView) : HoverToolView :=
  {| model := m; data_renderers := data_renderers v; frame_bbox := frame_bbox v;
     renderer_view := renderer_view v; _ttmodels := _ttmodels v;
     _template_el := _template_el v; _template_view := _template_view v;
     heap := heap v; dom := dom v; next_ref := next_ref v; inspectors := inspectors v;
     connected := connected v; callback_log := callback_log v |}.

Definition set_ttmodels (m : gmap nat nat) (v : HoverToolView) : HoverToolView :=
  {| model := model v; data_renderers := data_renderers v; frame_bbox := frame_bbox v;
     renderer_view := renderer_view v; _ttmodels := m; _template_el := _template_el v;
     _template_view := _template_view v; heap := heap v; dom := dom v;
     next_ref := next_ref v; inspectors := inspectors v; connected := connected v;
     callback_log := callback_log v |}.

Definition set_template_el (t : option (list Row)) (v : HoverToolView) : HoverToolView :=
  {| model := model v; data_renderers := data_renderers v; frame_bbox := frame_bbox v;
     renderer_view := renderer_view v; _ttmodels := _ttmodels v; _template_el := t;
     _template_view := _template_view v; heap := heap v; dom := dom v;
     next_ref := next_ref v; inspectors := inspectors v; connected := connected v;
     callback_log := callback_log v |}.

Definition set_template_view (t : option TemplateView) (v : HoverToolView) : HoverToolView :=
  {| model := model v; data_renderers := data_renderers v; frame_bbox := frame_bbox v;
     renderer_view := renderer_view v; _ttmodels := _ttmodels v;
     _template_el := _template_el v; _template_view := t; heap := heap v; dom := dom v;
     next_ref := next_ref v; inspectors := inspectors v; connected := connected v;
     callback_log := callback_log v |}.

Definition set_heap (h : gmap nat Tooltip) (v : HoverToolView) : HoverToolView :=
  {| model := model v; data_renderers := data_renderers v; frame_bbox := frame_bbox v;
     renderer_view := renderer_view v; _ttmodels := _ttmodels v;
     _template_el := _template_el v; _template_view := _template_view v; heap := h;
     dom := dom v; next_ref := next_ref v; inspectors := inspectors v;
     connected := connected v; callback_log := callback_log v |}.

Definition set_dom (d : gmap nat (list Node)) (v : HoverToolView) : HoverToolView :=
  {| model := model v; data_renderers := data_renderers v; frame_bbox := frame_bbox v;
     renderer_view := renderer_view v; _ttmodels := _ttmodels v;
     _template_el := _template_el v; _template_view := _template_view v;
     heap := heap v; dom := d; next_ref := next_ref v; inspectors := inspectors v;
     connected := connected v; callback_log := callback_log v |}.

Definition set_next_ref (n : nat) (v : HoverToolView) : HoverToolView :=
  {| model := model v; data_renderers := data_renderers v; frame_bbox := frame_bbox v;
     renderer_view := renderer_view v; _ttmodels := _ttmodels v;
     _template_el := _template_el v; _template_view := _template_view v;
     heap := heap v; dom := dom v; next_ref := n; inspectors := inspectors v;
     connected := connected v; callback_log := callback_log v |}.

Definition set_inspectors (i : gmap nat Selection) (v : HoverToolView) : HoverToolView :=
  {| model := model v; data_renderers := data_renderers v; frame_bbox := frame_bbox v;
     renderer_view := renderer_view v; _ttmodels := _ttmodels v;
     _template_el := _template_el v; _template_view := _template_view v;
     heap := heap v; dom := dom v; next_ref := next_ref v; inspectors := i;
     connected := connected v; callback_log := callback_log v |}.

Definition set_connected (c : gset nat) (v : HoverToolView) : HoverToolView :=
  {| model := model v; data_renderers := data_renderers v; frame_bbox := frame_bbox v;
     renderer_view := renderer_view v; _ttmodels := _ttmodels v;
     _template_el := _template_el v; _template_view := _template_view v;
     heap := heap v; dom := dom v; next_ref := next_ref v; inspectors := inspectors v;
     connected := c; callback_log := callback_log v |}.

Definition set_callback_log (l : list CallbackCall) (v : HoverToolView) : HoverToolView :=
  {| model := model v; data_renderers := data_renderers v; frame_bbox := frame_bbox v;
     renderer_view := renderer_view v; _ttmodels := _ttmodels v;
     _template_el := _template_el v; _template_view := _template_view v;
     heap := heap v; dom := dom v; next_ref := next_ref v; inspectors := inspectors v;
     connected := connected v; callback_log := l |}.

(** ** The view's monad

    A computation on the view either returns or throws; the state it has
    written so far survives a throw. *)
Definition M (A : Type) : Type := HoverToolView -> (Exception + A) * HoverToolView.

Global Instance M_ret : MRet M := fun A a v => (inr a, v).

Global Instance M_bind : MBind M := fun A B f m v =>
  match m v with
  | (inr a, v') => f a v'
  | (inl e, v') => (inl e, v')
  end.

Definition throw {A : Type} (e : Exception) : M A := fun v => (inl e, v).
Definition get_view : M HoverToolView := fun v => (inr v, v).
Definition modify (f : HoverToolView -> HoverToolView) : M unit := fun v => (inr tt, f v).
Definition lift {A : Type} (r : Exception + A) : M A := fun v => (r, v).

(** A [for ... of] loop whose body returns nothing. *)
Fixpoint for_each_ {A : Type} (l : list A) (body : A -> M unit) : M unit :=
  match l with
  | [] => mret tt
  | a :: l' => body a;; for_each_ l' body
  end.

(** A [for ... of] loop whose body pushes onto one array. *)
Fixpoint for_each {A B : Type} (l : list A) (body : A -> M (list B)) : M (list B) :=
  match l with
  | [] => mret []
  | a :: l' =>
      pushed ← body a;
      rest ← for_each l' body;
      mret (pushed ++ rest)
  end.

(** ** Tooltip content *)

(** [el.textContent = s]: the children become one text node, or none for
    the empty string. *)
Definition set_textContent (s : string) : list Node :=
  match s with
  | EmptyString => []
  | _ => [NText s]
  end.

(** The [textContent] getter on the nodes this file builds. *)
Fixpoint textContent (n : Node) : string :=
  match n with
  | NText s => s
  | NOpaque _ | NElement _ => EmptyString
  | NDiv children => foldr (fun c acc => textContent c +:+ acc) EmptyString children
  | NTable rows =>
      foldr (fun r acc =>
               match r with
               | MkRow label value_el _ _ =>
                   label +:+ foldr (fun c acc' => textContent c +:+ acc') EmptyString value_el
                   +:+ acc
               end) EmptyString rows
  end.

Definition value_text (r : Row) : string :=
  match r with
  | MkRow _ value_el _ _ => foldr (fun c acc => textContent c +:+ acc) EmptyString value_el
  end.

Definition row_swatch (r : Row) : option string * bool :=
  match r with
  | MkRow _ _ bg shown => (bg, shown)
  end.

(** [_create_template]: one row per (label, value) pair, the value empty
    and the swatch hidden. *)
Definition _create_template (tooltips : list (string * string)) : list Row :=
  map (fun '(label, _) =>
         MkRow (if (String.length label =? 0)%nat then "" else label +:+ ": ")
               [] None false) tooltips.

(** Writes through [value_els[j]] and [swatch_els[j]]; the element is
    [undefined] when the template has no row [j]. *)
Definition with_row (j : nat) (f : Row -> Row) (el : list Row) : Exception + list Row :=
  match el !! j with
  | Some r => inr (<[j := f r]> el)
  | None => inl (TypeError "Cannot set properties of undefined")
  end.

Definition set_value_text (j : nat) (s : string) (el : list Row) : Exception + list Row :=
  with_row j (fun r => match r with
                       | MkRow label _ bg shown => MkRow label (set_textContent s) bg shown
                       end) el.

Definition append_value_children (j : nat) (l : list Node) (el : list Row)
    : Exception + list Row :=
  match l with
  | [] => inr el
  | _ :: _ =>
      with_row j (fun r => match r with
                           | MkRow label v bg shown => MkRow label (v ++ l) bg shown
                           end) el
  end.

(** [swatch_els[j].style.backgroundColor = css; display(swatch_els[j])]. *)
Definition show_swatch (j : nat) (css : string) (el : list Row) : Exception + list Row :=
  with_row j (fun r => match r with
                       | MkRow label v _ _ => MkRow label v (Some css) true
                       end) el.

(** [isNumber(i) ? column[i] : null], with [null] and [undefined] both
    [None]. *)
Definition color_at (column : list Cell) (i : option nat) : option Cell :=
  match i with
  | Some n =>
      match column !! n with
      | Some CellNull | None => None
      | Some c => Some c
      end
  | None => None
  end.

Section Rendering.

Variable ext : Collaborators.

(** [if (swatch_match != null) { ... }] for the captured column name. *)
Definition swatch_block (ds : ColumnarDataSource) (i : option nat) (j : nat)
    (colname : string) (el : list Row) : Exception + list Row :=
  match get_column ds colname with
  | None => set_value_text j (colname +:+ " unknown") el
  | Some column =>
      match color_at column i with
      | Some color => show_swatch j (color2css ext color) el
      | None => inr el
      end
  end.

(** [if (color_match != null) { ... }] for the captured options and
    column name. *)
Definition color_block (ds : ColumnarDataSource) (i : option nat) (j : nat)
    (opts : option string) (colname : string) (el : list Row)
    : Exception + list Row :=
  let opts := default "" opts in
  match get_column ds colname with
  | None => set_value_text j (colname +:+ " unknown") el
  | Some column =>
      let hex := Str.includes "hex" opts in
      let swatch := Str.includes "swatch" opts in
      match color_at column i with
      | None => set_value_text j "(null)" el
      | Some color =>
          match set_value_text j
                  (if hex then color2hex ext color else color2css ext color) el with
          | inl e => inl e
          | inr el =>
              if swatch then show_swatch j (color2css ext color) el
              else inr el
          end
      end
  end.

(** One turn of the loop of [_render_template], for row [j] with value
    expression [value]. *)
Definition render_row (fmt : gmap string Formatter) (ds : ColumnarDataSource)
    (vars : TooltipVars) (j : nat) (value : string) (el : list Row)
    : Exception + list Row :=
  let i := index vars in
  let swatch_match := Str.match_swatch value in
  let color_match := Str.match_color value in
  match swatch_match, color_match with
  | None, None =>
      match replace_placeholders ext
              (PlainText (Str.replace_first "$~" "$data_" value)) ds i fmt vars with
      | ContentString content => set_value_text j content el
      | ContentNodes content => append_value_children j content el
      end
  | _, _ =>
      match match swatch_match with
            | Some colname => swatch_block ds i j colname el
            | None => inr el
            end with
      | inl e => inl e
      | inr el =>
          match color_match with
          | Some (opts, colname) => color_block ds i j opts colname el
          | None => inr el
          end
      end
  end.

Fixpoint render_rows (fmt : gmap string Formatter) (ds : ColumnarDataSource)
    (vars : TooltipVars) (j : nat) (tooltips : list (string * string))
    (el : list Row) : Exception + list Row :=
  match tooltips with
  | [] => inr el
  | (_, value) :: rest =>
      match render_row fmt ds vars j value el with
      | inl e => inl e
      | inr el => render_rows fmt ds vars (S j) rest el
      end
  end.

Definition _render_template (fmt : gmap string Formatter) (template : list Row)
    (tooltips : list (string * string)) (ds : ColumnarDataSource)
    (vars : TooltipVars) : Exception + list Row :=
  render_rows fmt ds vars 0 tooltips template.

(** [div(content)]. *)
Definition div (content : Content) : Node :=
  match content with
  | ContentString s => NDiv (set_textContent s)
  | ContentNodes l => NDiv l
  end.

Definition _render_tooltips (ds : ColumnarDataSource) (vars : TooltipVars)
    : M (option Node) :=
  v ← get_view;
  let i := index vars in
  let fmt := HoverTool.formatters (model v) in
  match HoverTool.tooltips (model v) with
  | Some (StringSpec s) =>
      mret (Some (div (replace_placeholders ext (Html s) ds i fmt vars)))
  | Some (FunctionSpec f) => mret (Some (f ds vars))
  | Some (TemplateSpec _) =>
      match _template_view v with
      | None => throw (TypeError "Cannot read properties of undefined (reading 'update')")
      | Some tv =>
          _ ← modify (set_template_view
                        (Some {| tv_template := tv_template tv; tv_el := tv_el tv;
                                 tv_rendered :=
                                   Some (template_view_update ext (tv_template tv)
                                           ds i vars) |}));
          mret (Some (NElement (tv_el tv)))
      end
  | Some (RowsSpec rows) =>
      let template := default (_create_template rows) (_template_el v) in
      _ ← modify (set_template_el (Some template));
      el ← lift (_render_template fmt template rows ds vars);
      mret (Some (NTable el))
  | None => mret None
  end.

End Rendering.

(** ** Hit resolution *)

(** What the [switch] on the line policy assigns for one segment:
    the data-space point, the screen-space anchor and the index to report. *)
Record Resolved := {
  r_tt_x : Js.value;
  r_tt_y : Js.value;
  r_tt_sx : Js.value;
  r_tt_sy : Js.value;
  r_index : nat
}.

(** The [switch] of the [LineView] branch of [_update], for segment [i]. *)
Definition line_policy_hit (policy : LinePolicy) (xscale yscale : Scale)
    (_x _y gsx gsy : list Js.number)
    (get_interpolation_hit : nat -> Geometry -> Js.number * Js.number)
    (i : nat) (geometry : Geometry) (sx sy : Js.number) : Resolved :=
  let tt_x := Js.get _x (i + 1) in
  let tt_y := Js.get _y (i + 1) in
  let ii := i in
  match policy with
  | interp =>
      let '(tt_x, tt_y) := get_interpolation_hit i geometry in
      {| r_tt_x := Some tt_x; r_tt_y := Some tt_y;
         r_tt_sx := Some (compute xscale tt_x);
         r_tt_sy := Some (compute yscale tt_y);
         r_index := ii |}
  | prev =>
      let '((tt_sx, tt_sy), ii) := _line_hit gsx gsy i in
      {| r_tt_x := tt_x; r_tt_y := tt_y; r_tt_sx := tt_sx; r_tt_sy := tt_sy;
         r_index := ii |}
  | next =>
      let '((tt_sx, tt_sy), ii) := _line_hit gsx gsy (i + 1) in
      {| r_tt_x := tt_x; r_tt_y := tt_y; r_tt_sx := tt_sx; r_tt_sy := tt_sy;
         r_index := ii |}
  | nearest =>
      let '((tt_sx, tt_sy), ii) := _nearest_line_hit i geometry sx sy gsx gsy in
      {| r_tt_x := Js.get _x ii; r_tt_y := Js.get _y ii;
         r_tt_sx := tt_sx; r_tt_sy := tt_sy; r_index := ii |}
  | LinePolicy_none =>
      {| r_tt_x := tt_x; r_tt_y := tt_y; r_tt_sx := Some sx; r_tt_sy := Some sy;
         r_index := ii |}
  end.

(** The [switch] of the [MultiLineView] branch, for segment [j] of path
    [i]; its [default] arm throws. *)
Definition multiline_policy_hit (policy : LinePolicy) (xscale yscale : Scale)
    (_xs _ys sxs sys : list (list Js.number))
    (get_interpolation_hit : nat -> nat -> Geometry -> Js.number * Js.number)
    (i j : nat) (geometry : Geometry) (sx sy : Js.number) : Exception + Resolved :=
  let tt_x := ragged_get _xs i j in
  let tt_y := ragged_get _ys i j in
  let jj := j in
  match policy with
  | interp =>
      let '(tt_x, tt_y) := get_interpolation_hit i j geometry in
      inr {| r_tt_x := Some tt_x; r_tt_y := Some tt_y;
             r_tt_sx := Some (compute xscale tt_x);
             r_tt_sy := Some (compute yscale tt_y);
             r_index := jj |}
  | prev =>
      let '((tt_sx, tt_sy), jj) := _line_hit (ragged_row sxs i) (ragged_row sys i) j in
      inr {| r_tt_x := tt_x; r_tt_y := tt_y; r_tt_sx := tt_sx; r_tt_sy := tt_sy;
             r_index := jj |}
  | next =>
      let '((tt_sx, tt_sy), jj) :=
        _line_hit (ragged_row sxs i) (ragged_row sys i) (j + 1) in
      inr {| r_tt_x := tt_x; r_tt_y := tt_y; r_tt_sx := tt_sx; r_tt_sy := tt_sy;
             r_index := jj |}
  | nearest =>
      let '((tt_sx, tt_sy), jj) :=
        _nearest_line_hit j geometry sx sy (ragged_row sxs i) (ragged_row sys i) in
      inr {| r_tt_x := ragged_get _xs i jj; r_tt_y := ragged_get _ys i jj;
             r_tt_sx := tt_sx; r_tt_sy := tt_sy; r_index := jj |}
  | LinePolicy_none => inl (Error "shouldn't have happened")
  end.

(** One entry of the [tooltips] array of [_update]. *)
Definition Hit : Type := (Js.value * Js.value) * option Node.

(** The pointer of a point or span geometry; [_update] returns early on
    the other two kinds. *)
Definition pointer_of (geometry : Geometry) : option (Js.number * Js.number) :=
  match geometry with
  | PointGeometry sx sy => Some (sx, sy)
  | SpanGeometry _ sx sy => Some (sx, sy)
  | _ => None
  end.

(** [tooltip.clear()] on the object behind a reference. *)
Definition clear_tooltip (t : nat) : M unit :=
  modify (fun v => set_heap (alter Tooltip_clear t (heap v)) v).

(** Whether a node is the element [ref]. *)
Definition is_element (ref : nat) (n : Node) : bool :=
  match n with
  | NElement r => (r =? ref)%nat
  | _ => false
  end.

(** A node without the element [ref] anywhere below it. *)
Fixpoint without_element (ref : nat) (n : Node) : Node :=
  match n with
  | NDiv children =>
      NDiv (omap (fun c => if is_element ref c then None
                           else Some (without_element ref c)) children)
  | NTable rows =>
      NTable (map (fun r =>
                     match r with
                     | MkRow label value_el bg shown =>
                         MkRow label
                           (omap (fun c => if is_element ref c then None
                                           else Some (without_element ref c)) value_el)
                           bg shown
                     end) rows)
  | _ => n
  end.

(** The children of a node once the element [ref] has left its parent. *)
Definition detach (ref : nat) (children : list Node) : list Node :=
  omap (fun c => if is_element ref c then None else Some (without_element ref c)) children.

(** [content.appendChild(node)]: a node that is in the document already
    is taken from its parent first, then it becomes the last child of the
    content node [el]. *)
Definition appendChild (el : nat) (node : Node) (d : gmap nat (list Node))
    : gmap nat (list Node) :=
  let d := match node with
           | NElement ref => detach ref <$> d
           | _ => d
           end in
  <[el := default [] (d !! el) ++ [node]]> d.

(** [tooltip.setv({position: [x, y]}, {check_eq: false})]. *)
Definition set_position (pos : Js.value * Js.value) (tt : Tooltip) : Tooltip :=
  {| position := Some (PosCoords (fst pos) (snd pos));
     content := content tt;
     attachment := attachment tt; show_arrow := show_arrow tt;
     closable := closable tt; visible := visible tt |}.

Section Update.

Variable ext : Collaborators.

(** [empty(tooltip.content)], the appends of the nodes that are not
    [null], and the forced [setv] of the position.

    Modelled from the spec: [empty] belongs to [core/dom] and the getter
    of [content] to [core/has_props], outside this file; the spec has the
    nodes merged into the tooltip's content container, so a tooltip whose
    content is unset or markup has nothing to merge them into and the
    attempt raises what the runtime raises there. *)
Definition show_tooltip (t : nat) (nodes : list Node) (pos : Js.value * Js.value) : M unit :=
  v ← get_view;
  match heap v !! t with
  | None => mret tt
  | Some tooltip =>
      match content tooltip with
      | Some (Container el) =>
          _ ← modify (fun v =>
                 set_dom (foldl (fun d node => appendChild el node d)
                            (<[el := []]> (dom v)) nodes) v);
          modify (fun v => set_heap (alter (set_position pos) t (heap v)) v)
      | _ => throw (content_failure ext)
      end
  end.

(** The part of [_update]'s scope that every hit shares. *)
Record Scope := {
  s_renderer : GlyphRenderer;
  s_geometry : Geometry;
  s_sx : Js.number;
  s_sy : Js.number;
  s_x : Js.number;
  s_y : Js.number;
  s_xscale : Scale;
  s_yscale : Scale;
  s_glyph : GlyphView;
  s_fullset : Selection;
  s_subset : Selection
}.

Definition mk_vars (c : Scope) (index : option nat) (tt_x tt_y tt_sx tt_sy : Js.value)
    (indices : option IndicesVar) (segment_index : option nat) : TooltipVars :=
  {| index := index; glyph := s_glyph c; x := s_x c; y := s_y c;
     sx := s_sx c; sy := s_sy c;
     tt_x := tt_x; tt_y := tt_y; tt_sx := tt_sx; tt_sy := tt_sy;
     name := renderer_name (s_renderer c); vars_indices := indices;
     segment_index := segment_index |}.

(** [const rendered = this._render_tooltips(ds, vars);
    tooltips.push([tt_sx, tt_sy, rendered])]. *)
Definition push (c : Scope) (tt_sx tt_sy : Js.value) (vars : TooltipVars) : M (list Hit) :=
  rendered ← _render_tooltips ext (data_source (s_renderer c)) vars;
  mret [((tt_sx, tt_sy), rendered)].

Definition pointer_hit (c : Scope) (index : option nat) (indices : option IndicesVar)
    : M (list Hit) :=
  push c (Some (s_sx c)) (Some (s_sy c))
    (mk_vars c index (Some (s_x c)) (Some (s_y c)) (Some (s_sx c)) (Some (s_sy c))
       indices None).

(** [if (glyph instanceof PatchView)]. *)
Definition patch_hits (c : Scope) : M (list Hit) :=
  match s_glyph c with
  | PatchView _ => pointer_hit c None None
  | _ => mret []
  end.

(** [if (glyph instanceof VAreaView || glyph instanceof HAreaView)]. *)
Definition area_hits (c : Scope) : M (list Hit) :=
  match s_glyph c with
  | VAreaView _ | HAreaView _ =>
      for_each (line_indices (s_subset c)) (fun i =>
        pointer_hit c (Some i) (Some (IndicesList (line_indices (s_subset c)))))
  | _ => mret []
  end.

(** [if (glyph instanceof LineView)]. *)
Definition line_hits (policy : LinePolicy) (c : Scope) : M (list Hit) :=
  match s_glyph c with
  | LineView _ _x _y gsx gsy get_interpolation_hit =>
      for_each (line_indices (s_subset c)) (fun i =>
        let r := line_policy_hit policy (s_xscale c) (s_yscale c)
                   _x _y gsx gsy get_interpolation_hit
                   i (s_geometry c) (s_sx c) (s_sy c) in
        push c (r_tt_sx r) (r_tt_sy r)
          (mk_vars c (Some (r_index r)) (r_tt_x r) (r_tt_y r) (r_tt_sx r) (r_tt_sy r)
             (Some (IndicesList (line_indices (s_subset c)))) None))
  | _ => mret []
  end.

(** [for (const struct of fullset_indices.image_indices)]. *)
Definition image_hits (c : Scope) : M (list Hit) :=
  for_each (image_indices (s_fullset c)) (fun struct =>
    pointer_hit c (Some (image_index struct)) None).

(** The multi-line arm of the loop over [subset_indices.indices]. *)
Definition multiline_hits (policy : LinePolicy) (c : Scope)
    (_xs _ys sxs sys : list (list Js.number))
    (get_interpolation_hit : nat -> nat -> Geometry -> Js.number * Js.number)
    (i : nat) : M (list Hit) :=
  match multiline_indices (s_subset c) !! toString i with
  | None => throw (TypeError "undefined is not iterable")
  | Some js =>
      for_each js (fun j =>
        r ← lift (multiline_policy_hit policy (s_xscale c) (s_yscale c)
                    _xs _ys sxs sys get_interpolation_hit
                    i j (s_geometry c) (s_sx c) (s_sy c));
        let index := head (convert_indices_from_subset (s_renderer c) [i]) in
        push c (r_tt_sx r) (r_tt_sy r)
          (mk_vars c index (r_tt_x r) (r_tt_y r) (r_tt_sx r) (r_tt_sy r)
             (Some (IndicesMulti (multiline_indices (s_subset c))))
             (Some (r_index r))))
  end.

(** The arm for every other glyph ("handle non-multiglyphs"). *)
Definition point_hit (point_policy : PointPolicy) (anchor : Anchor) (c : Scope)
    (i : nat) : M (list Hit) :=
  let glyph := s_glyph c in
  let tt_x := match any_x glyph with Some xs => Js.get xs i | None => None end in
  let tt_y := match any_y glyph with Some ys => Js.get ys i | None => None end in
  let resolved : option (Js.number * Js.number) :=
    match point_policy with
    | snap_to_data =>
        match get_anchor_point (glyph_base glyph) anchor i (s_sx c, s_sy c) with
        | Some pt => Some (pt_x pt, pt_y pt)
        | None =>
            match get_anchor_point (glyph_base glyph) Anchor.center i
                    (s_sx c, s_sy c) with
            | Some pt => Some (pt_x pt, pt_y pt)
            | None => None
            end
        end
    | _ => Some (s_sx c, s_sy c)
    end in
  match resolved with
  | None => mret []
  | Some (tt_sx, tt_sy) =>
      let index := head (convert_indices_from_subset (s_renderer c) [i]) in
      push c (Some tt_sx) (Some tt_sy)
        (mk_vars c index tt_x tt_y (Some tt_sx) (Some tt_sy)
           (Some (IndicesList (indices (s_subset c)))) None)
  end.

(** [for (const i of subset_indices.indices)]. *)
Definition index_hits (m : HoverTool.Attrs) (c : Scope) : M (list Hit) :=
  for_each (indices (s_subset c)) (fun i =>
    match s_glyph c with
    | MultiLineView _ _xs _ys sxs sys get_interpolation_hit =>
        if negb (bool_decide (multiline_indices (s_subset c) = ∅)) then
          multiline_hits (HoverTool.line_policy m) c _xs _ys sxs sys
            get_interpolation_hit i
        else point_hit (HoverTool.point_policy m) (HoverTool.anchor m) c i
    | _ => point_hit (HoverTool.point_policy m) (HoverTool.anchor m) c i
    end).

(** The tail of [_update]: clear on no hit, else fill the content and
    move the tooltip to the last hit. *)
Definition commit (tooltip : nat) (tooltips : list Hit) : M unit :=
  match last tooltips with
  | None => clear_tooltip tooltip
  | Some (pos, _) => show_tooltip tooltip (omap snd tooltips) pos
  end.

(** [_update], the receiver of a data source's [inspect] signal. *)
Definition _update (renderer : GlyphRenderer) (geometry : Geometry) : M unit :=
  v ← get_view;
  if negb (HoverTool.active (model v)) then mret tt else
  match pointer_of geometry with
  | None => mret tt
  | Some (sx, sy) =>
  if match HoverTool.muted_policy (model v) with
     | ignore => muted renderer
     | show => false
     end
  then mret tt else
  match _ttmodels v !! renderer_ref renderer with
  | None => mret tt
  | Some tooltip =>
  match inspectors v !! renderer_ref renderer with
  | None => throw (TypeError "Cannot read properties of undefined")
  | Some fullset_indices =>
  let subset_indices := convert_selection_to_subset renderer fullset_indices in
  if Selection_is_empty fullset_indices
     && match selection_view fullset_indices with
        | None => true
        | Some _ => false
        end
  then clear_tooltip tooltip else
  match renderer_view v (renderer_ref renderer) with
  | None => mret tt
  | Some renderer_view =>
  let xscale := x_scale renderer_view in
  let yscale := y_scale renderer_view in
  let c := {| s_renderer := renderer; s_geometry := geometry;
              s_sx := sx; s_sy := sy;
              s_x := invert xscale sx; s_y := invert yscale sy;
              s_xscale := xscale; s_yscale := yscale;
              s_glyph := view_glyph renderer_view;
              s_fullset := fullset_indices; s_subset := subset_indices |} in
  patch ← patch_hits c;
  area ← area_hits c;
  line ← line_hits (HoverTool.line_policy (model v)) c;
  image ← image_hits c;
  points ← index_hits (model v) c;
  commit tooltip (patch ++ area ++ line ++ image ++ points)
  end end end end.

End Update.

(** ** The controller *)

(** Modelled from the spec: [compute_renderers] belongs to
    [models/util], outside this file; the participating renderers are the
    caller-supplied list in its order, or every data renderer of the plot
    for ["auto"]. *)
Definition compute_renderers (renderers : RenderersProp) (all_renderers : list DataRenderer)
    : list DataRenderer :=
  match renderers with
  | Auto => all_renderers
  | Renderers l => l
  end.

Definition computed_renderers (v : HoverToolView) : list DataRenderer :=
  compute_renderers (HoverTool.renderers (model v)) (data_renderers v).

(** [new Tooltip({custom, attachment, show_arrow})].  The other
    properties take the defaults of [Tooltip.define]; [content] has none
    and stays unset, and [custom] names no property that [Tooltip.define]
    declares, so there is nothing to keep it in. *)
Definition new_Tooltip (m : HoverTool.Attrs) : Tooltip :=
  {| position := None;
     content := None;
     attachment := HoverTool.attachment m;
     show_arrow := HoverTool.show_arrow m;
     closable := false;
     visible := true |}.

(** One turn of the first loop of [_update_ttmodels]: allocate a tooltip,
    then register it for the renderer. *)
Definition register_renderer (v : HoverToolView) (r : DataRenderer) : HoverToolView :=
  let tooltip := next_ref v in
  let v := set_next_ref (S tooltip) (set_heap (<[tooltip := new_Tooltip (model v)]> (heap v)) v) in
  match r with
  | GlyphR g => set_ttmodels (<[renderer_ref g := tooltip]> (_ttmodels v)) v
  | GraphR _ node_renderer edge_renderer =>
      set_ttmodels
        (<[renderer_ref edge_renderer := tooltip]>
           (<[renderer_ref node_renderer := tooltip]> (_ttmodels v))) v
  | OtherR _ => v
  end.

(** The generator of [_update_ttmodels]: graph renderers expand to their
    node and edge renderers. *)
Definition glyph_renderers (rs : list DataRenderer) : list GlyphRenderer :=
  flat_map (fun r => match r with
                     | GlyphR g => [g]
                     | GraphR _ node_renderer edge_renderer => [node_renderer; edge_renderer]
                     | OtherR _ => []
                     end) rs.

(** [_update_ttmodels].  Building the tooltip views is left to
    [build_views]; [connected] holds the data sources whose [inspect]
    signal reaches [_update]. *)
Definition _update_ttmodels (v : HoverToolView) : HoverToolView :=
  let v := set_ttmodels ∅ v in
  match HoverTool.tooltips (model v) with
  | None => v
  | Some _ =>
      let rs := computed_renderers v in
      let v := foldl register_renderer v rs in
      let sources : gset nat :=
        list_to_set (map (fun r => source_ref (data_source r)) (glyph_renderers rs)) in
      set_connected (connected v ∩ sources ∪ sources) v
  end.

(** The geometry [_inspect] builds from the mode. *)
Definition build_geometry (mode : HoverMode) (sx sy : Js.number) : Geometry :=
  match mode with
  | mouse => PointGeometry sx sy
  | vline => SpanGeometry DirH sx sy
  | hline => SpanGeometry DirV sx sy
  end.

Definition geometry_pointer (geometry : Geometry) : Js.number * Js.number :=
  match geometry with
  | PointGeometry sx sy | SpanGeometry _ sx sy => (sx, sy)
  | _ => (nan, nan)
  end.

Definition _emit_callback (geometry : Geometry) (v : HoverToolView) : HoverToolView :=
  match HoverTool.callback (model v) with
  | None => v
  | Some _ =>
      foldl (fun v renderer =>
               match renderer with
               | GlyphR g =>
                   match renderer_view v (renderer_ref g) with
                   | None => v
                   | Some glyph_renderer_view =>
                       let '(gsx, gsy) := geometry_pointer geometry in
                       set_callback_log
                         (callback_log v ++
                            [{| call_renderer := renderer_ref g;
                                call_geometry := geometry;
                                call_x := invert (x_scale glyph_renderer_view) gsx;
                                call_y := invert (y_scale glyph_renderer_view) gsy |}]) v
                   end
               | _ => v
               end) v (computed_renderers v)
  end.

(** [for (const [, tooltip] of this.ttmodels) tooltip.clear()]. *)
Definition clear_all (v : HoverToolView) : HoverToolView :=
  set_heap
    (foldl (fun h entry => alter Tooltip_clear (snd entry) h) (heap v)
       (map_to_list (_ttmodels v))) v.

Record MoveEvent := { ev_sx : Js.number; ev_sy : Js.number }.

Section Controller.

Variable ext : Collaborators.

(** Modelled from the spec: signals belong to [core/signaling], outside
    this file.  Emitting a data source's [inspect] signal calls its
    receivers at once and in the emitter's turn, so what a receiver throws
    reaches the emitter; [_update_ttmodels] has connected [_update] to the
    sources in [connected]. *)
Definition emit_inspect (renderer : GlyphRenderer) (geometry : Geometry) : M unit :=
  v ← get_view;
  if bool_decide (source_ref (data_source renderer) ∈ connected v)
  then _update ext renderer geometry
  else mret tt.

(** Modelled from the spec: the selection manager belongs to
    [core/selection_manager], outside this file.  A glyph renderer's
    selection evaluator evaluates the geometry on the renderer's view,
    keeps the resulting index sets as the renderer's inspection, and
    signals the inspection on the renderer's data source, which is what
    drives the tooltip update. *)
Definition evaluate (renderer : GlyphRenderer) (rview : RendererView) (geometry : Geometry)
    : M unit :=
  _ ← modify (fun v =>
         set_inspectors
           (<[renderer_ref renderer := hit_test rview geometry]> (inspectors v)) v);
  emit_inspect renderer geometry.

(** Modelled from the spec: for a relation (graph) renderer the geometry
    goes to the evaluators of its two constituent renderers, node first;
    one that has no view is skipped.  Any other renderer has no
    evaluator. *)
Definition sm_inspect (r : DataRenderer) (rview : RendererView) (geometry : Geometry)
    : M unit :=
  match r with
  | GlyphR g => evaluate g rview geometry
  | GraphR _ node_renderer edge_renderer =>
      for_each_ [node_renderer; edge_renderer] (fun g =>
        v ← get_view;
        match renderer_view v (renderer_ref g) with
        | Some gview => evaluate g gview geometry
        | None => mret tt
        end)
  | OtherR _ => mret tt
  end.

(** One turn of the loop of [_inspect]. *)
Definition inspect_step (geometry : Geometry) (r : DataRenderer) : M unit :=
  v ← get_view;
  match renderer_view v (data_renderer_ref r) with
  | Some rview => sm_inspect r rview geometry
  | None => mret tt
  end.

Definition _inspect (sx sy : Js.number) : M unit :=
  v ← get_view;
  let geometry := build_geometry (HoverTool.mode (model v)) sx sy in
  _ ← for_each_ (computed_renderers v) (inspect_step geometry);
  modify (_emit_callback geometry).

Definition _clear : M unit :=
  _ ← _inspect Js.Infinity Js.Infinity;
  modify clear_all.

Definition _move (ev : MoveEvent) : M unit :=
  v ← get_view;
  if negb (HoverTool.active (model v)) then mret tt
  else
    if negb (bbox_contains (frame_bbox v) (ev_sx ev) (ev_sy ev)) then _clear
    else _inspect (ev_sx ev) (ev_sy ev).

Definition _move_exit : M unit := _clear.

End Controller.

(** [lazy_initialize]: the first rebuild of the map and, for a structured
    template, the one place that builds its view; the view's element is a
    new object. *)
Definition lazy_initialize (v : HoverToolView) : HoverToolView :=
  let v := _update_ttmodels v in
  match HoverTool.tooltips (model v) with
  | Some (TemplateSpec t) =>
      set_next_ref (S (next_ref v))
        (set_template_view
           (Some {| tv_template := t; tv_el := next_ref v; tv_rendered := None |}) v)
  | _ => v
  end.


(** ** Specification-side measures *)

(** The distance from the pointer to a sample, in the specification's
    words: for a span query the one relevant axis component, otherwise the
    distance between the two points. *)
Definition pointer_distance (geometry : Geometry) (sx sy : Js.number)
    (sample : Js.value * Js.value) : Js.number :=
  match geometry with
  | SpanGeometry DirH _ _ => Js.Math_abs (Js.sub (Js.to_number (fst sample)) sx)
  | SpanGeometry DirV _ _ => Js.Math_abs (Js.sub (Js.to_number (snd sample)) sy)
  | _ => dist_2_pts {| px := fst sample; py := snd sample |}
                    {| px := Some sx; py := Some sy |}
  end.

(** Sample [i] of a pair of coordinate series. *)
Definition sample (dx dy : list Js.number) (i : nat) : Js.value * Js.value :=
  (Js.get dx i, Js.get dy i).

(** The CSS class [_reposition] adds for a side: the class names the side
    of the tooltip the arrow is on, the opposite of the side of the anchor
    the tooltip is on. *)
Definition side_class (s : Side) : CssClass :=
  match s with
  | right => css_left
  | left => css_right
  | below => css_above
  | above => css_below
  end.

Definition side_classes : list CssClass := [css_right; css_left; css_above; css_below].

(** The four [classList.remove] calls of [_reposition]. *)
Definition clear_sides (l : list CssClass) : list CssClass :=
  classList_remove css_below
    (classList_remove css_above
      (classList_remove css_left
        (classList_remove css_right l))).

(** ** Sample inputs *)

(** The bounding box [0,100] x [0,100]. *)
Definition box100 : BBox :=
  {| bbox_left := 0; bbox_top := 0; bbox_right := 100; bbox_bottom := 100 |}.

Definition sample_collaborators : Collaborators :=
  {| replace_placeholders := fun input _ _ _ _ =>
       match input with
       | PlainText s => ContentString s
       | Html html => ContentNodes [NText html]
       end;
     color2css := fun c =>
       match c with
       | CellString s => s
       | _ => "rgba(255, 0, 0, 1)"
       end;
     color2hex := fun c =>
       match c with
       | CellString s => s
       | _ => "#ff0000"
       end;
     template_view_update := fun t _ _ _ => NOpaque t;
     content_failure := TypeError "Cannot read properties of undefined" |}.

Definition sample_source : ColumnarDataSource :=
  {| source_ref := 0;
     columns := {[ "fill" := [CellNumber 4278190335; CellNull] ]} |}.

Definition sample_base : GlyphBase :=
  {| base_x := None; base_y := None; get_anchor_point := fun _ _ _ => None |}.

Definition identity_scale : Scale := {| compute := fun a => a; invert := fun a => a |}.

Definition sample_renderer (ref : nat) (is_muted : bool) : GlyphRenderer :=
  {| renderer_ref := ref;
     muted := is_muted;
     renderer_name := None;
     data_source := sample_source;
     convert_selection_to_subset := fun s => s;
     convert_indices_from_subset := fun l => l |}.

(** A tooltip whose content is the node 0. *)
Definition sample_tooltip (p : option Position) (att : TooltipAttachment) : Tooltip :=
  {| position := p; content := Some (Container 0); attachment := att;
     show_arrow := true; closable := false; visible := true |}.

Definition with_policies (muted_policy : MutedPolicy) (line_policy : LinePolicy)
    (is_active : bool) : HoverTool.Attrs :=
  {| HoverTool.active := is_active;
     HoverTool.tooltips := HoverTool.tooltips HoverTool.defaults;
     HoverTool.formatters := ∅;
     HoverTool.renderers := Auto;
     HoverTool.mode := mouse;
     HoverTool.muted_policy := muted_policy;
     HoverTool.point_policy := snap_to_data;
     HoverTool.line_policy := line_policy;
     HoverTool.show_arrow := true;
     HoverTool.anchor := Anchor.center;
     HoverTool.attachment := horizontal;
     HoverTool.callback := None |}.

Definition sample_line_view : RendererView :=
  {| x_scale := identity_scale;
     y_scale := identity_scale;
     view_glyph := LineView sample_base [0; 10]%float [0; 0]%float [0; 10]%float [0; 0]%float
                     (fun _ _ => (0%float, 0%float));
     hit_test := fun geometry =>
       match geometry with
       | PointGeometry sx sy =>
           if PrimFloat.leb 0 sx && PrimFloat.leb sx 10 then
             {| indices := []; line_indices := [0]; multiline_indices := ∅;
                image_indices := []; selection_view := None |}
           else empty_selection
       | _ => empty_selection
       end |}.

(** A view with one line renderer (reference 1) whose tooltip (reference
    0) is showing. *)
Definition sample_view (m : HoverTool.Attrs) : HoverToolView :=
  {| model := m;
     data_renderers := [GlyphR (sample_renderer 1 true)];
     frame_bbox := box100;
     renderer_view := fun ref => if (ref =? 1)%nat then Some sample_line_view else None;
     _ttmodels := {[ 1 := 0 ]};
     _template_el := None;
     _template_view := None;
     heap := {[ 0 := sample_tooltip (Some (PosCoords (Some 5%float) (Some 5%float))) horizontal ]};
     dom := {[ 0 := [NText "stale"] ]};
     next_ref := 1;
     inspectors := {[ 1 := {| indices := []; line_indices := [0]; multiline_indices := ∅;
                              image_indices := []; selection_view := None |} ]};
     connected := {[ 0 ]};
     callback_log := [] |}.

(** A column name as [\w*] captures it: word characters only. *)
Definition is_word (w : string) : Prop := Str.take_word w = w.

(** The outcome of a write that succeeds and touches row [j] only. *)
Definition row_local (j : nat) (el : list Row) (res : Exception + list Row) : Prop :=
  exists r', res = inr (<[j := r']> el).

Definition sample_vars (i : option nat) : TooltipVars :=
  {| index := i; glyph := OtherGlyphView sample_base;
     x := 0; y := 0; sx := 0; sy := 0;
     tt_x := None; tt_y := None; tt_sx := Some 0%float; tt_sy := Some 0%float;
     name := None; vars_indices := None; segment_index := None |}.

(** The references of the glyph renderers behind a renderer list. *)
Definition underlying_refs (rs : list DataRenderer) : list nat :=
  map renderer_ref (glyph_renderers rs).

(** A view over one glyph renderer (reference 3) and one graph renderer
    whose node and edge renderers have references 1 and 2; nothing is
    registered yet. *)
Definition sample_graph_view : HoverToolView :=
  {| model := HoverTool.defaults;
     data_renderers := [GlyphR (sample_renderer 3 false);
                        GraphR 10 (sample_renderer 1 false) (sample_renderer 2 false)];
     frame_bbox := box100;
     renderer_view := fun _ => None;
     _ttmodels := ∅;
     _template_el := None;
     _template_view := None;
     heap := ∅;
     dom := ∅;
     next_ref := 0;
     inspectors := ∅;
     connected := ∅;
     callback_log := [] |}.


(** ** A program logic for the view's monad *)

(** A computation started in a state satisfying [I] either returns a
    value and a state satisfying [Q], or throws an exception satisfying
    [P]. *)
Definition triple {A : Type} (I : HoverToolView -> Prop) (c : M A)
    (Q : A -> HoverToolView -> Prop) (P : Exception -> Prop) : Prop :=
  forall v, I v ->
    match c v with
    | (inr a, v') => Q a v'
    | (inl e, _) => P e
    end.

Definition is_TypeError (e : Exception) : Prop := exists m, e = TypeError m.

(** The compiled-template cache of a view with properties [m] is absent
    or the template of the current rows. *)
Definition template_coherent (m : HoverTool.Attrs) (v : HoverToolView) : Prop :=
  model v = m
  /\ match HoverTool.tooltips m with
     | Some (RowsSpec rows) =>
         _template_el v = None \/ _template_el v = Some (_create_template rows)
     | _ => True
     end.

(** The slot [_template_view] is filled when the tooltips are a structured
    template. *)
Definition template_view_built (v : HoverToolView) : Prop :=
  match HoverTool.tooltips (model v) with
  | Some (TemplateSpec _) => is_Some (_template_view v)
  | _ => True
  end.

(** Rendering a hit finds what it needs. *)
Definition render_ready (m : HoverTool.Attrs) (v : HoverToolView) : Prop :=
  template_coherent m v /\ template_view_built v.

(** The tooltip behind a reference has a node to merge the hits into. *)
Definition has_container (v : HoverToolView) (tooltip : nat) : Prop :=
  exists t el, heap v !! tooltip = Some t /\ content t = Some (Container el).

(** The view carries the properties [m]. *)
Definition same_model (m : HoverTool.Attrs) (v : HoverToolView) : Prop := model v = m.

Definition is_multiline (g : GlyphView) : bool :=
  match g with
  | MultiLineView _ _ _ _ _ _ => true
  | _ => false
  end.

(** The error of the [default] arm of the multi-line switch. *)
Definition unreachable : Exception := Error "shouldn't have happened".

(** Every outer index of a multi-line selection has its entry in the
    nested index map. *)
Definition selection_well_formed (s : Selection) : Prop :=
  multiline_indices s = ∅
  \/ forall i, i ∈ indices s -> is_Some (multiline_indices s !! toString i).

(** The renderer's inspection is there and well formed. *)
Definition inspection_well_formed (v : HoverToolView) (renderer : GlyphRenderer) : Prop :=
  exists fullset,
    inspectors v !! renderer_ref renderer = Some fullset
    /\ selection_well_formed (convert_selection_to_subset renderer fullset).

(** The multi-line glyph meets a line policy its switch does not cover. *)
Definition uncovered_policy (v : HoverToolView) (renderer : GlyphRenderer) : Prop :=
  HoverTool.line_policy (model v) = LinePolicy_none
  /\ exists rview, renderer_view v (renderer_ref renderer) = Some rview
                   /\ is_multiline (view_glyph rview) = true.

(** A view over one multi-line renderer (reference 1) with a hit on
    segment 0 of path 0. *)
Definition sample_multiline_selection : Selection :=
  {| indices := [0]; line_indices := [];
     multiline_indices := {[ "0" := [0] ]};
     image_indices := []; selection_view := None |}.

Definition sample_multiline_view (m : HoverTool.Attrs) : HoverToolView :=
  {| model := m;
     data_renderers := [GlyphR (sample_renderer 1 false)];
     frame_bbox := box100;
     renderer_view := fun ref =>
       if (ref =? 1)%nat then
         Some {| x_scale := identity_scale; y_scale := identity_scale;
                 view_glyph := MultiLineView sample_base
                                 [[0; 10]%float] [[0; 0]%float] [[0; 10]%float] [[0; 0]%float]
                                 (fun _ _ _ => (0%float, 0%float));
                 hit_test := fun _ => sample_multiline_selection |}
       else None;
     _ttmodels := {[ 1 := 0 ]};
     _template_el := None;
     _template_view := None;
     heap := {[ 0 := sample_tooltip None horizontal ]};
     dom := {[ 0 := [NText "stale"] ]};
     next_ref := 1;
     inspectors := {[ 1 := sample_multiline_selection ]};
     connected := {[ 0 ]};
     callback_log := [] |}.

(** The side [_reposition] works with for a shown tooltip. *)
Definition reposition_side (model : Tooltip) (bbox : BBox) (pos : Position) : Side :=
  choose_side (attachment model)
    (fst (resolve_position pos bbox)) (snd (resolve_position pos bbox)) bbox.

(** No character of [s] is a dollar sign. *)
Fixpoint dollar_free (s : string) : bool :=
  match s with
  | String c s' => negb (Ascii.eqb "$" c) && dollar_free s'
  | EmptyString => true
  end.

(** The characters of a plain option list: word characters, spaces and
    commas. *)
Fixpoint is_options (s : string) : bool :=
  match s with
  | String c s' =>
      (Str.is_word_char c || Ascii.eqb c " " || Ascii.eqb c ",") && is_options s'
  | EmptyString => true
  end.

(** The text of a color directive with or without bracketed options. *)
Definition color_directive (opts : option string) (colname : string) : string :=
  match opts with
  | Some inner => "$color[" +:+ inner +:+ "]:" +:+ colname
  | None => "$color:" +:+ colname
  end.

(** What the pattern captures as the options of [color_directive]. *)
Definition captured_options (opts : option string) : string :=
  match opts with
  | Some inner => "[" +:+ inner +:+ "]"
  | None => ""
  end.

Definition row_label (r : Row) : string :=
  match r with
  | MkRow label _ _ _ => label
  end.

Definition row_value (r : Row) : list Node :=
  match r with
  | MkRow _ value_el _ _ => value_el
  end.

(** [v'] is [v] but for the template cache and what the template view
    has rendered: all that rendering a hit writes. *)
Definition renders_only (v v' : HoverToolView) : Prop :=
  exists tpl tv, v' = set_template_view tv (set_template_el tpl v).

(** [v'] is [v] but for what rendering writes, the tooltip objects and
    the document. *)
Definition updates_only (v v' : HoverToolView) : Prop :=
  exists tpl tv h d,
    v' = set_dom d (set_heap h (set_template_view tv (set_template_el tpl v))).

(** [v'] is [v] but for what an update writes and the inspections. *)
Definition inspects_only (v v' : HoverToolView) : Prop :=
  exists tpl tv h d i,
    v' = set_inspectors i
           (set_dom d (set_heap h (set_template_view tv (set_template_el tpl v)))).

(** The scope of [_update] once it is past its guards. *)
Definition update_scope (renderer : GlyphRenderer) (geometry : Geometry)
    (sx sy : Js.number) (rview : RendererView) (fullset : Selection) : Scope :=
  {| s_renderer := renderer; s_geometry := geometry;
     s_sx := sx; s_sy := sy;
     s_x := invert (x_scale rview) sx; s_y := invert (y_scale rview) sy;
     s_xscale := x_scale rview; s_yscale := y_scale rview;
     s_glyph := view_glyph rview;
     s_fullset := fullset;
     s_subset := convert_selection_to_subset renderer fullset |}.

(** The hits of [_update], in the order it collects them. *)
Definition collect_hits (ext : Collaborators) (m : HoverTool.Attrs) (c : Scope)
    : M (list Hit) :=
  patch ← patch_hits ext c;
  area ← area_hits ext c;
  line ← line_hits ext (HoverTool.line_policy m) c;
  image ← image_hits ext c;
  points ← index_hits ext m c;
  mret (patch ++ area ++ line ++ image ++ points).

(** The content node of the renderer's tooltip is [el]. *)
Definition own_container (v : HoverToolView) (renderer : GlyphRenderer) (el : nat) : Prop :=
  exists tooltip t,
    _ttmodels v !! renderer_ref renderer = Some tooltip
    /\ heap v !! tooltip = Some t
    /\ content t = Some (Container el).

(** The elements among the nodes handed to [appendChild]. *)
Definition moved_elements (nodes : list Node) : list nat :=
  omap (fun n => match n with NElement ref => Some ref | _ => None end) nodes.

(** The children of a node after the elements [moved] have left it. *)
Definition without_elements (moved : list nat) (children : list Node) : list Node :=
  foldl (fun l ref => detach ref l) children moved.

(** The tooltips are built anew for each hit: rows, markup, or none. *)
Definition builds_nodes (m : HoverTool.Attrs) : Prop :=
  match HoverTool.tooltips m with
  | Some (TemplateSpec _) | Some (FunctionSpec _) => False
  | _ => True
  end.

(** A rendered node that is not an element of its own standing. *)
Definition is_built (n : option Node) : Prop :=
  match n with
  | Some (NElement _) => False
  | _ => True
  end.

(** An index set without a hit and without a view. *)
Definition no_hit (s : Selection) : Prop :=
  Selection_is_empty s = true /\ selection_view s = None.

(** Whatever the outcome, the state a computation leaves is related to
    the state it started in. *)
Definition preserves {A : Type} (R : HoverToolView -> HoverToolView -> Prop) (c : M A)
    : Prop :=
  forall v, R v (snd (c v)).

(** [sample_view] with a second renderer (reference 2) whose tooltip
    (reference 1) is showing elsewhere, with the element 9 in its content
    node 1. *)
Definition sample_two_view (m : HoverTool.Attrs) : HoverToolView :=
  set_dom (<[1 := [NElement 9]]> (dom (sample_view m)))
    (set_heap
       (<[1 := {| position := Some (PosCoords (Some 7%float) (Some 7%float));
                  content := Some (Container 1); attachment := vertical;
                  show_arrow := true; closable := false; visible := true |}]>
          (heap (sample_view m)))
       (set_ttmodels (<[2 := 1]> (_ttmodels (sample_view m))) (sample_view m))).

(** [sample_two_view] with the structured template 7 for tooltips, its
    view built with the element 9 -- which sits in the second tooltip's
    content -- and two segment hits inspected for the line renderer. *)
Definition sample_templated_view : HoverToolView :=
  let m := with_policies show nearest true in
  set_inspectors
    {[ 1 := {| indices := []; line_indices := [0; 0]; multiline_indices := ∅;
               image_indices := []; selection_view := None |} ]}
    (set_template_view (Some {| tv_template := 7; tv_el := 9; tv_rendered := None |})
       (set_model
          {| HoverTool.active := true;
             HoverTool.tooltips := Some (TemplateSpec 7);
             HoverTool.formatters := ∅;
             HoverTool.renderers := Auto;
             HoverTool.mode := mouse;
             HoverTool.muted_policy := show;
             HoverTool.point_policy := snap_to_data;
             HoverTool.line_policy := nearest;
             HoverTool.show_arrow := true;
             HoverTool.anchor := Anchor.center;
             HoverTool.attachment := horizontal;
             HoverTool.callback := None |}
          (sample_two_view m))).

(** A point glyph that resolves no anchor point. *)
Definition sample_point_view : RendererView :=
  {| x_scale := identity_scale; y_scale := identity_scale;
     view_glyph := OtherGlyphView sample_base;
     hit_test := fun _ => empty_selection |}.

(** A view over one point renderer (reference 1) with two indices
    inspected and its tooltip (reference 0) showing. *)
Definition sample_points_view (m : HoverTool.Attrs) : HoverToolView :=
  {| model := m;
     data_renderers := [GlyphR (sample_renderer 1 false)];
     frame_bbox := box100;
     renderer_view := fun ref => if (ref =? 1)%nat then Some sample_point_view else None;
     _ttmodels := {[ 1 := 0 ]};
     _template_el := None;
     _template_view := None;
     heap := {[ 0 := sample_tooltip (Some (PosCoords (Some 5%float) (Some 5%float))) horizontal ]};
     dom := {[ 0 := [NText "stale"] ]};
     next_ref := 1;
     inspectors := {[ 1 := {| indices := [0; 1]; line_indices := []; multiline_indices := ∅;
                              image_indices := []; selection_view := None |} ]};
     connected := {[ 0 ]};
     callback_log := [] |}.

(** The call [_emit_callback] makes for a renderer, if it makes one. *)
Definition callback_call (v : HoverToolView) (geometry : Geometry) (sx sy : Js.number)
    (r : DataRenderer) : option CallbackCall :=
  match r with
  | GlyphR g =>
      match renderer_view v (renderer_ref g) with
      | Some rview =>
          Some {| call_renderer := renderer_ref g;
                  call_geometry := geometry;
                  call_x := invert (x_scale rview) sx;
                  call_y := invert (y_scale rview) sy |}
      | None => None
      end
  | _ => None
  end.

(** One turn of the loop of [_emit_callback]. *)
Definition emit_step (geometry : Geometry) (v : HoverToolView) (renderer : DataRenderer)
    : HoverToolView :=
  match renderer with
  | GlyphR g =>
      match renderer_view v (renderer_ref g) with
      | None => v
      | Some glyph_renderer_view =>
          let '(gsx, gsy) := geometry_pointer geometry in
          set_callback_log
            (callback_log v ++
               [{| call_renderer := renderer_ref g;
                   call_geometry := geometry;
                   call_x := invert (x_scale glyph_renderer_view) gsx;
                   call_y := invert (y_scale glyph_renderer_view) gsy |}]) v
      end
  | _ => v
  end.

(** A view over one vertical-area renderer (reference 1) with two
    indices inspected and its tooltip (reference 0) hidden. *)
Definition sample_area_view (m : HoverTool.Attrs) : HoverToolView :=
  {| model := m;
     data_renderers := [GlyphR (sample_renderer 1 false)];
     frame_bbox := box100;
     renderer_view := fun ref =>
       if (ref =? 1)%nat then
         Some {| x_scale := identity_scale; y_scale := identity_scale;
                 view_glyph := VAreaView sample_base;
                 hit_test := fun _ => empty_selection |}
       else None;
     _ttmodels := {[ 1 := 0 ]};
     _template_el := None;
     _template_view := None;
     heap := {[ 0 := sample_tooltip None horizontal ]};
     dom := {[ 0 := [NText "stale"] ]};
     next_ref := 1;
     inspectors := {[ 1 := {| indices := []; line_indices := [0; 1]; multiline_indices := ∅;
                              image_indices := []; selection_view := None |} ]};
     connected := {[ 0 ]};
     callback_log := [] |}.

(** The renderer with reference [k] has a view, and its inspection is
    what the view's evaluator returns for the geometry. *)
Definition inspected (geometry : Geometry) (v : HoverToolView) (k : nat) : Prop :=
  exists gview,
    renderer_view v k = Some gview
    /\ inspectors v !! k = Some (hit_test gview geometry).

(** [v'] is [v] but for what an update writes and for inspections of
    renderers among [keys], each the evaluation of the geometry. *)
Definition inspects_within (geometry : Geometry) (keys : list nat)
    (v v' : HoverToolView) : Prop :=
  inspects_only v v'
  /\ forall k, inspectors v' !! k = inspectors v !! k
               \/ (k ∈ keys /\ inspected geometry v' k).

(** [v'] is [v] but for the inspections and for tooltips of the map that
    have been cleared. *)
Definition clears_only (v v' : HoverToolView) : Prop :=
  exists h i,
    v' = set_inspectors i (set_heap h v)
    /\ forall t, h !! t = heap v !! t
                 \/ (h !! t = Tooltip_clear <$> heap v !! t
                     /\ exists r, _ttmodels v !! r = Some t).

(** No update has anything to show for the geometry: the tool is
    inactive, or no evaluator reports a hit. *)
Definition quiet (geometry : Geometry) (v : HoverToolView) : Prop :=
  HoverTool.active (model v) = false
  \/ forall k gview, renderer_view v k = Some gview -> no_hit (hit_test gview geometry).

(** The exceptions of the update step. *)
Definition update_exception (ext : Collaborators) (e : Exception) : Prop :=
  e = unreachable \/ is_TypeError e \/ e = content_failure ext.

(** [sample_view] with a second computed renderer (reference 5) that has
    no view and an inspection left from an earlier move. *)
Definition sample_unviewed_view (m : HoverTool.Attrs) : HoverToolView :=
  {| model := m;
     data_renderers := [GlyphR (sample_renderer 1 true); GlyphR (sample_renderer 5 false)];
     frame_bbox := box100;
     renderer_view := fun ref => if (ref =? 1)%nat then Some sample_line_view else None;
     _ttmodels := {[ 1 := 0 ]};
     _template_el := None;
     _template_view := None;
     heap := {[ 0 := sample_tooltip (Some (PosCoords (Some 5%float) (Some 5%float))) horizontal ]};
     dom := {[ 0 := [NText "stale"] ]};
     next_ref := 1;
     inspectors := {[ 1 := {| indices := []; line_indices := [0]; multiline_indices := ∅;
                              image_indices := []; selection_view := None |};
                      5 := {| indices := [3]; line_indices := []; multiline_indices := ∅;
                              image_indices := []; selection_view := None |} ]};
     connected := {[ 0 ]};
     callback_log := [] |}.

(** * Properties *)

(** ** Sanity checks of the embedding *)

Example match_examples :
  Str.match_swatch "$swatch:fill_color" = Some "fill_color"
  /\ Str.match_swatch "see $swatch:c1 and $swatch:c2" = Some "c1"
  /\ Str.match_swatch "$color:c" = None
  /\ Str.match_color "$color[hex, swatch]:c rest" = Some (Some "[hex, swatch]", "c")
  /\ Str.match_color "$color[a]:b]:c" = Some (Some "[a]:b]", "c")
  /\ Str.match_color "$color:c" = Some (None, "c")
  /\ Str.match_color "$color[hex:c $color:d" = Some (None, "d")
  /\ Str.includes "hex" "[swatch, hex]" = true
  /\ Str.replace_first "$~" "$data_" "$~x and $~y" = "$data_x and $~y".
Proof. vm_compute. repeat split. Qed.

Example toString_examples : toString 0 = "0" /\ toString 42 = "42".
Proof. vm_compute. split; reflexivity. Qed.

Example round_examples :
  (Js.Math_round 2.5 = 3 /\ Js.Math_round (-2.5) = (-2) /\ Js.Math_round 2.25 = 2
   /\ Js.Math_round (-0.25) = (-0) /\ Js.Math_round (-7.75) = (-8))%float.
Proof. vm_compute. repeat split. Qed.

(** A tooltip of 40 x 20 pixels anchored at (20, 30) in the box
    [0,100] x [0,100] goes to the right of the anchor. *)
Example reposition_example :
  _reposition (sample_tooltip (Some (PosCoords (Some 20%float) (Some 30%float))) horizontal)
    box100
    {| offsetWidth := 40; clientWidth := 38; offsetHeight := 20; clientHeight := 18 |}
    {| displayed := false; classList := [css_tooltip_arrow; css_right];
       style_top := unset; style_left := unset; style_right := unset |}
  = {| displayed := true; classList := [css_tooltip_arrow; css_left];
       style_top := px_ 20; style_left := px_ 32; style_right := unset |}.
Proof. vm_compute. reflexivity. Qed.

(** The update step on a line renderer with the [nearest] policy: the
    pointer at (8, 0) on the segment (0,0)-(10,0) moves the tooltip to
    (10, 0) and replaces what its content node held by the three default
    rows. *)
Example update_example :
  let v := sample_view (with_policies show nearest true) in
  let r := _update sample_collaborators (sample_renderer 1 true) (PointGeometry 8 0) v in
  fst r = inr tt
  /\ heap (snd r) !! 0
     = Some {| position := Some (PosCoords (Some 10%float) (Some 0%float));
               content := Some (Container 0);
               attachment := horizontal; show_arrow := true; closable := false;
               visible := true |}
  /\ dom (snd r) !! 0
     = Some [NTable [MkRow "index: " [NText "$index"] None false;
                     MkRow "data (x, y): " [NText "($x, $y)"] None false;
                     MkRow "screen (x, y): " [NText "($sx, $sy)"] None false]].
Proof. vm_compute. repeat split. Qed.

(** With a structured template every hit is rendered into the one element
    of the template's view: after two hits the element is in the
    tooltip's content once, and it has left the content of the other
    tooltip, where it was. *)
Example template_element_moves :
  let v := sample_templated_view in
  let r := _update sample_collaborators (sample_renderer 1 true) (PointGeometry 8 0) v in
  dom v !! 0 = Some [NText "stale"]
  /\ dom v !! 1 = Some [NElement 9]
  /\ fst r = inr tt
  /\ dom (snd r) !! 0 = Some [NElement 9]
  /\ dom (snd r) !! 1 = Some []
  /\ heap (snd r) !! 1 = heap v !! 1.
Proof. vm_compute. repeat split. Qed.

(** A tooltip fresh from the rebuild has no content node: the update
    step renders the hit and then fails to fill the tooltip, which stays
    hidden. *)
Example fresh_tooltip_is_not_filled :
  let v := lazy_initialize (sample_view (with_policies show nearest true)) in
  let r := _update sample_collaborators (sample_renderer 1 true) (PointGeometry 8 0) v in
  _ttmodels v !! 1 = Some 1
  /\ content <$> heap v !! 1 = Some None
  /\ fst r = inl (content_failure sample_collaborators)
  /\ position <$> heap (snd r) !! 1 = Some None.
Proof. vm_compute. repeat split. Qed.

(** ** Comparisons of binary64 numbers *)

Lemma SFcompare_antisym (a b : spec_float) :
  SFcompare a b = Some Lt -> SFcompare b a = Some Gt.
Proof.
  destruct a as [sa | sa | | sa ma ea], b as [sb | sb | | sb mb eb]; simpl;
    try discriminate; try (destruct sa; discriminate);
    try (destruct sb; discriminate);
    try (destruct sa, sb; (discriminate || reflexivity)).
  intros H. f_equal. injection H as H.
  pose proof (Pos.compare_cont_antisym mb ma Eq) as A. simpl in A.
  destruct sa, sb; try discriminate; try reflexivity;
    rewrite (Z.compare_antisym ea eb);
    (destruct (ea ?= eb)%Z eqn:E; simpl in *; try discriminate; try reflexivity);
    rewrite <- A in H;
    destruct (Pos.compare_cont Eq mb ma); simpl in *; congruence.
Qed.

Lemma ltb_asym (a b : float) : PrimFloat.ltb a b = true -> PrimFloat.ltb b a = false.
Proof.
  rewrite !ltb_spec. unfold SFltb.
  destruct (SFcompare (Prim2SF a) (Prim2SF b)) as [[]|] eqn:E; try discriminate.
  intros _. now rewrite (SFcompare_antisym _ _ E).
Qed.

Lemma ltb_irrefl (a : float) : PrimFloat.ltb a a = false.
Proof.
  destruct (PrimFloat.ltb a a) eqn:E; [|reflexivity].
  now rewrite (ltb_asym _ _ E) in E.
Qed.

Lemma eqb_not_ltb (a b : float) : PrimFloat.eqb a b = true -> PrimFloat.ltb a b = false.
Proof.
  rewrite FloatAxioms.eqb_spec, ltb_spec. unfold SFeqb, SFltb.
  now destruct (SFcompare (Prim2SF a) (Prim2SF b)) as [[]|].
Qed.

(** ** The [nearest] line policy *)

Lemma _nearest_line_hit_unfold i geometry sx sy dx dy :
  _nearest_line_hit i geometry sx sy dx dy =
  if Js.lt (pointer_distance geometry sx sy (sample dx dy i))
           (pointer_distance geometry sx sy (sample dx dy (i + 1)))
  then (sample dx dy i, i)
  else (sample dx dy (i + 1), i + 1).
Proof.
  unfold _nearest_line_hit, pointer_distance, sample.
  destruct geometry as [| [] | |]; reflexivity.
Qed.

(** C1: the [nearest] policy measures the pointer against sample [i] and
    sample [i+1] (one axis component for a span query, the distance of the
    two points otherwise) and returns the coordinates and index of the
    closer one; on the segment (0,0)-(10,0) a point-mode pointer at (3,0)
    resolves to (0,0) with index [i], and at (8,0) to (10,0) with index
    [i+1]. *)
Theorem nearest_reports_closer_sample :
  (forall i geometry sx sy dx dy,
      let d1 := pointer_distance geometry sx sy (sample dx dy i) in
      let d2 := pointer_distance geometry sx sy (sample dx dy (i + 1)) in
      (Js.lt d1 d2 = true ->
       _nearest_line_hit i geometry sx sy dx dy = (sample dx dy i, i))
      /\ (Js.lt d2 d1 = true ->
          _nearest_line_hit i geometry sx sy dx dy = (sample dx dy (i + 1), i + 1)))
  /\ (forall i dx dy,
        sample dx dy i = (Some 0%float, Some 0%float) ->
        sample dx dy (i + 1) = (Some 10%float, Some 0%float) ->
        _nearest_line_hit i (PointGeometry 3 0) 3 0 dx dy
          = ((Some 0%float, Some 0%float), i)
        /\ _nearest_line_hit i (PointGeometry 8 0) 8 0 dx dy
          = ((Some 10%float, Some 0%float), i + 1)).
Proof.
  split.
  - intros i geometry sx sy dx dy d1 d2. rewrite _nearest_line_hit_unfold.
    fold d1 d2. split; intros H.
    + now rewrite H.
    + unfold Js.lt in *. now rewrite (ltb_asym _ _ H).
  - intros i dx dy H1 H2. rewrite !_nearest_line_hit_unfold, H1, H2.
    split; vm_compute; reflexivity.
Qed.

Lemma nearest_reports_closer_sample_witness :
  _nearest_line_hit 0 (PointGeometry 3 0) 3 0 [0; 10]%float [0; 0]%float
    = ((Some 0%float, Some 0%float), 0)
  /\ _nearest_line_hit 0 (PointGeometry 8 0) 8 0 [0; 10]%float [0; 0]%float
    = ((Some 10%float, Some 0%float), 1)
  /\ _nearest_line_hit 1 (SpanGeometry DirH 6 50) 6 50 [0; 4; 9]%float [7; 7; 300]%float
    = ((Some 4%float, Some 7%float), 1).
Proof.
  split; [|split].
  - apply (proj2 nearest_reports_closer_sample 0 [0; 10]%float [0; 0]%float);
      reflexivity.
  - apply (proj2 nearest_reports_closer_sample 0 [0; 10]%float [0; 0]%float);
      reflexivity.
  - apply (proj1 (proj1 nearest_reports_closer_sample 1 (SpanGeometry DirH 6 50)
                    6%float 50%float [0; 4; 9]%float [7; 7; 300]%float)).
    vm_compute. reflexivity.
Defined.

(** C10: when the two distances are equal, and in particular when the two
    samples coincide, the [nearest] policy returns the upper sample
    [i+1]. *)
Theorem nearest_tie_reports_upper_sample i geometry sx sy dx dy :
  PrimFloat.eqb (pointer_distance geometry sx sy (sample dx dy i))
                (pointer_distance geometry sx sy (sample dx dy (i + 1))) = true
  \/ sample dx dy i = sample dx dy (i + 1) ->
  _nearest_line_hit i geometry sx sy dx dy = (sample dx dy (i + 1), i + 1).
Proof.
  intros H. rewrite _nearest_line_hit_unfold. unfold Js.lt.
  destruct H as [H | H].
  - now rewrite (eqb_not_ltb _ _ H).
  - now rewrite H, ltb_irrefl.
Qed.

Lemma nearest_tie_reports_upper_sample_witness :
  _nearest_line_hit 0 (PointGeometry 5 0) 5 0 [0; 10]%float [0; 0]%float
    = ((Some 10%float, Some 0%float), 1)
  /\ _nearest_line_hit 0 (SpanGeometry DirV 1 9) 1 9 [2; 2]%float [4; 4]%float
    = ((Some 2%float, Some 4%float), 1).
Proof.
  split.
  - apply (nearest_tie_reports_upper_sample 0 (PointGeometry 5 0) 5%float 0%float
             [0; 10]%float [0; 0]%float).
    left. vm_compute. reflexivity.
  - apply (nearest_tie_reports_upper_sample 0 (SpanGeometry DirV 1 9) 1%float 9%float
             [2; 2]%float [4; 4]%float).
    right. reflexivity.
Defined.

(** ** The [prev] and [next] line policies *)

(** C2: the [prev] and [next] policies never consult the pointer: for any
    two queries on the same segment the whole resolution is the same;
    [prev] anchors at sample [i] with index [i], [next] at sample [i+1]
    with index [i+1], for polylines and for the paths of a multi-line. *)
Theorem prev_next_ignore_pointer :
  (forall xs ys ind, _line_hit xs ys ind = (sample xs ys ind, ind))
  /\ (forall xscale yscale _x _y gsx gsy interp_hit i geometry geometry' sx sy sx' sy',
        let hit p g a b :=
          line_policy_hit p xscale yscale _x _y gsx gsy interp_hit i g a b in
        let anchor r := ((r_tt_sx r, r_tt_sy r), r_index r) in
        anchor (hit prev geometry sx sy) = (sample gsx gsy i, i)
        /\ anchor (hit next geometry sx sy) = (sample gsx gsy (i + 1), i + 1)
        /\ hit prev geometry sx sy = hit prev geometry' sx' sy'
        /\ hit next geometry sx sy = hit next geometry' sx' sy')
  /\ (forall xscale yscale _xs _ys sxs sys interp_hit i j geometry geometry' sx sy sx' sy',
        let hit p g a b :=
          multiline_policy_hit p xscale yscale _xs _ys sxs sys interp_hit i j g a b in
        let anchor r := ((r_tt_sx r, r_tt_sy r), r_index r) in
        (exists r, hit prev geometry sx sy = inr r
                   /\ anchor r = (sample (ragged_row sxs i) (ragged_row sys i) j, j))
        /\ (exists r, hit next geometry sx sy = inr r
                      /\ anchor r
                         = (sample (ragged_row sxs i) (ragged_row sys i) (j + 1), j + 1))
        /\ hit prev geometry sx sy = hit prev geometry' sx' sy'
        /\ hit next geometry sx sy = hit next geometry' sx' sy').
Proof.
  split; [reflexivity|]. split.
  - intros. repeat split.
  - intros. subst hit anchor. simpl. repeat split; eexists; split; reflexivity.
Qed.

(** ** Tooltip placement *)

Lemma elem_of_classList_remove c c' l :
  c' ∈ classList_remove c l <-> c' ∈ l /\ c' <> c.
Proof.
  unfold classList_remove. rewrite !list_elem_of_In, filter_In.
  rewrite negb_true_iff, bool_decide_eq_false. reflexivity.
Qed.

Lemma classList_remove_notin c l : c ∉ l -> classList_remove c l = l.
Proof.
  unfold classList_remove. induction l as [|a l IH]; intros H; [reflexivity|].
  rewrite not_elem_of_cons in H. destruct H as [Hne Hl]. simpl.
  rewrite bool_decide_eq_false_2 by congruence. simpl. now rewrite IH.
Qed.

Lemma classList_remove_app c l1 l2 :
  classList_remove c (l1 ++ l2) = classList_remove c l1 ++ classList_remove c l2.
Proof. unfold classList_remove. apply List.filter_app. Qed.

Lemma elem_of_classList_add c l : c ∈ classList_add c l.
Proof.
  unfold classList_add. case_bool_decide as H; [exact H|].
  apply elem_of_app. right. apply list_elem_of_singleton. reflexivity.
Qed.

Lemma side_class_elem_of s : side_class s ∈ side_classes.
Proof. destruct s; unfold side_classes; simpl; repeat constructor. Qed.

Lemma elem_of_clear_sides c l :
  c ∈ clear_sides l <-> c ∈ l /\ c ∉ side_classes.
Proof.
  unfold clear_sides, side_classes. rewrite !elem_of_classList_remove.
  rewrite !not_elem_of_cons. pose proof (not_elem_of_nil c). tauto.
Qed.

Lemma clear_sides_remove c l :
  c ∈ side_classes -> classList_remove c (clear_sides l) = clear_sides l.
Proof.
  intros Hc. apply classList_remove_notin. rewrite elem_of_clear_sides. tauto.
Qed.

Lemma clear_sides_idemp l : clear_sides (clear_sides l) = clear_sides l.
Proof.
  unfold clear_sides at 1.
  rewrite !clear_sides_remove; [reflexivity|unfold side_classes; repeat constructor..].
Qed.

(** Re-running the class updates on their own result changes nothing. *)
Lemma clear_sides_add s l :
  clear_sides (classList_add (side_class s) (clear_sides l)) = clear_sides l.
Proof.
  assert (Hn : side_class s ∉ clear_sides l).
  { rewrite elem_of_clear_sides. pose proof (side_class_elem_of s). tauto. }
  unfold classList_add. rewrite bool_decide_eq_false_2 by exact Hn.
  unfold clear_sides at 1. rewrite !classList_remove_app.
  fold (clear_sides (clear_sides l)). rewrite clear_sides_idemp.
  destruct s; simpl; apply app_nil_r.
Qed.

Lemma _reposition_classList model bbox d el pos :
  position model = Some pos ->
  visible model = true ->
  classList (_reposition model bbox d el) =
  classList_add
    (side_class (choose_side (attachment model)
                   (fst (resolve_position pos bbox)) (snd (resolve_position pos bbox)) bbox))
    (clear_sides (classList el)).
Proof.
  intros Hp Hv. unfold _reposition. rewrite Hp, Hv.
  destruct (resolve_position pos bbox) as [sx sy]. simpl.
  now destruct (choose_side (attachment model) sx sy bbox).
Qed.

(** C3: the side chosen by the reposition routine.  With a [horizontal]
    attachment it is [right] when the anchor's x is strictly less than the
    box's horizontal center and [left] otherwise; with a [vertical]
    attachment [below] when the anchor's y is strictly less than the
    vertical center and [above] otherwise; a fixed side is used as it is.
    The routine puts that side's class on the element.  On the box
    [0,100] x [0,100]: x = 20 gives [right], x = 80 gives [left], and a
    vertical attachment with y = 90 gives [above]. *)
Theorem reposition_side_selection :
  (forall sx sy bbox,
      (Js.lt (Js.to_number sx) (hcenter bbox) = true ->
       choose_side horizontal sx sy bbox = right)
      /\ (Js.lt (Js.to_number sx) (hcenter bbox) = false ->
          choose_side horizontal sx sy bbox = left)
      /\ (Js.lt (Js.to_number sy) (vcenter bbox) = true ->
          choose_side vertical sx sy bbox = below)
      /\ (Js.lt (Js.to_number sy) (vcenter bbox) = false ->
          choose_side vertical sx sy bbox = above)
      /\ (forall s, choose_side (fixed s) sx sy bbox = s))
  /\ (forall model bbox d el pos,
        position model = Some pos ->
        visible model = true ->
        side_class (choose_side (attachment model)
                      (fst (resolve_position pos bbox))
                      (snd (resolve_position pos bbox)) bbox)
          ∈ classList (_reposition model bbox d el))
  /\ (forall sx sy,
        choose_side horizontal (Some 20%float) sy box100 = right
        /\ choose_side horizontal (Some 80%float) sy box100 = left
        /\ choose_side vertical sx (Some 90%float) box100 = above).
Proof.
  split; [|split].
  - intros sx sy bbox. unfold choose_side.
    repeat split; try (intros H; now rewrite H).
  - intros model bbox d el pos Hp Hv.
    rewrite (_reposition_classList _ _ _ _ _ Hp Hv). apply elem_of_classList_add.
  - intros sx sy. repeat split.
Qed.

Lemma reposition_side_selection_witness :
  choose_side horizontal (Some 50%float) None box100 = left
  /\ choose_side vertical None (Some 10%float) box100 = below
  /\ css_left ∈ classList
       (_reposition (sample_tooltip (Some (PosCoords (Some 20%float) (Some 30%float))) horizontal)
          box100
          {| offsetWidth := 40; clientWidth := 38; offsetHeight := 20; clientHeight := 18 |}
          {| displayed := false; classList := [css_tooltip_arrow; css_right];
             style_top := unset; style_left := unset; style_right := unset |}).
Proof.
  split; [|split].
  - apply (proj1 (proj2 (proj1 reposition_side_selection (Some 50%float) None box100))).
    reflexivity.
  - apply (proj1 (proj2 (proj2 (proj1 reposition_side_selection None (Some 10%float) box100)))).
    reflexivity.
  - apply (proj1 (proj2 reposition_side_selection)
             (sample_tooltip (Some (PosCoords (Some 20%float) (Some 30%float))) horizontal)
             box100 _ _ (PosCoords (Some 20%float) (Some 30%float)));
      reflexivity.
Defined.

(** C9: the reposition routine is idempotent: with the model state, the
    target's bounding box and the element's dimensions unchanged, running
    it on its own result gives that result again (display, classes, top,
    left and right). *)
Theorem reposition_is_idempotent model bbox d el :
  _reposition model bbox d (_reposition model bbox d el) = _reposition model bbox d el.
Proof.
  unfold _reposition.
  destruct (position model) as [pos|]; [|reflexivity].
  destruct (visible model); [|reflexivity].
  destruct (resolve_position pos bbox) as [sx sy].
  fold (clear_sides (classList el)).
  destruct (choose_side (attachment model) sx sy bbox) eqn:E; simpl; f_equal;
    match goal with
    | |- classList_add ?c ?a = classList_add ?c ?b =>
        change a with (clear_sides (classList_add c (clear_sides (classList el))))
    end.
  - now rewrite (clear_sides_add left).
  - now rewrite (clear_sides_add right).
  - now rewrite (clear_sides_add above).
  - now rewrite (clear_sides_add below).
Qed.

(** ** The update step *)

(** C8: with the [ignore] muted policy, the update step of a muted
    renderer returns at once: no exception, and the whole view -- the
    tooltip's position and content included -- is as it was; the tooltip
    is not cleared. *)
Theorem muted_renderer_is_ignored ext renderer geometry v :
  HoverTool.muted_policy (model v) = ignore ->
  muted renderer = true ->
  _update ext renderer geometry v = (inr tt, v).
Proof.
  intros Hp Hm. unfold _update, mbind, M_bind, get_view. simpl.
  destruct (HoverTool.active (model v)); simpl; [|reflexivity].
  destruct (pointer_of geometry) as [[sx sy]|]; [|reflexivity].
  rewrite Hp, Hm. reflexivity.
Qed.

Lemma muted_renderer_is_ignored_witness :
  let v := sample_view (with_policies ignore nearest true) in
  _update sample_collaborators (sample_renderer 1 true) (PointGeometry 3 0) v = (inr tt, v)
  /\ position <$> heap v !! 0 = Some (Some (PosCoords (Some 5%float) (Some 5%float))).
Proof.
  split.
  - apply muted_renderer_is_ignored; reflexivity.
  - reflexivity.
Defined.

(** ** Rendering the two-column template *)

Lemma word_char_not_dollar c : Str.is_word_char c = true -> Ascii.eqb "$" c = false.
Proof.
  destruct c as [[] [] [] [] [] [] [] []]; vm_compute; congruence.
Qed.

Lemma is_word_cons c w : is_word (String c w) -> Str.is_word_char c = true /\ is_word w.
Proof.
  unfold is_word. simpl. destruct (Str.is_word_char c); [|discriminate].
  intros H. split; [reflexivity|]. congruence.
Qed.

Lemma swatch_directive_chars w :
  "$swatch:" +:+ w
  = String "$" (String "s" (String "w" (String "a" (String "t" (String "c"
      (String "h" (String ":" w))))))).
Proof. reflexivity. Qed.

Lemma match_swatch_directive w :
  is_word w -> Str.match_swatch ("$swatch:" +:+ w) = Some w.
Proof.
  intros H. unfold Str.match_swatch, Str.anchored_swatch.
  rewrite swatch_directive_chars.
  cbn [Str.search Str.strip_prefix Ascii.eqb Bool.eqb]. now rewrite H.
Qed.

Lemma search_color_word w : is_word w -> Str.search Str.anchored_color w = None.
Proof.
  induction w as [|c w IH]; intros H; [reflexivity|].
  apply is_word_cons in H as [Hc Hw].
  cbn [Str.search]. unfold Str.anchored_color at 1. cbn [Str.strip_prefix].
  rewrite (word_char_not_dollar _ Hc). now apply IH.
Qed.

Lemma match_color_swatch_directive w :
  is_word w -> Str.match_color ("$swatch:" +:+ w) = None.
Proof.
  intros H. unfold Str.match_color. rewrite swatch_directive_chars.
  cbn [Str.search]. unfold Str.anchored_color at 1 2 3 4 5 6 7 8.
  cbn [Str.strip_prefix Ascii.eqb Bool.eqb].
  now apply search_color_word.
Qed.

Lemma row_local_ret j el : j < length el -> row_local j el (inr el).
Proof.
  intros Hj. destruct (lookup_lt_is_Some_2 el j Hj) as [r Hr].
  exists r. now rewrite (list_insert_id _ _ _ Hr).
Qed.

Lemma row_local_with_row j f el : j < length el -> row_local j el (with_row j f el).
Proof.
  intros Hj. destruct (lookup_lt_is_Some_2 el j Hj) as [r Hr].
  unfold with_row. rewrite Hr. now eexists.
Qed.

Lemma row_local_then j el res k :
  row_local j el res ->
  (forall el1, length el1 = length el -> row_local j el1 (k el1)) ->
  row_local j el (match res with inl e => inl e | inr x => k x end).
Proof.
  intros [r1 ->] Hk.
  destruct (Hk (<[j := r1]> el) (length_insert _ _ _)) as [r2 ->].
  exists r2. now rewrite list_insert_insert_eq.
Qed.

Lemma append_empty_r (s : string) : s +:+ "" = s.
Proof.
  induction s as [|c s IH]; [reflexivity|].
  change (String c (s +:+ "") = String c s). now rewrite IH.
Qed.

Lemma value_text_set_textContent label s bg shown :
  value_text (MkRow label (set_textContent s) bg shown) = s.
Proof.
  destruct s; [reflexivity|]. unfold value_text, set_textContent.
  cbn [foldr textContent]. apply append_empty_r.
Qed.

Section RenderingFacts.
Variable ext : Collaborators.
Variable fmt : gmap string Formatter.
Variable ds : ColumnarDataSource.
Variable vars : TooltipVars.

Lemma swatch_block_local j colname el :
  j < length el -> row_local j el (swatch_block ext ds (index vars) j colname el).
Proof.
  intros Hj. unfold swatch_block, set_value_text, show_swatch.
  destruct (get_column ds colname) as [column|]; [|now apply row_local_with_row].
  destruct (color_at column (index vars));
    [now apply row_local_with_row|now apply row_local_ret].
Qed.

Lemma color_block_local j opts colname el :
  j < length el -> row_local j el (color_block ext ds (index vars) j opts colname el).
Proof.
  intros Hj. unfold color_block, set_value_text, show_swatch. cbv zeta.
  destruct (get_column ds colname) as [column|]; [|now apply row_local_with_row].
  destruct (color_at column (index vars)); [|now apply row_local_with_row].
  apply row_local_then; [now apply row_local_with_row|].
  intros el1 Hl. destruct (Str.includes "swatch" (default "" opts));
    [apply row_local_with_row|apply row_local_ret]; lia.
Qed.

Lemma render_row_local j value el :
  j < length el -> row_local j el (render_row ext fmt ds vars j value el).
Proof.
  intros Hj. unfold render_row. cbv zeta.
  assert (Hcolor : forall el1, length el1 = length el ->
    row_local j el1
      match Str.match_color value with
      | Some (opts, colname) => color_block ext ds (index vars) j opts colname el1
      | None => inr el1
      end).
  { intros el1 Hl. destruct (Str.match_color value) as [[opts colname]|];
      [apply color_block_local|apply row_local_ret]; lia. }
  destruct (Str.match_swatch value) as [colname|].
  - apply row_local_then; [now apply swatch_block_local|exact Hcolor].
  - destruct (Str.match_color value) as [[opts colname]|] eqn:Hc.
    + apply (row_local_then j el (inr el)); [now apply row_local_ret|].
      intros el1 Hl. apply color_block_local. lia.
    + unfold set_value_text, append_value_children.
      destruct (replace_placeholders ext _ ds (index vars) fmt vars) as [s|[|n l]];
        [now apply row_local_with_row|now apply row_local_ret
        |now apply row_local_with_row].
Qed.

Lemma render_rows_local tooltips : forall j el,
  j + length tooltips <= length el ->
  exists el', render_rows ext fmt ds vars j tooltips el = inr el'
              /\ length el' = length el
              /\ forall k, k < j \/ j + length tooltips <= k -> el' !! k = el !! k.
Proof.
  induction tooltips as [|[label value] rest IH]; intros j el Hlen.
  - exists el. repeat split.
  - simpl in Hlen. simpl.
    destruct (render_row_local j value el ltac:(lia)) as [r' ->].
    destruct (IH (S j) (<[j := r']> el)) as (el' & -> & Hl & Hk).
    { rewrite length_insert. lia. }
    exists el'. split; [reflexivity|]. rewrite Hl, length_insert. split; [reflexivity|].
    intros k Hk'. rewrite Hk by lia. apply list_lookup_insert_ne. lia.
Qed.

Lemma render_rows_app l1 l2 : forall j el,
  render_rows ext fmt ds vars j (l1 ++ l2) el =
  match render_rows ext fmt ds vars j l1 el with
  | inl e => inl e
  | inr el1 => render_rows ext fmt ds vars (j + length l1) l2 el1
  end.
Proof.
  induction l1 as [|[label value] l1 IH]; intros j el; simpl.
  - now rewrite Nat.add_0_r.
  - destruct (render_row ext fmt ds vars j value el); [reflexivity|].
    rewrite IH. now replace (S j + length l1) with (j + S (length l1)) by lia.
Qed.

(** Rendering from the template compiled for the same rows never
    throws, and row [j] of the result is what the turn for row [j] makes
    of the template's row [j]. *)
Lemma _render_template_row tooltips j label value :
  tooltips !! j = Some (label, value) ->
  exists el mid r0 r,
    _render_template ext fmt (_create_template tooltips) tooltips ds vars = inr el
    /\ mid !! j = Some r0
    /\ _create_template tooltips !! j = Some r0
    /\ render_row ext fmt ds vars j value mid = inr (<[j := r]> mid)
    /\ el !! j = Some r.
Proof.
  intros Hj. unfold _render_template.
  pose proof (lookup_lt_Some _ _ _ Hj) as Hlt.
  assert (Hlen : length (_create_template tooltips) = length tooltips)
    by (unfold _create_template; apply length_map).
  assert (Hsplit : forall T,
    render_rows ext fmt ds vars 0 tooltips T =
    render_rows ext fmt ds vars 0
      (take j tooltips ++ (label, value) :: drop (S j) tooltips) T)
    by (intros T; now rewrite take_drop_middle).
  rewrite Hsplit, render_rows_app.
  assert (Htake : length (take j tooltips) = j) by (rewrite length_take; lia).
  destruct (render_rows_local (take j tooltips) 0 (_create_template tooltips))
    as (mid & -> & Hl1 & Hk1); [lia|].
  rewrite Htake. simpl.
  destruct (render_row_local j value mid ltac:(lia)) as [r Hr]. rewrite Hr.
  destruct (render_rows_local (drop (S j) tooltips) (S j) (<[j := r]> mid))
    as (el & -> & Hl2 & Hk2).
  { rewrite length_insert, length_drop. lia. }
  destruct (lookup_lt_is_Some_2 (_create_template tooltips) j ltac:(lia)) as [r0 Hr0].
  exists el, mid, r0, r. repeat split; try assumption.
  - rewrite Hk1 by lia. exact Hr0.
  - rewrite Hk2 by lia. apply list_lookup_insert_eq. lia.
Qed.
End RenderingFacts.

Lemma list_insert_inj {A} (l : list A) j (a b : A) :
  j < length l -> <[j := a]> l = <[j := b]> l -> a = b.
Proof.
  intros Hj H. apply (f_equal (fun l => l !! j)) in H.
  rewrite !list_lookup_insert_eq in H by exact Hj. congruence.
Qed.

Lemma list_insert_fixed {A} (l : list A) j (a b : A) :
  l !! j = Some a -> l = <[j := b]> l -> a = b.
Proof.
  intros Hl H. rewrite <- (list_insert_id _ _ _ Hl) in H at 1.
  apply list_insert_inj in H; [exact H|]. eapply lookup_lt_Some, Hl.
Qed.

(** C5 (amended): rendering a row whose value expression is a swatch
    directive [$swatch:name] from the template compiled for the same rows
    never throws.  For an absent column the value text is the column name
    followed by [" unknown"] and the swatch stays hidden.  For a column
    that is present the value text stays empty, and when the column holds
    a color at the definite index the swatch is displayed with the
    library's CSS text of that color as its background. *)
Theorem swatch_row_rendering ext fmt tooltips ds vars j label colname :
  is_word colname ->
  tooltips !! j = Some (label, "$swatch:" +:+ colname) ->
  exists el r,
    _render_template ext fmt (_create_template tooltips) tooltips ds vars = inr el
    /\ el !! j = Some r
    /\ match get_column ds colname with
       | None => value_text r = colname +:+ " unknown" /\ row_swatch r = (None, false)
       | Some column =>
           value_text r = ""
           /\ match color_at column (index vars) with
              | Some color => row_swatch r = (Some (color2css ext color), true)
              | None => row_swatch r = (None, false)
              end
       end.
Proof.
  intros Hw Hj.
  destruct (_render_template_row ext fmt ds vars tooltips j label _ Hj)
    as (el & mid & r0 & r & Hel & Hmid & Hr0 & Hrow & Hr).
  exists el, r. split; [exact Hel|]. split; [exact Hr|].
  pose proof (lookup_lt_Some _ _ _ Hmid) as Hlt.
  unfold _create_template in Hr0. rewrite list_lookup_fmap, Hj in Hr0.
  injection Hr0 as <-.
  unfold render_row in Hrow. cbv zeta in Hrow.
  rewrite (match_swatch_directive _ Hw), (match_color_swatch_directive _ Hw) in Hrow.
  unfold swatch_block, set_value_text, show_swatch, with_row in Hrow.
  destruct (get_column ds colname) as [column|].
  - destruct (color_at column (index vars)) as [color|].
    + rewrite Hmid in Hrow. injection Hrow as Hrow.
      apply list_insert_inj in Hrow; [subst r; now split|exact Hlt].
    + injection Hrow as Hrow.
      apply (list_insert_fixed _ _ _ _ Hmid) in Hrow. subst r. now split.
  - rewrite Hmid in Hrow. injection Hrow as Hrow.
    apply list_insert_inj in Hrow; [subst r|exact Hlt].
    split; [apply value_text_set_textContent|reflexivity].
Qed.

Lemma swatch_row_rendering_witness :
  let tooltips := [("value", "$y"); ("fill", "$swatch:fill"); ("line", "$swatch:line_color")] in
  exists el r1 r2,
    _render_template sample_collaborators ∅ (_create_template tooltips) tooltips
      sample_source (sample_vars (Some 0)) = inr el
    /\ el !! 1 = Some r1 /\ el !! 2 = Some r2
    /\ value_text r1 = "" /\ row_swatch r1 = (Some "rgba(255, 0, 0, 1)", true)
    /\ value_text r2 = "line_color unknown" /\ row_swatch r2 = (None, false).
Proof.
  intros tooltips.
  destruct (swatch_row_rendering sample_collaborators ∅ tooltips sample_source
              (sample_vars (Some 0)) 1 "fill" "fill" eq_refl eq_refl)
    as (el & r1 & Hel & H1 & Hv1).
  destruct (swatch_row_rendering sample_collaborators ∅ tooltips sample_source
              (sample_vars (Some 0)) 2 "line" "line_color" eq_refl eq_refl)
    as (el' & r2 & Hel' & H2 & Hv2).
  rewrite Hel in Hel'. injection Hel' as <-.
  exists el, r1, r2.
  change (get_column sample_source "fill") with (Some [CellNumber 4278190335; CellNull]) in Hv1.
  change (get_column sample_source "line_color") with (@None (list Cell)) in Hv2.
  simpl in Hv1. destruct Hv1 as [Ha1 Hb1], Hv2 as [Ha2 Hb2].
  repeat split; assumption.
Defined.

(** C5 as stated fails: for a [$swatch:] row on a column of numeric
    colors the value text is empty, not the CSS color text. *)
Lemma swatch_value_is_not_css_text :
  let tooltips := [("fill", "$swatch:fill")] in
  exists el r,
    _render_template sample_collaborators ∅ (_create_template tooltips) tooltips
      sample_source (sample_vars (Some 0)) = inr el
    /\ el !! 0 = Some r
    /\ get_column sample_source "fill" = Some [CellNumber 4278190335; CellNull]
    /\ value_text r = ""
    /\ value_text r <> color2css sample_collaborators (CellNumber 4278190335).
Proof.
  vm_compute. do 2 eexists. repeat split; try reflexivity. discriminate.
Qed.

(** ** Rebuilding the renderer-to-tooltip map *)

Lemma register_renderer_model v r : model (register_renderer v r) = model v.
Proof. now destruct r. Qed.

Lemma register_renderer_next_ref v r : next_ref (register_renderer v r) = S (next_ref v).
Proof. now destruct r. Qed.

Lemma register_renderer_heap v r :
  heap (register_renderer v r) = <[next_ref v := new_Tooltip (model v)]> (heap v).
Proof. now destruct r. Qed.

Lemma register_renderer_ttmodels v r :
  _ttmodels (register_renderer v r) =
  foldl (fun m g => <[renderer_ref g := next_ref v]> m) (_ttmodels v) (glyph_renderers [r]).
Proof. now destruct r. Qed.

Lemma register_renderer_other v r k :
  k ∉ underlying_refs [r] ->
  _ttmodels (register_renderer v r) !! k = _ttmodels v !! k.
Proof.
  unfold underlying_refs. destruct r as [g | ref n e | ref]; simpl; intros Hk.
  - rewrite lookup_insert_ne; [reflexivity|]. set_solver.
  - rewrite !lookup_insert_ne; [reflexivity|set_solver..].
  - reflexivity.
Qed.

Lemma register_renderer_is_Some v r k :
  is_Some (_ttmodels v !! k) -> is_Some (_ttmodels (register_renderer v r) !! k).
Proof.
  intros H. destruct r as [g | ref n e | ref]; simpl; [| |exact H];
    rewrite ?lookup_insert_is_Some'; tauto.
Qed.

Lemma register_all_model rs : forall v, model (foldl register_renderer v rs) = model v.
Proof.
  induction rs as [|r rs IH]; intros v; [reflexivity|].
  simpl. now rewrite IH, register_renderer_model.
Qed.

Lemma register_all_is_Some rs : forall v k,
  is_Some (_ttmodels v !! k) -> is_Some (_ttmodels (foldl register_renderer v rs) !! k).
Proof.
  induction rs as [|r rs IH]; intros v k H; [exact H|].
  simpl. apply IH. now apply register_renderer_is_Some.
Qed.

Lemma register_all_other rs : forall v k,
  k ∉ underlying_refs rs ->
  _ttmodels (foldl register_renderer v rs) !! k = _ttmodels v !! k.
Proof.
  induction rs as [|r rs IH]; intros v k Hk; [reflexivity|].
  simpl. unfold underlying_refs in *. simpl in Hk. rewrite map_app in Hk.
  rewrite not_elem_of_app in Hk. destruct Hk as [Hr Hrs].
  rewrite IH by exact Hrs. apply register_renderer_other.
  unfold underlying_refs. simpl. now rewrite app_nil_r.
Qed.

Lemma register_all_heap rs : forall v t,
  t < next_ref v -> heap (foldl register_renderer v rs) !! t = heap v !! t.
Proof.
  induction rs as [|r rs IH]; intros v t Ht; [reflexivity|].
  simpl. rewrite IH by (rewrite register_renderer_next_ref; lia).
  rewrite register_renderer_heap. apply lookup_insert_ne. lia.
Qed.

Lemma register_all_keys rs : forall v g,
  g ∈ glyph_renderers rs ->
  is_Some (_ttmodels (foldl register_renderer v rs) !! renderer_ref g).
Proof.
  induction rs as [|r rs IH]; intros v g Hg; [inversion Hg|].
  simpl in Hg. apply elem_of_app in Hg as [Hg | Hg]; simpl.
  - apply register_all_is_Some.
    destruct r as [g' | ref n e | ref]; simpl in *.
    + apply list_elem_of_singleton in Hg as ->. rewrite lookup_insert_eq. eauto.
    + apply elem_of_cons in Hg as [-> | Hg].
      * rewrite lookup_insert_is_Some'. right. rewrite lookup_insert_eq. eauto.
      * apply list_elem_of_singleton in Hg as ->. rewrite lookup_insert_eq. eauto.
    + inversion Hg.
  - now apply IH.
Qed.

Lemma register_all_shared rs : forall v ref n e,
  NoDup (underlying_refs rs) ->
  GraphR ref n e ∈ rs ->
  exists t,
    _ttmodels (foldl register_renderer v rs) !! renderer_ref n = Some t
    /\ _ttmodels (foldl register_renderer v rs) !! renderer_ref e = Some t
    /\ heap (foldl register_renderer v rs) !! t = Some (new_Tooltip (model v)).
Proof.
  induction rs as [|r rs IH]; intros v ref n e Hnd Hin; [inversion Hin|].
  unfold underlying_refs in Hnd. simpl in Hnd. rewrite map_app in Hnd.
  apply NoDup_app in Hnd as (Hr & Hdisj & Hrs).
  apply elem_of_cons in Hin as [<- | Hin]; simpl.
  - exists (next_ref v). simpl in Hdisj.
    rewrite !register_all_other by (apply Hdisj; set_solver).
    rewrite register_all_heap by (simpl; lia). simpl.
    rewrite lookup_insert_eq. rewrite lookup_insert_eq.
    split; [|done].
    rewrite lookup_insert_ne; [apply lookup_insert_eq|].
    simpl in Hr. apply NoDup_cons in Hr as [Hne _]. set_solver.
  - destruct (IH (register_renderer v r) ref n e Hrs Hin) as (t & H1 & H2 & H3).
    exists t. now rewrite register_renderer_model in H3.
Qed.

(** C6 (amended): after a rebuild with a tooltip specification, each graph
    renderer of the computed set has an entry for its node renderer and
    one for its edge renderer; when the glyph renderers behind the set are
    pairwise distinct the two entries hold one and the same tooltip, the
    one created for the graph renderer. *)
Theorem rebuild_graph_renderer_shares_tooltip v ref n e :
  HoverTool.tooltips (model v) <> None ->
  GraphR ref n e ∈ computed_renderers v ->
  let v' := _update_ttmodels v in
  is_Some (_ttmodels v' !! renderer_ref n)
  /\ is_Some (_ttmodels v' !! renderer_ref e)
  /\ (NoDup (underlying_refs (computed_renderers v)) ->
      exists t,
        _ttmodels v' !! renderer_ref n = Some t
        /\ _ttmodels v' !! renderer_ref e = Some t
        /\ heap v' !! t = Some (new_Tooltip (model v))).
Proof.
  intros Hspec Hin. unfold _update_ttmodels. cbn [model set_ttmodels].
  destruct (HoverTool.tooltips (model v)) as [spec|] eqn:Hs; [|congruence].
  change (computed_renderers (set_ttmodels ∅ v)) with (computed_renderers v).
  cbn [_ttmodels heap set_connected].
  assert (Hn : n ∈ glyph_renderers (computed_renderers v)).
  { unfold glyph_renderers. apply list_elem_of_In, in_flat_map.
    exists (GraphR ref n e). split; [now apply list_elem_of_In|]. simpl. auto. }
  assert (He : e ∈ glyph_renderers (computed_renderers v)).
  { unfold glyph_renderers. apply list_elem_of_In, in_flat_map.
    exists (GraphR ref n e). split; [now apply list_elem_of_In|]. simpl. auto. }
  split; [now apply register_all_keys|]. split; [now apply register_all_keys|].
  intros Hnd. exact (register_all_shared _ (set_ttmodels ∅ v) ref n e Hnd Hin).
Qed.

Lemma rebuild_graph_renderer_shares_tooltip_witness :
  let v' := _update_ttmodels sample_graph_view in
  _ttmodels v' !! 1 = Some 1 /\ _ttmodels v' !! 2 = Some 1
  /\ _ttmodels v' !! 3 = Some 0
  /\ exists t, _ttmodels v' !! 1 = Some t /\ _ttmodels v' !! 2 = Some t
               /\ heap v' !! t = Some (new_Tooltip HoverTool.defaults).
Proof.
  repeat split.
  apply (proj2 (proj2 (rebuild_graph_renderer_shares_tooltip sample_graph_view 10
                         (sample_renderer 1 false) (sample_renderer 2 false)
                         ltac:(discriminate)
                         ltac:(apply list_elem_of_further, list_elem_of_here)))).
  apply (bool_decide_unpack _). vm_compute. exact I.
Defined.

(** C6 as stated fails: the node and the edge renderer of a graph
    renderer do not get a tooltip each. *)
Lemma graph_renderers_do_not_get_own_tooltips :
  let v' := _update_ttmodels sample_graph_view in
  GraphR 10 (sample_renderer 1 false) (sample_renderer 2 false)
    ∈ computed_renderers sample_graph_view
  /\ ~ (exists t1 t2, _ttmodels v' !! 1 = Some t1 /\ _ttmodels v' !! 2 = Some t2
                      /\ t1 <> t2).
Proof.
  split.
  - apply list_elem_of_further, list_elem_of_here.
  - intros (t1 & t2 & H1 & H2 & Hne). vm_compute in H1, H2. congruence.
Qed.

(** ** Clearing and the callback *)

Lemma foldl_preserves {A B C : Type} (f : A -> B -> A) (proj : A -> C) :
  (forall a b, proj (f a b) = proj a) ->
  forall l a, proj (foldl f a l) = proj a.
Proof.
  intros Hf l. induction l as [|b l IH]; intros a; [reflexivity|].
  simpl. now rewrite IH.
Qed.

Lemma _emit_callback_frame geometry v :
  _ttmodels (_emit_callback geometry v) = _ttmodels v
  /\ heap (_emit_callback geometry v) = heap v
  /\ inspectors (_emit_callback geometry v) = inspectors v
  /\ dom (_emit_callback geometry v) = dom v.
Proof.
  unfold _emit_callback. destruct (HoverTool.callback (model v)); [|done].
  repeat split;
    apply (foldl_preserves _ _);
    intros a [g| |]; try reflexivity;
    destruct (renderer_view a (renderer_ref g)); try reflexivity;
    now destruct (geometry_pointer geometry).
Qed.

Lemma Tooltip_clear_idemp t : Tooltip_clear (Tooltip_clear t) = Tooltip_clear t.
Proof. reflexivity. Qed.

Lemma clear_entries (l : list (nat * nat)) : forall (h : gmap nat Tooltip) t,
  foldl (fun h entry => alter Tooltip_clear (snd entry) h) h l !! t =
  if decide (t ∈ map snd l) then Tooltip_clear <$> h !! t else h !! t.
Proof.
  induction l as [|e l IH]; intros h t; cbn [foldl map].
  - rewrite decide_False; [reflexivity|apply not_elem_of_nil].
  - rewrite IH, lookup_alter.
    destruct (decide (t ∈ map snd l)) as [Hin|Hin];
      destruct (decide (t ∈ snd e :: map snd l)) as [Hin'|Hin'];
      destruct (decide (snd e = t)) as [Heq|Hne];
      try (exfalso; apply Hin'; rewrite elem_of_cons; auto; fail);
      try (apply elem_of_cons in Hin' as [?|?]; congruence);
      try reflexivity.
    all: subst; now destruct (h !! snd e).
Qed.

Lemma clear_all_heap v r t :
  _ttmodels v !! r = Some t ->
  heap (clear_all v) !! t = Tooltip_clear <$> heap v !! t.
Proof.
  intros H. unfold clear_all. simpl. rewrite clear_entries.
  rewrite decide_True; [reflexivity|].
  apply list_elem_of_fmap. exists (r, t). split; [reflexivity|].
  now apply elem_of_map_to_list.
Qed.

(** ** Exceptions of the update step *)

Lemma triple_ret {A} (I : HoverToolView -> Prop) (a : A) Q P :
  (forall v, I v -> Q a v) -> triple I (mret a) Q P.
Proof. intros H v Hv. now apply H. Qed.

Lemma triple_bind {A B} I (c : M A) (k : A -> M B) Q R P :
  triple I c Q P -> (forall a, triple (Q a) (k a) R P) -> triple I (c ≫= k) R P.
Proof.
  intros Hc Hk v Hv. unfold mbind, M_bind. specialize (Hc v Hv).
  destruct (c v) as [[e|a] v']; [exact Hc|]. now apply Hk.
Qed.

Lemma triple_weaken {A} (I I' : HoverToolView -> Prop) (c : M A)
    (Q Q' : A -> HoverToolView -> Prop) (P P' : Exception -> Prop) :
  triple I' c Q' P' ->
  (forall v, I v -> I' v) -> (forall a v, Q' a v -> Q a v) -> (forall e, P' e -> P e) ->
  triple I c Q P.
Proof.
  intros Hc HI HQ HP v Hv. specialize (Hc v (HI v Hv)).
  destruct (c v) as [[e|a] v']; auto.
Qed.

Lemma triple_for_each {A B} (I : HoverToolView -> Prop) (l : list A)
    (body : A -> M (list B)) P :
  (forall a, a ∈ l -> triple I (body a) (fun _ => I) P) ->
  triple I (for_each l body) (fun _ => I) P.
Proof.
  induction l as [|a l IH]; intros Hbody.
  - now apply triple_ret.
  - cbn [for_each]. eapply triple_bind; [apply Hbody, list_elem_of_here|].
    intros pushed. eapply triple_bind.
    + apply IH. intros a' Ha'. apply Hbody. now apply list_elem_of_further.
    + intros rest. now apply triple_ret.
Qed.

Lemma triple_lift {A} (I : HoverToolView -> Prop) (r : Exception + A) Q P :
  match r with inr a => forall v, I v -> Q a v | inl e => P e end ->
  triple I (lift r) Q P.
Proof. intros H v Hv. unfold lift. destruct r; auto. Qed.

Lemma triple_modify (I : HoverToolView -> Prop) f Q P :
  (forall v, I v -> Q tt (f v)) -> triple I (modify f) Q P.
Proof. intros H v Hv. now apply H. Qed.

Lemma triple_get {A} (I : HoverToolView -> Prop) (k : HoverToolView -> M A) Q P :
  (forall v0, I v0 -> triple (fun v => v = v0) (k v0) Q P) ->
  triple I (get_view ≫= k) Q P.
Proof.
  intros H v Hv. unfold mbind, M_bind, get_view. now apply (H v Hv v).
Qed.

Section UpdateFacts.
Variable ext : Collaborators.

Lemma with_row_throws j f el e : with_row j f el = inl e -> is_TypeError e.
Proof.
  unfold with_row. destruct (el !! j); [discriminate|]. intros [= <-]. now eexists.
Qed.

Lemma swatch_block_throws ds i j colname el e :
  swatch_block ext ds i j colname el = inl e -> is_TypeError e.
Proof.
  unfold swatch_block, set_value_text, show_swatch.
  destruct (get_column ds colname) as [column|]; [|apply with_row_throws].
  destruct (color_at column i); [apply with_row_throws|discriminate].
Qed.

Lemma color_block_throws ds i j opts colname el e :
  color_block ext ds i j opts colname el = inl e -> is_TypeError e.
Proof.
  unfold color_block, set_value_text, show_swatch. cbv zeta.
  destruct (get_column ds colname) as [column|]; [|apply with_row_throws].
  destruct (color_at column i); [|apply with_row_throws].
  destruct (with_row j _ el) eqn:E.
  - intros [= <-]. eapply with_row_throws, E.
  - destruct (Str.includes "swatch" (default "" opts));
      [apply with_row_throws|discriminate].
Qed.

Lemma render_row_throws fmt ds vars j value el e :
  render_row ext fmt ds vars j value el = inl e -> is_TypeError e.
Proof.
  unfold render_row. cbv zeta.
  destruct (Str.match_swatch value) as [colname|].
  - destruct (swatch_block ext ds (index vars) j colname el) eqn:E.
    + intros [= <-]. eapply swatch_block_throws, E.
    + destruct (Str.match_color value) as [[opts colname']|];
        [apply color_block_throws|discriminate].
  - destruct (Str.match_color value) as [[opts colname']|];
      [apply color_block_throws|].
    unfold set_value_text, append_value_children.
    destruct (replace_placeholders ext _ ds (index vars) fmt vars) as [s|[|n l]];
      [apply with_row_throws|discriminate|apply with_row_throws].
Qed.

Lemma render_rows_throws fmt ds vars tooltips : forall j el e,
  render_rows ext fmt ds vars j tooltips el = inl e -> is_TypeError e.
Proof.
  induction tooltips as [|[label value] rest IH]; intros j el e; [discriminate|].
  simpl. destruct (render_row ext fmt ds vars j value el) eqn:E.
  - intros [= <-]. eapply render_row_throws, E.
  - apply IH.
Qed.

(** Rendering a hit throws type errors only; it writes the template
    cache and the template view, nothing else. *)
Lemma _render_tooltips_throws (J : HoverToolView -> Prop) ds vars :
  (forall v t, J v -> J (set_template_el t v)) ->
  (forall v t, J v -> J (set_template_view t v)) ->
  triple J (_render_tooltips ext ds vars) (fun _ => J) is_TypeError.
Proof.
  intros Hel Hview. unfold _render_tooltips. apply triple_get. intros v0 Hv0.
  destruct (HoverTool.tooltips (model v0)) as [[t|s|rows|f]|];
    try (apply triple_ret; intros v Hv; cbv beta in Hv; subst v; exact Hv0).
  - destruct (_template_view v0) as [tv|].
    + eapply triple_bind with (Q := fun _ => J).
      * apply triple_modify. intros v Hv. cbv beta in Hv; subst v. now apply Hview.
      * intros u. now apply triple_ret.
    + intros v _. now eexists.
  - eapply triple_bind.
    + apply triple_modify with (Q := fun _ => J).
      intros v Hv. cbv beta in Hv; subst v. now apply Hel.
    + intros u. eapply triple_bind.
      * apply triple_lift with (Q := fun _ => J).
        destruct (_render_template ext _ _ rows ds vars) eqn:E; [|auto].
        eapply render_rows_throws, E.
      * intros el. now apply triple_ret.
Qed.

(** With a coherent cache, and the template view built when it is needed,
    rendering a hit does not throw. *)
Lemma _render_tooltips_returns m (J : HoverToolView -> Prop) ds vars :
  (forall v t, J v -> J (set_template_el t v)) ->
  (forall v t, J v -> J (set_template_view t v)) ->
  triple (fun v => render_ready m v /\ J v) (_render_tooltips ext ds vars)
    (fun _ v => render_ready m v /\ J v) (fun _ => False).
Proof.
  intros Hel Hview. unfold _render_tooltips. apply triple_get.
  intros v0 [[[Hm Hc] Hb] HJ]. unfold template_view_built in Hb. rewrite Hm in Hb |- *.
  destruct (HoverTool.tooltips m) as [[t|s|rows|f]|] eqn:Ht;
    try (apply triple_ret; intros v Hv; cbv beta in Hv; subst v;
         split; [|exact HJ]; split;
         [split; [exact Hm|now rewrite Ht]
         |unfold template_view_built; now rewrite Hm, Ht]).
  - destruct Hb as [tv Htv]. rewrite Htv.
    eapply triple_bind
      with (Q := fun _ v => render_ready m v /\ J v).
    + apply triple_modify. intros v Hv. cbv beta in Hv; subst v.
      split; [|now apply Hview]. split.
      * split; [exact Hm|now rewrite Ht].
      * unfold template_view_built. cbn. rewrite Hm, Ht. now eexists.
    + intros u. now apply triple_ret.
  - assert (Htpl : default (_create_template rows) (_template_el v0) = _create_template rows)
      by (destruct Hc as [-> | ->]; reflexivity).
    rewrite Htpl.
    eapply triple_bind.
    + apply triple_modify with (Q := fun _ v => render_ready m v /\ J v).
      intros v Hv. cbv beta in Hv; subst v. split; [|now apply Hel]. split.
      * split; [exact Hm|]. rewrite Ht. now right.
      * unfold template_view_built. cbn. now rewrite Hm, Ht.
    + intros u. eapply triple_bind.
      * apply triple_lift with (Q := fun _ v => render_ready m v /\ J v).
        unfold _render_template.
        destruct (render_rows_local ext (HoverTool.formatters m) ds vars rows 0
                    (_create_template rows)) as (el & -> & _).
        { unfold _create_template. rewrite length_map. lia. }
        auto.
      * intros el. now apply triple_ret.
Qed.

Lemma multiline_policy_hit_throws policy xscale yscale _xs _ys sxs sys interp_hit
    i j geometry sx sy e :
  multiline_policy_hit policy xscale yscale _xs _ys sxs sys interp_hit i j geometry sx sy
  = inl e ->
  e = unreachable /\ policy = LinePolicy_none.
Proof.
  unfold multiline_policy_hit, _line_hit. destruct policy; cbv zeta; try discriminate.
  - destruct (_nearest_line_hit j geometry sx sy _ _) as [[tt_sx tt_sy] jj]. discriminate.
  - destruct (interp_hit i j geometry). discriminate.
  - intros [= <-]. now split.
Qed.

Section Hits.
Variable I : HoverToolView -> Prop.
Variable P : Exception -> Prop.
Hypothesis render :
  forall ds vars, triple I (_render_tooltips ext ds vars) (fun _ => I) P.

Lemma push_triple c tt_sx tt_sy vars :
  triple I (push ext c tt_sx tt_sy vars) (fun _ => I) P.
Proof.
  unfold push. eapply triple_bind; [apply render|].
  intros rendered. now apply triple_ret.
Qed.

Lemma pointer_hit_triple c index indices :
  triple I (pointer_hit ext c index indices) (fun _ => I) P.
Proof. apply push_triple. Qed.

Lemma patch_hits_triple c : triple I (patch_hits ext c) (fun _ => I) P.
Proof.
  unfold patch_hits. destruct (s_glyph c);
    first [apply pointer_hit_triple | now apply triple_ret].
Qed.

Lemma area_hits_triple c : triple I (area_hits ext c) (fun _ => I) P.
Proof.
  unfold area_hits. destruct (s_glyph c);
    first [ apply triple_for_each; intros; apply pointer_hit_triple
          | now apply triple_ret ].
Qed.

Lemma line_hits_triple policy c : triple I (line_hits ext policy c) (fun _ => I) P.
Proof.
  unfold line_hits. destruct (s_glyph c);
    first [ apply triple_for_each; intros; apply push_triple
          | now apply triple_ret ].
Qed.

Lemma image_hits_triple c : triple I (image_hits ext c) (fun _ => I) P.
Proof.
  unfold image_hits. apply triple_for_each. intros. apply pointer_hit_triple.
Qed.

Lemma point_hit_triple point_policy anchor c i :
  triple I (point_hit ext point_policy anchor c i) (fun _ => I) P.
Proof.
  unfold point_hit. cbv zeta.
  match goal with
  | |- triple _ (match ?r with _ => _ end) _ _ => destruct r as [[tt_sx tt_sy]|]
  end; [apply push_triple|now apply triple_ret].
Qed.

Lemma multiline_hits_triple policy c _xs _ys sxs sys interp_hit i :
  triple I (multiline_hits ext policy c _xs _ys sxs sys interp_hit i) (fun _ => I)
    (fun e => P e
              \/ (multiline_indices (s_subset c) !! toString i = None /\ is_TypeError e)
              \/ (e = unreachable /\ policy = LinePolicy_none)).
Proof.
  unfold multiline_hits.
  destruct (multiline_indices (s_subset c) !! toString i) as [js|] eqn:E.
  - apply triple_for_each. intros j _.
    eapply triple_bind with (Q := fun _ => I).
    + apply triple_lift.
      destruct (multiline_policy_hit policy _ _ _xs _ys sxs sys interp_hit i j _ _ _)
        eqn:Eh; [|auto].
      right. right. eapply multiline_policy_hit_throws, Eh.
    + intros r. eapply triple_weaken; [apply push_triple|auto..].
  - intros v _. simpl. right. left. split; [reflexivity|now eexists].
Qed.

Lemma index_hits_triple m c :
  triple I (index_hits ext m c) (fun _ => I)
    (fun e => P e
              \/ (is_TypeError e /\ multiline_indices (s_subset c) <> ∅
                  /\ exists i, i ∈ indices (s_subset c)
                               /\ multiline_indices (s_subset c) !! toString i = None)
              \/ (e = unreachable /\ HoverTool.line_policy m = LinePolicy_none
                  /\ is_multiline (s_glyph c) = true)).
Proof.
  unfold index_hits. apply triple_for_each. intros i Hi.
  destruct (s_glyph c) eqn:Hg;
    try (eapply triple_weaken; [apply point_hit_triple|auto..]).
  case_bool_decide as Hne; cbn [negb];
    [eapply triple_weaken; [apply point_hit_triple|auto..]|].
  eapply triple_weaken; [apply multiline_hits_triple|auto..].
  intros e [He | [[Hnone Hty] | [He Hp]]]; [now left|right; left|right; right].
  - split; [exact Hty|]. split; [exact Hne|]. now exists i.
  - auto.
Qed.

(** What the tail of [_update] throws is the failure to fill a tooltip
    that has no content node. *)
Lemma commit_triple tooltip hits :
  triple I (commit ext tooltip hits) (fun _ _ => True)
    (fun e => e = content_failure ext
              /\ exists v, I v /\ ~ has_container v tooltip).
Proof.
  unfold commit, clear_tooltip, show_tooltip.
  destruct (last hits) as [[pos node]|]; [|now apply triple_modify].
  apply triple_get. intros v0 Hv0.
  destruct (heap v0 !! tooltip) as [t|] eqn:Ht; [|now apply triple_ret].
  destruct (content t) as [[markup|el]|] eqn:Hc.
  - intros v _. split; [reflexivity|]. exists v0. split; [exact Hv0|].
    intros (t' & el & Ht' & Hc'). congruence.
  - eapply triple_bind with (Q := fun _ _ => True); [now apply triple_modify|].
    intros u. now apply triple_modify.
  - intros v _. split; [reflexivity|]. exists v0. split; [exact Hv0|].
    intros (t' & el & Ht' & Hc'). congruence.
Qed.

Lemma _update_triple renderer geometry v0 :
  triple (fun v => v = v0 /\ I v) (_update ext renderer geometry) (fun _ _ => True)
    (fun e => P e
              \/ (is_TypeError e /\ ~ inspection_well_formed v0 renderer)
              \/ (e = unreachable /\ uncovered_policy v0 renderer)
              \/ (e = content_failure ext
                  /\ exists tooltip v,
                       _ttmodels v0 !! renderer_ref renderer = Some tooltip
                       /\ I v /\ ~ has_container v tooltip)).
Proof.
  unfold _update. apply triple_get. intros v1 [-> HI].
  assert (Hret : forall Q', triple (fun v => v = v0) (mret tt) (fun _ _ => True) Q').
  { intros Q'. now apply triple_ret. }
  destruct (negb (HoverTool.active (model v0))); [apply Hret|].
  destruct (pointer_of geometry) as [[sx sy]|]; [|apply Hret].
  match goal with |- triple _ (if ?b then _ else _) _ _ => destruct b end; [apply Hret|].
  destruct (_ttmodels v0 !! renderer_ref renderer) as [tooltip|]; [|apply Hret].
  destruct (inspectors v0 !! renderer_ref renderer) as [fullset|] eqn:Hins.
  2:{ intros v _. simpl. right. left. split; [now eexists|].
      intros (f & Hf & _). congruence. }
  match goal with |- triple _ (if ?b then _ else _) _ _ => destruct b end.
  { unfold clear_tooltip. now apply triple_modify. }
  destruct (renderer_view v0 (renderer_ref renderer)) as [rview|] eqn:Hview; [|apply Hret].
  set (P' := fun e => P e
              \/ (is_TypeError e /\ ~ inspection_well_formed v0 renderer)
              \/ (e = unreachable /\ uncovered_policy v0 renderer)
              \/ (e = content_failure ext
                  /\ exists tooltip' v,
                       Some tooltip = Some tooltip'
                       /\ I v /\ ~ has_container v tooltip')).
  apply triple_weaken with (I' := I) (Q' := fun _ _ => True) (P' := P');
    [|now intros v ->|auto|auto].
  eapply triple_bind with (Q := fun _ => I);
    [eapply triple_weaken; [apply patch_hits_triple|unfold P'; auto..]|].
  intros patch.
  eapply triple_bind with (Q := fun _ => I);
    [eapply triple_weaken; [apply area_hits_triple|unfold P'; auto..]|].
  intros area.
  eapply triple_bind with (Q := fun _ => I);
    [eapply triple_weaken; [apply line_hits_triple|unfold P'; auto..]|].
  intros line.
  eapply triple_bind with (Q := fun _ => I);
    [eapply triple_weaken; [apply image_hits_triple|unfold P'; auto..]|].
  intros image.
  eapply triple_bind with (Q := fun _ => I).
  - eapply triple_weaken; [apply index_hits_triple|auto..].
    cbn [s_subset s_glyph]. unfold P'.
    intros e [He | [(Hty & Hne & i & Hi & Hnone) | (He & Hp & Hm)]];
      [now left|right; left|right; right; left].
    + split; [exact Hty|]. intros (f & Hf & Hwf).
      rewrite Hins in Hf. injection Hf as <-.
      destruct Hwf as [Hwf | Hwf]; [contradiction|].
      destruct (Hwf i Hi) as [js Hjs]. congruence.
    + split; [exact He|]. split; [exact Hp|]. now exists rview.
  - intros points. eapply triple_weaken; [apply commit_triple|auto..].
    unfold P'. intros e [-> (v & Hv & Hn)]. right. right. right.
    split; [reflexivity|]. now exists tooltip, v.
Qed.
End Hits.
End UpdateFacts.

Lemma bind_run {A B} (c : M A) (k : A -> M B) v :
  (c ≫= k) v = match c v with
               | (inr a, v') => k a v'
               | (inl e, v') => (inl e, v')
               end.
Proof. reflexivity. Qed.

Lemma ret_run {A} (a : A) (v : HoverToolView) : (mret a : M A) v = (inr a, v).
Proof. reflexivity. Qed.

Section Unreachable.
Variable ext : Collaborators.




End Unreachable.




(** ** More on tooltip placement *)

Lemma elem_of_classList_add_iff c c' l : c' ∈ classList_add c l <-> c' = c \/ c' ∈ l.
Proof.
  unfold classList_add. case_bool_decide as H.
  - split; [auto|]. intros [-> | H']; assumption.
  - rewrite elem_of_app, list_elem_of_singleton. tauto.
Qed.

Lemma NoDup_classList_remove c l : NoDup l -> NoDup (classList_remove c l).
Proof.
  unfold classList_remove. induction 1 as [|a l Ha Hl IH]; simpl; [constructor|].
  destruct (negb (bool_decide (a = c))); [|exact IH].
  constructor; [|exact IH].
  intros Hin. apply Ha. apply list_elem_of_In in Hin. apply filter_In in Hin.
  apply list_elem_of_In. tauto.
Qed.

Lemma NoDup_classList_add c l : NoDup l -> NoDup (classList_add c l).
Proof.
  intros Hl. unfold classList_add. case_bool_decide as H; [exact Hl|].
  apply NoDup_app. split; [exact Hl|]. split.
  - intros x Hx Hx'. apply list_elem_of_singleton in Hx'. congruence.
  - apply NoDup_singleton.
Qed.

(** X1: a shown tooltip carries exactly one of the four side classes, the
    one of the chosen side; every other class of the element is kept, and
    a duplicate-free class list stays duplicate-free. *)
Theorem reposition_applies_one_side_class model bbox d el pos :
  position model = Some pos ->
  visible model = true ->
  let el' := _reposition model bbox d el in
  (forall c, c ∈ side_classes ->
             (c ∈ classList el' <-> c = side_class (reposition_side model bbox pos)))
  /\ (forall c, c ∉ side_classes -> (c ∈ classList el' <-> c ∈ classList el))
  /\ (NoDup (classList el) -> NoDup (classList el')).
Proof.
  intros Hp Hv el'. subst el'. rewrite (_reposition_classList _ _ _ _ _ Hp Hv).
  fold (reposition_side model bbox pos).
  pose proof (side_class_elem_of (reposition_side model bbox pos)) as Hs.
  split; [|split].
  - intros c Hc. rewrite elem_of_classList_add_iff, elem_of_clear_sides. tauto.
  - intros c Hc. rewrite elem_of_classList_add_iff, elem_of_clear_sides.
    split; [intros [-> | [H _]]; [contradiction|exact H]|tauto].
  - intros Hnd. apply NoDup_classList_add. unfold clear_sides.
    now repeat apply NoDup_classList_remove.
Qed.

Lemma reposition_applies_one_side_class_witness :
  let el' :=
    _reposition (sample_tooltip (Some (PosAnchor Anchor.top_right)) vertical) box100
      {| offsetWidth := 40; clientWidth := 38; offsetHeight := 20; clientHeight := 18 |}
      {| displayed := false; classList := [css_tooltip_arrow; css_right; css_below];
         style_top := unset; style_left := unset; style_right := unset |} in
  (css_above ∈ classList el' <-> css_above = css_above)
  /\ (css_tooltip_arrow ∈ classList el' <-> css_tooltip_arrow ∈ [css_tooltip_arrow; css_right; css_below])
  /\ NoDup (classList el').
Proof.
  intros el'.
  destruct (reposition_applies_one_side_class
              (sample_tooltip (Some (PosAnchor Anchor.top_right)) vertical) box100
              {| offsetWidth := 40; clientWidth := 38; offsetHeight := 20; clientHeight := 18 |}
              {| displayed := false; classList := [css_tooltip_arrow; css_right; css_below];
                 style_top := unset; style_left := unset; style_right := unset |}
              (PosAnchor Anchor.top_right) eq_refl eq_refl) as (H1 & H2 & H3).
  split; [|split].
  - apply (H1 css_above). unfold side_classes. repeat constructor.
  - apply (H2 css_tooltip_arrow). apply (bool_decide_unpack _). vm_compute. exact I.
  - apply H3. apply (bool_decide_unpack _). vm_compute. exact I.
Defined.

(** X2: a shown tooltip is displayed with its top set and exactly one of
    the left and right offsets: right for the side [left], left for the
    other three sides. *)
Theorem reposition_sets_one_horizontal_offset model bbox d el pos :
  position model = Some pos ->
  visible model = true ->
  let el' := _reposition model bbox d el in
  displayed el' = true
  /\ style_top el' <> unset
  /\ (style_left el' = unset <-> reposition_side model bbox pos = left)
  /\ (style_right el' = unset <-> reposition_side model bbox pos <> left).
Proof.
  intros Hp Hv el'. subst el'. unfold reposition_side, _reposition. rewrite Hp, Hv.
  destruct (resolve_position pos bbox) as [sx sy]. cbn [fst snd].
  destruct (choose_side (attachment model) sx sy bbox); cbn;
    repeat split; try discriminate; try congruence; try tauto.
Qed.

Lemma reposition_sets_one_horizontal_offset_witness :
  let el' :=
    _reposition (sample_tooltip (Some (PosCoords (Some 80%float) (Some 30%float))) horizontal)
      box100
      {| offsetWidth := 40; clientWidth := 38; offsetHeight := 20; clientHeight := 18 |}
      {| displayed := false; classList := []; style_top := unset;
         style_left := px_ 7; style_right := unset |} in
  displayed el' = true /\ style_left el' = unset /\ style_right el' = px_ (-30).
Proof.
  intros el'.
  destruct (reposition_sets_one_horizontal_offset
              (sample_tooltip (Some (PosCoords (Some 80%float) (Some 30%float))) horizontal)
              box100
              {| offsetWidth := 40; clientWidth := 38; offsetHeight := 20; clientHeight := 18 |}
              {| displayed := false; classList := []; style_top := unset;
                 style_left := px_ 7; style_right := unset |}
              (PosCoords (Some 80%float) (Some 30%float)) eq_refl eq_refl)
    as (H1 & _ & H3 & _).
  split; [exact H1|]. split; [apply H3; reflexivity|reflexivity].
Defined.

(** X3: a named anchor of the center column never lies strictly left of
    the box's horizontal center, so a horizontal attachment puts the
    tooltip on the [left]; likewise a named anchor of the center row with
    a vertical attachment puts it [above].  This holds for every box, one
    with NaN edges included. *)
Theorem centered_anchor_goes_left_or_above anchor bbox :
  (snd (_anchor_to_align anchor) = HCenter ->
   choose_side horizontal (fst (resolve_position (PosAnchor anchor) bbox))
     (snd (resolve_position (PosAnchor anchor) bbox)) bbox = left)
  /\ (fst (_anchor_to_align anchor) = VCenter ->
      choose_side vertical (fst (resolve_position (PosAnchor anchor) bbox))
        (snd (resolve_position (PosAnchor anchor) bbox)) bbox = above).
Proof.
  unfold resolve_position, choose_side.
  destruct (_anchor_to_align anchor) as [valign halign]. cbn [fst snd].
  split; intros ->; cbn [fst snd Js.to_number]; unfold Js.lt; now rewrite ltb_irrefl.
Qed.

Lemma centered_anchor_goes_left_or_above_witness :
  choose_side horizontal (fst (resolve_position (PosAnchor Anchor.bottom) box100))
    (snd (resolve_position (PosAnchor Anchor.bottom) box100)) box100 = left
  /\ choose_side vertical (fst (resolve_position (PosAnchor Anchor.left) box100))
       (snd (resolve_position (PosAnchor Anchor.left) box100)) box100 = above.
Proof.
  split.
  - apply (proj1 (centered_anchor_goes_left_or_above Anchor.bottom box100)). reflexivity.
  - apply (proj2 (centered_anchor_goes_left_or_above Anchor.left box100)). reflexivity.
Defined.

(** ** More on the two-column template *)

Lemma string_app_cons c s t : String c s +:+ t = String c (s +:+ t).
Proof. reflexivity. Qed.

Lemma dollar_free_app s t : dollar_free (s +:+ t) = dollar_free s && dollar_free t.
Proof.
  induction s as [|c s IH]; [reflexivity|].
  rewrite string_app_cons. cbn [dollar_free]. now rewrite IH, andb_assoc.
Qed.

Lemma word_dollar_free w : is_word w -> dollar_free w = true.
Proof.
  induction w as [|c w IH]; intros H; [reflexivity|].
  apply is_word_cons in H as [Hc Hw]. cbn [dollar_free].
  now rewrite (word_char_not_dollar _ Hc), IH.
Qed.

Lemma options_dollar_free s : is_options s = true -> dollar_free s = true.
Proof.
  induction s as [|c s IH]; [reflexivity|]. cbn [is_options dollar_free].
  intros H. apply andb_true_iff in H as [Hc Hs]. rewrite (IH Hs), andb_true_r.
  destruct (Ascii.eqb "$" c) eqn:E; [|reflexivity].
  apply Ascii.eqb_eq in E. subst c. discriminate Hc.
Qed.

Lemma search_swatch_dollar_free s :
  dollar_free s = true -> Str.search Str.anchored_swatch s = None.
Proof.
  induction s as [|c s IH]; [reflexivity|]. cbn [dollar_free]. intros H.
  apply andb_true_iff in H as [Hc Hs]. apply negb_true_iff in Hc.
  cbn [Str.search]. unfold Str.anchored_swatch at 1. cbn [Str.strip_prefix].
  rewrite Hc. now apply IH.
Qed.

Lemma search_color_dollar_free s :
  dollar_free s = true -> Str.search Str.anchored_color s = None.
Proof.
  induction s as [|c s IH]; [reflexivity|]. cbn [dollar_free]. intros H.
  apply andb_true_iff in H as [Hc Hs]. apply negb_true_iff in Hc.
  cbn [Str.search]. unfold Str.anchored_color at 1. cbn [Str.strip_prefix].
  rewrite Hc. now apply IH.
Qed.

Lemma replace_first_dollar_free pat by_ s :
  dollar_free s = true -> Str.replace_first (String "$" pat) by_ s = s.
Proof.
  induction s as [|c s IH]; [reflexivity|]. cbn [dollar_free]. intros H.
  apply andb_true_iff in H as [Hc Hs]. apply negb_true_iff in Hc.
  cbn [Str.replace_first Str.strip_prefix]. rewrite Hc. now rewrite IH.
Qed.

Lemma at_line_terminator_plain c rest :
  nat_of_ascii c <> 10 -> nat_of_ascii c <> 13 -> nat_of_ascii c <> 226 ->
  Str.at_line_terminator (String c rest) = false.
Proof.
  intros H10 H13 H226. unfold Str.at_line_terminator.
  apply Nat.eqb_neq in H10, H13, H226. rewrite H10, H13.
  destruct rest as [|c1 [|c2 rest]]; try reflexivity. now rewrite H226.
Qed.

Lemma option_char_plain c :
  (Str.is_word_char c || Ascii.eqb c " " || Ascii.eqb c ",") = true ->
  nat_of_ascii c <> 10 /\ nat_of_ascii c <> 13 /\ nat_of_ascii c <> 226
  /\ Ascii.eqb "]" c = false.
Proof.
  destruct c as [[] [] [] [] [] [] [] []]; vm_compute; intros H;
    repeat split; congruence.
Qed.

Lemma bracket_tail_word w : is_word w -> Str.bracket_tail w = None.
Proof.
  induction w as [|c w IH]; intros H; [reflexivity|].
  apply is_word_cons in H as [Hc Hw]. cbn [Str.bracket_tail].
  destruct (option_char_plain c) as (H10 & H13 & H226 & Hb); [now rewrite Hc|].
  rewrite (at_line_terminator_plain _ _ H10 H13 H226), (IH Hw).
  cbn [Str.strip_prefix]. now rewrite Hb.
Qed.

Lemma bracket_tail_options inner w :
  is_options inner = true -> is_word w ->
  Str.bracket_tail (inner +:+ "]:" +:+ w) = Some (inner, w).
Proof.
  intros Hi Hw. induction inner as [|c inner IH].
  - change ("" +:+ "]:" +:+ w) with (String "]" (String ":" w)).
    cbn [Str.bracket_tail].
    rewrite !at_line_terminator_plain by (vm_compute; congruence).
    rewrite (bracket_tail_word _ Hw). reflexivity.
  - cbn [is_options] in Hi. apply andb_true_iff in Hi as [Hc Hi].
    rewrite string_app_cons. cbn [Str.bracket_tail].
    destruct (option_char_plain c Hc) as (H10 & H13 & H226 & _).
    now rewrite (at_line_terminator_plain _ _ H10 H13 H226), (IH Hi).
Qed.

Lemma match_swatch_color_directive opts w :
  (forall inner, opts = Some inner -> is_options inner = true) -> is_word w ->
  Str.match_swatch (color_directive opts w) = None.
Proof.
  intros Ho Hw. unfold Str.match_swatch.
  assert (H : exists rest, color_directive opts w = String "$" (String "c" rest)
                           /\ dollar_free rest = true).
  { destruct opts as [inner|]; eexists; (split; [reflexivity|]).
    - change (dollar_free ("olor[" +:+ inner +:+ "]:" +:+ w) = true).
      rewrite !dollar_free_app, (options_dollar_free _ (Ho _ eq_refl)),
        (word_dollar_free _ Hw). reflexivity.
    - change (dollar_free ("olor:" +:+ w) = true).
      rewrite dollar_free_app, (word_dollar_free _ Hw). reflexivity. }
  destruct H as (rest & -> & Hrest).
  cbn [Str.search]. unfold Str.anchored_swatch at 1 2.
  cbn [Str.strip_prefix Ascii.eqb Bool.eqb].
  now apply search_swatch_dollar_free.
Qed.

Lemma match_color_directive opts w :
  (forall inner, opts = Some inner -> is_options inner = true) -> is_word w ->
  Str.match_color (color_directive opts w)
  = Some (option_map (fun inner => "[" +:+ inner +:+ "]") opts, w).
Proof.
  intros Ho Hw. unfold Str.match_color. destruct opts as [inner|].
  - change (color_directive (Some inner) w)
      with (String "$" (String "c" (String "o" (String "l" (String "o" (String "r"
              (String "[" (inner +:+ "]:" +:+ w)))))))).
    cbn [Str.search]. unfold Str.anchored_color.
    cbn [Str.strip_prefix Ascii.eqb Bool.eqb].
    rewrite (bracket_tail_options _ _ (Ho _ eq_refl) Hw).
    unfold is_word in Hw. now rewrite Hw.
  - change (color_directive None w)
      with (String "$" (String "c" (String "o" (String "l" (String "o" (String "r"
              (String ":" w))))))).
    cbn [Str.search]. unfold Str.anchored_color.
    cbn [Str.strip_prefix Ascii.eqb Bool.eqb].
    unfold is_word in Hw. now rewrite Hw.
Qed.

Section MoreRendering.
Variable ext : Collaborators.
Variable fmt : gmap string Formatter.
Variable ds : ColumnarDataSource.
Variable vars : TooltipVars.

(** X4: a row whose value expression is a color directive, with or
    without plain bracketed options, rendered from the template compiled
    for the same rows: an absent column gives the column name followed by
    [" unknown"]; a column without a color at the index (or an index that
    is not a number) gives ["(null)"]; otherwise the value is the color's
    hex text when the options contain [hex] and its CSS text when not,
    and the swatch is shown with the CSS text as background exactly when
    the options contain [swatch]. *)
Theorem color_row_rendering tooltips j label opts colname :
  is_word colname ->
  (forall inner, opts = Some inner -> is_options inner = true) ->
  tooltips !! j = Some (label, color_directive opts colname) ->
  exists el r,
    _render_template ext fmt (_create_template tooltips) tooltips ds vars = inr el
    /\ el !! j = Some r
    /\ match get_column ds colname with
       | None => value_text r = colname +:+ " unknown" /\ row_swatch r = (None, false)
       | Some column =>
           match color_at column (index vars) with
           | None => value_text r = "(null)" /\ row_swatch r = (None, false)
           | Some color =>
               value_text r
               = (if Str.includes "hex" (captured_options opts)
                  then color2hex ext color else color2css ext color)
               /\ row_swatch r
                  = (if Str.includes "swatch" (captured_options opts)
                     then (Some (color2css ext color), true) else (None, false))
           end
       end.
Proof.
  intros Hw Ho Hj.
  destruct (_render_template_row ext fmt ds vars tooltips j label _ Hj)
    as (el & mid & r0 & r & Hel & Hmid & Hr0 & Hrow & Hr).
  exists el, r. split; [exact Hel|]. split; [exact Hr|].
  pose proof (lookup_lt_Some _ _ _ Hmid) as Hlt.
  unfold _create_template in Hr0. rewrite list_lookup_fmap, Hj in Hr0.
  injection Hr0 as <-.
  unfold render_row in Hrow. cbv zeta in Hrow.
  rewrite (match_swatch_color_directive _ _ Ho Hw), (match_color_directive _ _ Ho Hw)
    in Hrow.
  unfold color_block, set_value_text, show_swatch, with_row in Hrow. cbv zeta in Hrow.
  replace (default "" (option_map (fun inner => "[" +:+ inner +:+ "]") opts))
    with (captured_options opts) in Hrow by now destruct opts.
  destruct (get_column ds colname) as [column|].
  - destruct (color_at column (index vars)) as [color|].
    + rewrite Hmid in Hrow.
      destruct (Str.includes "swatch" (captured_options opts)).
      * rewrite list_lookup_insert_eq in Hrow by exact Hlt.
        rewrite list_insert_insert_eq in Hrow. injection Hrow as Hrow.
        apply list_insert_inj in Hrow; [subst r|exact Hlt].
        split; [first [apply value_text_set_textContent|reflexivity]|reflexivity].
      * injection Hrow as Hrow.
        apply list_insert_inj in Hrow; [subst r|exact Hlt].
        split; [first [apply value_text_set_textContent|reflexivity]|reflexivity].
    + rewrite Hmid in Hrow. injection Hrow as Hrow.
      apply list_insert_inj in Hrow; [subst r|exact Hlt].
      split; [first [apply value_text_set_textContent|reflexivity]|reflexivity].
  - rewrite Hmid in Hrow. injection Hrow as Hrow.
    apply list_insert_inj in Hrow; [subst r|exact Hlt].
    split; [first [apply value_text_set_textContent|reflexivity]|reflexivity].
Qed.

(** X5: a row whose value expression has no dollar sign is handed to the
    placeholder substitution as it is; a string answer becomes the value
    text, a list of nodes becomes the value's children, and the swatch
    stays hidden. *)
Theorem plain_row_rendering tooltips j label value :
  dollar_free value = true ->
  tooltips !! j = Some (label, value) ->
  exists el r,
    _render_template ext fmt (_create_template tooltips) tooltips ds vars = inr el
    /\ el !! j = Some r
    /\ row_swatch r = (None, false)
    /\ match replace_placeholders ext (PlainText value) ds (index vars) fmt vars with
       | ContentString content => value_text r = content
       | ContentNodes content => row_value r = content
       end.
Proof.
  intros Hd Hj.
  destruct (_render_template_row ext fmt ds vars tooltips j label _ Hj)
    as (el & mid & r0 & r & Hel & Hmid & Hr0 & Hrow & Hr).
  exists el, r. split; [exact Hel|]. split; [exact Hr|].
  pose proof (lookup_lt_Some _ _ _ Hmid) as Hlt.
  unfold _create_template in Hr0. rewrite list_lookup_fmap, Hj in Hr0.
  injection Hr0 as <-.
  unfold render_row, Str.match_swatch, Str.match_color in Hrow. cbv zeta in Hrow.
  rewrite (search_swatch_dollar_free _ Hd), (search_color_dollar_free _ Hd),
    (replace_first_dollar_free _ _ _ Hd) in Hrow.
  unfold set_value_text, append_value_children, with_row in Hrow.
  destruct (replace_placeholders ext (PlainText value) ds (index vars) fmt vars)
    as [content|[|n content]].
  - rewrite Hmid in Hrow. injection Hrow as Hrow.
    apply list_insert_inj in Hrow; [subst r|exact Hlt].
    split; [reflexivity|apply value_text_set_textContent].
  - injection Hrow as Hrow.
    apply (list_insert_fixed _ _ _ _ Hmid) in Hrow. subst r. now split.
  - rewrite Hmid in Hrow. injection Hrow as Hrow.
    apply list_insert_inj in Hrow; [subst r|exact Hlt]. now split.
Qed.

Lemma with_row_labels j f el el' :
  (forall r, row_label (f r) = row_label r) ->
  with_row j f el = inr el' -> map row_label el' = map row_label el.
Proof.
  intros Hf. unfold with_row. destruct (el !! j) as [r|] eqn:E; [|discriminate].
  intros [= <-]. rewrite list_fmap_insert, Hf.
  apply list_insert_id. now rewrite list_lookup_fmap, E.
Qed.

Lemma set_value_text_labels j s el el' :
  set_value_text j s el = inr el' -> map row_label el' = map row_label el.
Proof. apply with_row_labels. now intros []. Qed.

Lemma show_swatch_labels j css el el' :
  show_swatch j css el = inr el' -> map row_label el' = map row_label el.
Proof. apply with_row_labels. now intros []. Qed.

Lemma render_row_labels j value el el' :
  render_row ext fmt ds vars j value el = inr el' ->
  map row_label el' = map row_label el.
Proof.
  unfold render_row. cbv zeta.
  assert (Hcolor : forall opts colname el0 el1,
             color_block ext ds (index vars) j opts colname el0 = inr el1 ->
             map row_label el1 = map row_label el0).
  { intros opts colname el0 el1. unfold color_block. cbv zeta.
    destruct (get_column ds colname) as [column|]; [|apply set_value_text_labels].
    destruct (color_at column (index vars)); [|apply set_value_text_labels].
    destruct (set_value_text j _ el0) as [e|el2] eqn:E; [discriminate|].
    apply set_value_text_labels in E.
    destruct (Str.includes "swatch" (default "" opts)).
    - intros H. apply show_swatch_labels in H. congruence.
    - intros [= <-]. exact E. }
  assert (Hswatch : forall colname el0 el1,
             swatch_block ext ds (index vars) j colname el0 = inr el1 ->
             map row_label el1 = map row_label el0).
  { intros colname el0 el1. unfold swatch_block.
    destruct (get_column ds colname) as [column|]; [|apply set_value_text_labels].
    destruct (color_at column (index vars)); [apply show_swatch_labels|].
    now intros [= <-]. }
  destruct (Str.match_swatch value) as [colname|].
  - destruct (swatch_block ext ds (index vars) j colname el) as [e|el1] eqn:E;
      [discriminate|].
    apply Hswatch in E.
    destruct (Str.match_color value) as [[opts colname']|].
    + intros H. apply Hcolor in H. congruence.
    + intros [= <-]. exact E.
  - destruct (Str.match_color value) as [[opts colname']|]; [apply Hcolor|].
    destruct (replace_placeholders ext _ ds (index vars) fmt vars) as [s|[|n l]].
    + apply set_value_text_labels.
    + now intros [= <-].
    + unfold append_value_children. apply with_row_labels. now intros [].
Qed.

(** X6: whatever the template, a rendering that returns has the
    template's rows, one for one and with their labels. *)
Theorem render_template_keeps_labels template tooltips el :
  _render_template ext fmt template tooltips ds vars = inr el ->
  map row_label el = map row_label template /\ length el = length template.
Proof.
  unfold _render_template. intros H.
  assert (Hl : map row_label el = map row_label template).
  { revert H. generalize 0 as j. revert template.
    induction tooltips as [|[label value] rest IH]; intros template j; simpl.
    - now intros [= <-].
    - destruct (render_row ext fmt ds vars j value template) as [e|el1] eqn:E;
        [discriminate|].
      intros H. apply IH in H. apply render_row_labels in E. congruence. }
  split; [exact Hl|]. apply (f_equal length) in Hl. now rewrite !length_map in Hl.
Qed.

(** X7: rendering returns when the template has a row for every
    (label, value) pair; when it throws, the template is shorter than the
    list of pairs and the exception is a type error. *)
Theorem render_template_throws_only_on_short_template template tooltips :
  (length tooltips <= length template ->
   exists el, _render_template ext fmt template tooltips ds vars = inr el)
  /\ (forall e, _render_template ext fmt template tooltips ds vars = inl e ->
                is_TypeError e /\ length template < length tooltips).
Proof.
  assert (Hok : length tooltips <= length template ->
                exists el, _render_template ext fmt template tooltips ds vars = inr el).
  { intros Hlen. unfold _render_template.
    destruct (render_rows_local ext fmt ds vars tooltips 0 template Hlen)
      as (el & H & _). now exists el. }
  split; [exact Hok|]. intros e He. split.
  - eapply render_rows_throws, He.
  - destruct (Nat.le_gt_cases (length tooltips) (length template)) as [Hle|Hgt];
      [|exact Hgt].
    destruct (Hok Hle) as [el Hel]. congruence.
Qed.
End MoreRendering.

Lemma color_row_rendering_witness :
  let tooltips := [("plain", "$color:fill"); ("both", "$color[hex, swatch]:fill");
                   ("gone", "$color[hex]:line_color")] in
  exists el r0 r1 r2,
    _render_template sample_collaborators ∅ (_create_template tooltips) tooltips
      sample_source (sample_vars (Some 0)) = inr el
    /\ el !! 0 = Some r0 /\ el !! 1 = Some r1 /\ el !! 2 = Some r2
    /\ value_text r0 = "rgba(255, 0, 0, 1)" /\ row_swatch r0 = (None, false)
    /\ value_text r1 = "#ff0000" /\ row_swatch r1 = (Some "rgba(255, 0, 0, 1)", true)
    /\ value_text r2 = "line_color unknown".
Proof.
  intros tooltips.
  destruct (color_row_rendering sample_collaborators ∅ sample_source (sample_vars (Some 0))
              tooltips 0 "plain" None "fill" eq_refl ltac:(discriminate) eq_refl)
    as (el & r0 & Hel & H0 & Hv0).
  destruct (color_row_rendering sample_collaborators ∅ sample_source (sample_vars (Some 0))
              tooltips 1 "both" (Some "hex, swatch") "fill" eq_refl
              ltac:(intros inner [= <-]; reflexivity) eq_refl)
    as (el1 & r1 & Hel1 & H1 & Hv1).
  destruct (color_row_rendering sample_collaborators ∅ sample_source (sample_vars (Some 0))
              tooltips 2 "gone" (Some "hex") "line_color" eq_refl
              ltac:(intros inner [= <-]; reflexivity) eq_refl)
    as (el2 & r2 & Hel2 & H2 & Hv2).
  rewrite Hel in Hel1, Hel2. injection Hel1 as <-. injection Hel2 as <-.
  exists el, r0, r1, r2.
  change (get_column sample_source "fill")
    with (Some [CellNumber 4278190335; CellNull]) in Hv0, Hv1.
  change (get_column sample_source "line_color") with (@None (list Cell)) in Hv2.
  cbn [color_at sample_vars index lookup list_lookup] in Hv0, Hv1.
  destruct Hv0 as [Ha0 Hb0], Hv1 as [Ha1 Hb1], Hv2 as [Ha2 _].
  repeat split; assumption.
Defined.

Lemma plain_row_rendering_witness :
  exists el r,
    _render_template sample_collaborators ∅ (_create_template [("name", "a point")])
      [("name", "a point")] sample_source (sample_vars None) = inr el
    /\ el !! 0 = Some r /\ row_swatch r = (None, false) /\ value_text r = "a point".
Proof.
  destruct (plain_row_rendering sample_collaborators ∅ sample_source (sample_vars None)
              [("name", "a point")] 0 "name" "a point" eq_refl eq_refl)
    as (el & r & Hel & Hr & Hs & Hv).
  exists el, r. repeat split; assumption.
Defined.

Lemma render_template_keeps_labels_witness :
  exists el,
    _render_template sample_collaborators ∅
      [MkRow "kept" [NText "old"] None false; MkRow "also kept" [] None false]
      [("ignored", "$swatch:fill")] sample_source (sample_vars (Some 0)) = inr el
    /\ map row_label el = ["kept"; "also kept"] /\ length el = 2.
Proof.
  eexists. split; [reflexivity|].
  apply (render_template_keeps_labels sample_collaborators ∅ sample_source
           (sample_vars (Some 0))
           [MkRow "kept" [NText "old"] None false; MkRow "also kept" [] None false]
           [("ignored", "$swatch:fill")]).
  reflexivity.
Defined.

Lemma render_template_throws_only_on_short_template_witness :
  (exists el, _render_template sample_collaborators ∅ [MkRow "a: " [] None false]
                [("a", "$swatch:nope")] sample_source (sample_vars None) = inr el)
  /\ is_TypeError (TypeError "Cannot set properties of undefined")
  /\ 0 < 1.
Proof.
  split.
  - apply (proj1 (render_template_throws_only_on_short_template sample_collaborators ∅
                    sample_source (sample_vars None) [MkRow "a: " [] None false]
                    [("a", "$swatch:nope")])).
    simpl. lia.
  - apply (proj2 (render_template_throws_only_on_short_template sample_collaborators ∅
                    sample_source (sample_vars None) [] [("a", "$swatch:nope")])).
    reflexivity.
Defined.

(** X8: with (label, value) rows as the tooltip specification and a cache
    that is empty or holds the template of these rows, rendering a hit
    returns a table with one row per pair and leaves the compiled template
    in the cache; rendering the same hit again returns the same content
    and changes nothing. *)
Theorem render_tooltips_compiles_template_once ext ds vars v rows :
  HoverTool.tooltips (model v) = Some (RowsSpec rows) ->
  template_coherent (model v) v ->
  let r := _render_tooltips ext ds vars v in
  snd r = set_template_el (Some (_create_template rows)) v
  /\ (exists el, fst r = inr (Some (NTable el)) /\ length el = length rows)
  /\ _render_tooltips ext ds vars (snd r) = r.
Proof.
  intros Ht [_ Hc] r. subst r. rewrite Ht in Hc.
  assert (Htpl : default (_create_template rows) (_template_el v) = _create_template rows)
    by (destruct Hc as [-> | ->]; reflexivity).
  destruct (render_rows_local ext (HoverTool.formatters (model v)) ds vars rows 0
              (_create_template rows)) as (el & Hel & Hlen & _).
  { unfold _create_template. rewrite length_map. lia. }
  assert (Hrun : forall v0,
            model v0 = model v ->
            default (_create_template rows) (_template_el v0) = _create_template rows ->
            _render_tooltips ext ds vars v0
            = (inr (Some (NTable el)), set_template_el (Some (_create_template rows)) v0)).
  { intros v0 Hm H0. unfold _render_tooltips. rewrite bind_run. unfold get_view.
    cbv beta iota. rewrite Hm, Ht, H0. rewrite bind_run. unfold modify.
    cbv beta iota. rewrite bind_run. unfold lift, _render_template.
    rewrite Hel. reflexivity. }
  rewrite (Hrun v eq_refl Htpl). cbn [fst snd]. split; [reflexivity|]. split.
  - exists el. split; [reflexivity|]. rewrite Hlen. unfold _create_template.
    apply length_map.
  - now rewrite (Hrun (set_template_el (Some (_create_template rows)) v) eq_refl eq_refl).
Qed.

Lemma render_tooltips_compiles_template_once_witness :
  let v := sample_view (with_policies show nearest true) in
  let r := _render_tooltips sample_collaborators sample_source (sample_vars (Some 0)) v in
  _template_el v = None
  /\ _template_el (snd r)
     = Some [MkRow "index: " [] None false; MkRow "data (x, y): " [] None false;
             MkRow "screen (x, y): " [] None false]
  /\ _render_tooltips sample_collaborators sample_source (sample_vars (Some 0)) (snd r) = r.
Proof.
  intros v r.
  destruct (render_tooltips_compiles_template_once sample_collaborators sample_source
              (sample_vars (Some 0)) v _ eq_refl (conj eq_refl (or_introl eq_refl)))
    as (H1 & _ & H3).
  fold r in H1, H3. split; [reflexivity|]. split; [now rewrite H1|exact H3].
Defined.

(** ** More on the update step *)

Lemma renders_only_refl v : renders_only v v.
Proof. exists (_template_el v), (_template_view v). now destruct v. Qed.

Lemma renders_only_trans v1 v2 v3 :
  renders_only v1 v2 -> renders_only v2 v3 -> renders_only v1 v3.
Proof. intros (t1 & tv1 & ->) (t2 & tv2 & ->). now exists t2, tv2. Qed.

Lemma updates_only_refl v : updates_only v v.
Proof.
  exists (_template_el v), (_template_view v), (heap v), (dom v). now destruct v.
Qed.

Lemma updates_only_trans v1 v2 v3 :
  updates_only v1 v2 -> updates_only v2 v3 -> updates_only v1 v3.
Proof.
  intros (t1 & tv1 & h1 & d1 & ->) (t2 & tv2 & h2 & d2 & ->). now exists t2, tv2, h2, d2.
Qed.

Lemma renders_updates v v' : renders_only v v' -> updates_only v v'.
Proof. intros (tpl & tv & ->). now exists tpl, tv, (heap v), (dom v). Qed.

Lemma inspects_only_refl v : inspects_only v v.
Proof.
  exists (_template_el v), (_template_view v), (heap v), (dom v), (inspectors v).
  now destruct v.
Qed.

Lemma inspects_only_trans v1 v2 v3 :
  inspects_only v1 v2 -> inspects_only v2 v3 -> inspects_only v1 v3.
Proof.
  intros (t1 & tv1 & h1 & d1 & i1 & ->) (t2 & tv2 & h2 & d2 & i2 & ->).
  now exists t2, tv2, h2, d2, i2.
Qed.

Lemma updates_inspects v v' : updates_only v v' -> inspects_only v v'.
Proof. intros (tpl & tv & h & d & ->). now exists tpl, tv, h, d, (inspectors v). Qed.

Section Preserves.
Variable R : HoverToolView -> HoverToolView -> Prop.
Hypothesis R_refl : forall v, R v v.
Hypothesis R_trans : forall v1 v2 v3, R v1 v2 -> R v2 v3 -> R v1 v3.

Lemma preserves_ret {A} (a : A) : preserves R (mret a).
Proof. intros v. apply R_refl. Qed.

Lemma preserves_throw {A} e : preserves R (@throw A e).
Proof. intros v. apply R_refl. Qed.

Lemma preserves_lift {A} (r : Exception + A) : preserves R (lift r).
Proof. intros v. apply R_refl. Qed.

Lemma preserves_bind {A B} (c : M A) (k : A -> M B) :
  preserves R c -> (forall a, preserves R (k a)) -> preserves R (c ≫= k).
Proof.
  intros Hc Hk v. rewrite bind_run. specialize (Hc v).
  destruct (c v) as [[e|a] v1]; [exact Hc|].
  eapply R_trans; [exact Hc|apply Hk].
Qed.

Lemma preserves_get {A} (k : HoverToolView -> M A) :
  (forall v0, preserves R (k v0)) -> preserves R (get_view ≫= k).
Proof. intros Hk v. rewrite bind_run. apply Hk. Qed.

Lemma preserves_for_each {A B} (l : list A) (body : A -> M (list B)) :
  (forall a, preserves R (body a)) -> preserves R (for_each l body).
Proof.
  intros Hbody. induction l as [|a l IH]; [apply preserves_ret|].
  cbn [for_each]. apply preserves_bind; [apply Hbody|]. intros pushed.
  apply preserves_bind; [exact IH|]. intros rest. apply preserves_ret.
Qed.

Lemma preserves_for_each_ {A} (l : list A) (body : A -> M unit) :
  (forall a, preserves R (body a)) -> preserves R (for_each_ l body).
Proof.
  intros Hbody. induction l as [|a l IH]; [apply preserves_ret|].
  cbn [for_each_]. apply preserves_bind; [apply Hbody|]. intros u. exact IH.
Qed.
End Preserves.

Lemma preserves_weaken {A} (R R' : HoverToolView -> HoverToolView -> Prop) (c : M A) :
  (forall v v', R v v' -> R' v v') -> preserves R c -> preserves R' c.
Proof. intros H Hc v. apply H, Hc. Qed.

(** Filling one content node changes another only by what moves. *)
Lemma without_elements_nil l : without_elements [] l = l.
Proof. reflexivity. Qed.

Lemma without_elements_app m1 m2 l :
  without_elements (m1 ++ m2) l = without_elements m2 (without_elements m1 l).
Proof. unfold without_elements. apply foldl_app. Qed.

Lemma appendChild_other el node d el' :
  el' <> el ->
  appendChild el node d !! el' = without_elements (moved_elements [node]) <$> d !! el'.
Proof.
  intros Hne. unfold appendChild. rewrite lookup_insert_ne by congruence.
  destruct node; cbn; try (now destruct (d !! el')).
  now rewrite lookup_fmap.
Qed.

Lemma fill_other el nodes : forall d el',
  el' <> el ->
  foldl (fun d node => appendChild el node d) d nodes !! el'
  = without_elements (moved_elements nodes) <$> d !! el'.
Proof.
  induction nodes as [|n nodes IH]; intros d el' Hne.
  - cbn. now destruct (d !! el').
  - cbn [foldl]. rewrite IH by exact Hne. rewrite appendChild_other by exact Hne.
    rewrite <- option_fmap_compose. apply option_fmap_ext. intros l.
    assert (Hsplit : moved_elements (n :: nodes)
                     = moved_elements [n] ++ moved_elements nodes).
    { unfold moved_elements. cbn. now destruct n. }
    rewrite Hsplit, without_elements_app. reflexivity.
Qed.

Lemma moved_elements_built (hits : list Hit) :
  Forall (fun h => is_built (snd h)) hits -> moved_elements (omap snd hits) = [].
Proof.
  induction 1 as [|[pos [n|]] hits Hb _ IH]; [reflexivity| |exact IH].
  cbn. destruct n; try contradiction; exact IH.
Qed.

Section UpdateFrame.
Variable ext : Collaborators.

Lemma _render_tooltips_writes ds vars : preserves renders_only (_render_tooltips ext ds vars).
Proof.
  pose proof renders_only_refl as Hrefl. pose proof renders_only_trans as Htrans.
  unfold _render_tooltips. apply (preserves_get _). intros v0.
  destruct (HoverTool.tooltips (model v0)) as [[t|s|rows|f]|];
    try apply (preserves_ret _ Hrefl).
  - destruct (_template_view v0) as [tv|]; [|apply (preserves_throw _ Hrefl)].
    apply (preserves_bind _ Htrans).
    + intros v.
      exists (_template_el v),
        (Some {| tv_template := tv_template tv; tv_el := tv_el tv;
                 tv_rendered := Some (template_view_update ext (tv_template tv)
                                        ds (index vars) vars) |}).
      now destruct v.
    + intros u. apply (preserves_ret _ Hrefl).
  - apply (preserves_bind _ Htrans).
    + intros v.
      exists (Some (default (_create_template rows) (_template_el v0))), (_template_view v).
      now destruct v.
    + intros u. apply (preserves_bind _ Htrans); [apply (preserves_lift _ Hrefl)|].
      intros el. apply (preserves_ret _ Hrefl).
Qed.

Lemma push_writes c tt_sx tt_sy vars : preserves renders_only (push ext c tt_sx tt_sy vars).
Proof.
  unfold push. apply (preserves_bind _ renders_only_trans);
    [apply _render_tooltips_writes|].
  intros rendered. apply (preserves_ret _ renders_only_refl).
Qed.

Lemma hits_write policy m c :
  preserves renders_only (patch_hits ext c)
  /\ preserves renders_only (area_hits ext c)
  /\ preserves renders_only (line_hits ext policy c)
  /\ preserves renders_only (image_hits ext c)
  /\ preserves renders_only (index_hits ext m c).
Proof.
  pose proof renders_only_refl as Hrefl. pose proof renders_only_trans as Htrans.
  assert (Hpointer : forall index indices,
            preserves renders_only (pointer_hit ext c index indices))
    by (intros; apply push_writes).
  assert (Hpoint : forall pp anchor i, preserves renders_only (point_hit ext pp anchor c i)).
  { intros pp anchor i. unfold point_hit. cbv zeta.
    match goal with
    | |- preserves _ (match ?r with _ => _ end) => destruct r as [[tt_sx tt_sy]|]
    end; [apply push_writes|apply (preserves_ret _ Hrefl)]. }
  repeat split.
  - unfold patch_hits. destruct (s_glyph c);
      first [apply Hpointer | apply (preserves_ret _ Hrefl)].
  - unfold area_hits. destruct (s_glyph c);
      first [ apply (preserves_for_each _ Hrefl Htrans); intros; apply Hpointer
            | apply (preserves_ret _ Hrefl) ].
  - unfold line_hits. destruct (s_glyph c);
      first [ apply (preserves_for_each _ Hrefl Htrans); intros; apply push_writes
            | apply (preserves_ret _ Hrefl) ].
  - unfold image_hits. apply (preserves_for_each _ Hrefl Htrans). intros. apply Hpointer.
  - unfold index_hits. apply (preserves_for_each _ Hrefl Htrans). intros i.
    destruct (s_glyph c); try apply Hpoint.
    case_bool_decide; cbn [negb]; [apply Hpoint|].
    unfold multiline_hits.
    destruct (multiline_indices (s_subset c) !! toString i);
      [|apply (preserves_throw _ Hrefl)].
    apply (preserves_for_each _ Hrefl Htrans). intros j.
    apply (preserves_bind _ Htrans); [apply (preserves_lift _ Hrefl)|].
    intros r. apply push_writes.
Qed.

Lemma collect_writes m c : preserves renders_only (collect_hits ext m c).
Proof.
  pose proof renders_only_refl as Hrefl. pose proof renders_only_trans as Htrans.
  destruct (hits_write (HoverTool.line_policy m) m c) as (Hp & Ha & Hl & Hi & Hx).
  unfold collect_hits.
  apply (preserves_bind _ Htrans); [exact Hp|]. intros patch.
  apply (preserves_bind _ Htrans); [exact Ha|]. intros area.
  apply (preserves_bind _ Htrans); [exact Hl|]. intros line.
  apply (preserves_bind _ Htrans); [exact Hi|]. intros image.
  apply (preserves_bind _ Htrans); [exact Hx|]. intros points.
  apply (preserves_ret _ Hrefl).
Qed.

(** What the tail of [_update] leaves: the tooltip's own object and
    content node written, the other content nodes less what has moved. *)
Lemma commit_run tooltip (hits : list Hit) v :
  exists h d moved,
    snd (commit ext tooltip hits v) = set_heap h (set_dom d v)
    /\ (forall t, t <> tooltip -> h !! t = heap v !! t)
    /\ (forall t, content <$> h !! t = content <$> heap v !! t)
    /\ (moved = [] \/ moved = moved_elements (omap snd hits))
    /\ (forall el,
          (forall t, heap v !! tooltip = Some t -> content t <> Some (Container el)) ->
          d !! el = without_elements moved <$> dom v !! el).
Proof.
  assert (Hsame : exists h d moved,
            v = set_heap h (set_dom d v)
            /\ (forall t, t <> tooltip -> h !! t = heap v !! t)
            /\ (forall t, content <$> h !! t = content <$> heap v !! t)
            /\ (moved = [] \/ moved = moved_elements (omap snd hits))
            /\ (forall el,
                  (forall t, heap v !! tooltip = Some t -> content t <> Some (Container el)) ->
                  d !! el = without_elements moved <$> dom v !! el)).
  { exists (heap v), (dom v), []. split; [now destruct v|].
    repeat split; auto. intros el _. now destruct (dom v !! el). }
  assert (Halter : forall f,
            (forall t, content (f t) = content t) ->
            exists h d moved,
              set_heap (alter f tooltip (heap v)) v = set_heap h (set_dom d v)
              /\ (forall t, t <> tooltip -> h !! t = heap v !! t)
              /\ (forall t, content <$> h !! t = content <$> heap v !! t)
              /\ (moved = [] \/ moved = moved_elements (omap snd hits))
              /\ (forall el,
                    (forall t, heap v !! tooltip = Some t ->
                               content t <> Some (Container el)) ->
                    d !! el = without_elements moved <$> dom v !! el)).
  { intros f Hf. exists (alter f tooltip (heap v)), (dom v), [].
    split; [reflexivity|]. split; [|split; [|split]].
    - intros t Ht. apply lookup_alter_ne. congruence.
    - intros t. rewrite lookup_alter. destruct (decide (tooltip = t)) as [<-|Hne].
      + destruct (heap v !! tooltip); cbn; [now rewrite Hf|reflexivity].
      + reflexivity.
    - now left.
    - intros el _. now destruct (dom v !! el). }
  unfold commit. destruct (last hits) as [[pos node]|].
  2:{ unfold clear_tooltip, modify. cbn [snd]. now apply Halter. }
  unfold show_tooltip. rewrite bind_run. unfold get_view. cbv beta iota.
  destruct (heap v !! tooltip) as [t|] eqn:Ht; [|exact Hsame].
  destruct (content t) as [[markup|el]|] eqn:Hc; [exact Hsame| |exact Hsame].
  rewrite bind_run. unfold modify. cbv beta iota. cbn [snd].
  eexists (alter (set_position pos) tooltip (heap v)), _,
    (moved_elements (omap snd hits)).
  split; [reflexivity|]. split; [|split; [|split]].
  - intros t' Ht'. cbn. apply lookup_alter_ne. congruence.
  - intros t'. cbn. rewrite lookup_alter. destruct (decide (tooltip = t')) as [<-|Hne].
    + now rewrite Ht.
    + reflexivity.
  - now right.
  - intros el' Hel'. cbn. rewrite fill_other.
    + rewrite lookup_insert_ne; [reflexivity|]. intros <-. now apply (Hel' t).
    + intros ->. now apply (Hel' t).
Qed.

(** With a hit to show, the tail of [_update] moves a tooltip that has a
    content node to the last hit, and fails on one that has none, leaving
    the view as it is. *)
Lemma commit_at tooltip (hits : list Hit) v pos node t :
  last hits = Some (pos, node) ->
  heap v !! tooltip = Some t ->
  match content t with
  | Some (Container _) =>
      fst (commit ext tooltip hits v) = inr tt
      /\ position <$> heap (snd (commit ext tooltip hits v)) !! tooltip
         = Some (Some (PosCoords (fst pos) (snd pos)))
  | _ => commit ext tooltip hits v = (inl (content_failure ext), v)
  end.
Proof.
  intros Hl Ht. unfold commit. rewrite Hl.
  unfold show_tooltip. rewrite bind_run. unfold get_view. cbv beta iota.
  rewrite Ht. destruct (content t) as [[markup|el]|]; try reflexivity.
  rewrite bind_run. unfold modify. cbv beta iota. cbn [fst snd heap set_heap].
  split; [reflexivity|]. cbn. now rewrite lookup_alter_eq, Ht.
Qed.

(** Past its guards [_update] collects the hits and commits them. *)
Lemma _update_run renderer geometry v sx sy tooltip fullset rview :
  HoverTool.active (model v) = true ->
  pointer_of geometry = Some (sx, sy) ->
  HoverTool.muted_policy (model v) = show \/ muted renderer = false ->
  _ttmodels v !! renderer_ref renderer = Some tooltip ->
  inspectors v !! renderer_ref renderer = Some fullset ->
  Selection_is_empty fullset = false \/ is_Some (selection_view fullset) ->
  renderer_view v (renderer_ref renderer) = Some rview ->
  _update ext renderer geometry v
  = (collect_hits ext (model v) (update_scope renderer geometry sx sy rview fullset)
       ≫= commit ext tooltip) v.
Proof.
  intros Ha Hg Hmuted Htt Hins Hhit Hview.
  unfold _update. rewrite bind_run. unfold get_view. cbv beta iota.
  rewrite Ha, Hg. cbn [negb].
  assert (Hm : match HoverTool.muted_policy (model v) with
               | ignore => muted renderer
               | show => false
               end = false).
  { destruct Hmuted as [-> | ->]; [reflexivity|].
    now destruct (HoverTool.muted_policy (model v)). }
  rewrite Hm, Htt, Hins.
  assert (He : Selection_is_empty fullset
               && match selection_view fullset with None => true | Some _ => false end
               = false).
  { destruct Hhit as [-> | [sv ->]]; [reflexivity|apply andb_false_r]. }
  rewrite He, Hview. fold (update_scope renderer geometry sx sy rview fullset).
  set (c := update_scope renderer geometry sx sy rview fullset).
  unfold collect_hits. rewrite !bind_run.
  destruct (patch_hits ext c v) as [[e|patch] v1]; [reflexivity|]. rewrite !bind_run.
  destruct (area_hits ext c v1) as [[e|area] v2]; [reflexivity|]. rewrite !bind_run.
  destruct (line_hits ext (HoverTool.line_policy (model v)) c v2) as [[e|line] v3];
    [reflexivity|]. rewrite !bind_run.
  destruct (image_hits ext c v3) as [[e|image] v4]; [reflexivity|]. rewrite !bind_run.
  destruct (index_hits ext (model v) c v4) as [[e|points] v5]; reflexivity.
Qed.

Lemma _update_cases renderer geometry v :
  _update ext renderer geometry v = (inr tt, v)
  \/ (exists e, _update ext renderer geometry v = (inl e, v))
  \/ (exists tooltip,
        _ttmodels v !! renderer_ref renderer = Some tooltip
        /\ (_update ext renderer geometry v = clear_tooltip tooltip v
            \/ exists c, _update ext renderer geometry v
                         = (collect_hits ext (model v) c ≫= commit ext tooltip) v)).
Proof.
  destruct (HoverTool.active (model v)) eqn:Ha.
  2:{ left. unfold _update. rewrite bind_run. unfold get_view. cbv beta iota.
      now rewrite Ha. }
  destruct (pointer_of geometry) as [[sx sy]|] eqn:Hg.
  2:{ left. unfold _update. rewrite bind_run. unfold get_view. cbv beta iota.
      now rewrite Ha, Hg. }
  destruct (match HoverTool.muted_policy (model v) with
            | ignore => muted renderer
            | show => false
            end) eqn:Hm.
  { left. unfold _update. rewrite bind_run. unfold get_view. cbv beta iota.
    now rewrite Ha, Hg, Hm. }
  destruct (_ttmodels v !! renderer_ref renderer) as [tooltip|] eqn:Htt.
  2:{ left. unfold _update. rewrite bind_run. unfold get_view. cbv beta iota.
      now rewrite Ha, Hg, Hm, Htt. }
  destruct (inspectors v !! renderer_ref renderer) as [fullset|] eqn:Hins.
  2:{ right. left. eexists. unfold _update. rewrite bind_run. unfold get_view.
      cbv beta iota. rewrite Ha, Hg, Hm, Htt, Hins. reflexivity. }
  destruct (Selection_is_empty fullset
            && match selection_view fullset with None => true | Some _ => false end)
    eqn:He.
  { right. right. exists tooltip. split; [reflexivity|]. left.
    unfold _update. rewrite bind_run. unfold get_view. cbv beta iota.
    now rewrite Ha, Hg, Hm, Htt, Hins, He. }
  destruct (renderer_view v (renderer_ref renderer)) as [rview|] eqn:Hview.
  2:{ left. unfold _update. rewrite bind_run. unfold get_view. cbv beta iota.
      now rewrite Ha, Hg, Hm, Htt, Hins, He, Hview. }
  right. right. exists tooltip. split; [reflexivity|]. right.
  exists (update_scope renderer geometry sx sy rview fullset).
  apply (_update_run renderer geometry v sx sy tooltip fullset rview);
    try assumption.
  - destruct (HoverTool.muted_policy (model v)); [now left|now right].
  - apply andb_false_iff in He as [He | He]; [now left|].
    right. destruct (selection_view fullset); [now eexists|discriminate].
Qed.

Lemma _update_writes renderer geometry :
  preserves updates_only (_update ext renderer geometry).
Proof.
  intros v.
  destruct (_update_cases renderer geometry v)
    as [-> | [[e ->] | (tooltip & _ & [-> | [c ->]])]];
    try apply updates_only_refl.
  - exists (_template_el v), (_template_view v), (alter Tooltip_clear tooltip (heap v)),
      (dom v). now destruct v.
  - apply (preserves_bind _ updates_only_trans).
    + apply (preserves_weaken renders_only); [exact renders_updates|apply collect_writes].
    + intros hits v1.
      destruct (commit_run tooltip hits v1) as (h & d & _ & -> & _).
      exists (_template_el v1), (_template_view v1), h, d. now destruct v1.
Qed.

(** Rows and markup are rendered into nodes of their own. *)
Lemma _render_tooltips_builds ds vars v :
  builds_nodes (model v) ->
  forall n v', _render_tooltips ext ds vars v = (inr n, v') -> is_built n.
Proof.
  intros Hb n v'. unfold _render_tooltips. rewrite bind_run. unfold get_view.
  cbv beta iota. unfold builds_nodes in Hb.
  destruct (HoverTool.tooltips (model v)) as [[t|s|rows|f]|]; try contradiction.
  - intros [= <- _]. unfold div. now destruct (replace_placeholders _ _ _ _ _ _).
  - rewrite bind_run. unfold modify. cbv beta iota. rewrite bind_run. unfold lift.
    destruct (_render_template ext _ _ rows ds vars); [discriminate|].
    intros [= <- _]. exact I.
  - intros [= <- _]. exact I.
Qed.

Section HitNodes.
Variable m : HoverTool.Attrs.
Hypothesis builds : builds_nodes m.

Let J := same_model m.
Let Q := fun (hits : list Hit) (v : HoverToolView) =>
           J v /\ Forall (fun h => is_built (snd h)) hits.
Let P := fun _ : Exception => True.

Lemma push_nodes c tt_sx tt_sy vars : triple J (push ext c tt_sx tt_sy vars) Q P.
Proof.
  intros v Hv. unfold push. rewrite bind_run.
  pose proof (_render_tooltips_builds (data_source (s_renderer c)) vars v) as Hb.
  pose proof (_render_tooltips_writes (data_source (s_renderer c)) vars v) as Hw.
  destruct (_render_tooltips ext (data_source (s_renderer c)) vars v) as [[e|n] v'];
    [exact I|].
  cbn [snd] in Hw. split.
  - destruct Hw as (tpl & tv & ->). exact Hv.
  - constructor; [|constructor]. cbn. eapply Hb; [|reflexivity].
    unfold J, same_model in Hv. now rewrite Hv.
Qed.

Lemma for_each_nodes {A} (l : list A) (body : A -> M (list Hit)) :
  (forall a, triple J (body a) Q P) -> triple J (for_each l body) Q P.
Proof.
  intros Hbody. induction l as [|a l IH]; intros v Hv.
  - split; [exact Hv|constructor].
  - cbn [for_each]. rewrite bind_run. specialize (Hbody a v Hv).
    destruct (body a v) as [[e|pushed] v1]; [exact I|]. destruct Hbody as [Hv1 Hp].
    rewrite bind_run. specialize (IH v1 Hv1).
    destruct (for_each l body v1) as [[e|rest] v2]; [exact I|]. destruct IH as [Hv2 Hr].
    split; [exact Hv2|]. now apply Forall_app.
Qed.

Lemma ret_nodes : triple J (mret []) Q P.
Proof. intros v Hv. split; [exact Hv|constructor]. Qed.

Lemma collect_nodes c : triple J (collect_hits ext m c) Q P.
Proof.
  assert (Hpoint : forall pp anchor i, triple J (point_hit ext pp anchor c i) Q P).
  { intros pp anchor i. unfold point_hit. cbv zeta.
    match goal with
    | |- triple _ (match ?r with _ => _ end) _ _ => destruct r as [[tt_sx tt_sy]|]
    end; [apply push_nodes|apply ret_nodes]. }
  assert (Hpatch : triple J (patch_hits ext c) Q P).
  { unfold patch_hits. destruct (s_glyph c);
      first [apply push_nodes | apply ret_nodes]. }
  assert (Harea : triple J (area_hits ext c) Q P).
  { unfold area_hits. destruct (s_glyph c);
      first [apply for_each_nodes; intros; apply push_nodes | apply ret_nodes]. }
  assert (Hline : triple J (line_hits ext (HoverTool.line_policy m) c) Q P).
  { unfold line_hits. destruct (s_glyph c);
      first [apply for_each_nodes; intros; apply push_nodes | apply ret_nodes]. }
  assert (Himage : triple J (image_hits ext c) Q P).
  { unfold image_hits. apply for_each_nodes. intros. apply push_nodes. }
  assert (Hindex : triple J (index_hits ext m c) Q P).
  { unfold index_hits. apply for_each_nodes. intros i.
    destruct (s_glyph c); try apply Hpoint.
    case_bool_decide; cbn [negb]; [apply Hpoint|].
    unfold multiline_hits.
    destruct (multiline_indices (s_subset c) !! toString i); [|now intros v Hv].
    apply for_each_nodes. intros j v Hv. rewrite bind_run. unfold lift.
    destruct (multiline_policy_hit _ _ _ _ _ _ _ _ _ _ _ _ _) as [e|r]; [exact I|].
    now apply push_nodes. }
  intros v Hv. unfold collect_hits. rewrite bind_run. specialize (Hpatch v Hv).
  destruct (patch_hits ext c v) as [[e|patch] v1]; [exact I|].
  destruct Hpatch as [Hv1 F1]. rewrite bind_run. specialize (Harea v1 Hv1).
  destruct (area_hits ext c v1) as [[e|area] v2]; [exact I|].
  destruct Harea as [Hv2 F2]. rewrite bind_run. specialize (Hline v2 Hv2).
  destruct (line_hits ext (HoverTool.line_policy m) c v2) as [[e|line] v3]; [exact I|].
  destruct Hline as [Hv3 F3]. rewrite bind_run. specialize (Himage v3 Hv3).
  destruct (image_hits ext c v3) as [[e|image] v4]; [exact I|].
  destruct Himage as [Hv4 F4]. rewrite bind_run. specialize (Hindex v4 Hv4).
  destruct (index_hits ext m c v4) as [[e|points] v5]; [exact I|].
  destruct Hindex as [Hv5 F5]. split; [exact Hv5|].
  repeat (apply Forall_app; split); assumption.
Qed.
End HitNodes.

(** X9: whatever its outcome, a throw included, the update step of a
    renderer leaves the tool's properties, the renderer-to-tooltip map,
    the inspections, the signal wiring and the callback log as they were.
    It writes no tooltip object but the renderer's own and changes no
    tooltip's content property.  The children of a content node other
    than the tooltip's own change only by the elements that move out of
    them into the tooltip; nothing moves when the tooltips are rows,
    markup or absent, which are rendered into nodes of their own. *)
Theorem update_touches_one_tooltip renderer geometry v :
  let v' := snd (_update ext renderer geometry v) in
  (model v' = model v /\ _ttmodels v' = _ttmodels v /\ inspectors v' = inspectors v
   /\ connected v' = connected v /\ callback_log v' = callback_log v
   /\ next_ref v' = next_ref v)
  /\ (forall t, _ttmodels v !! renderer_ref renderer <> Some t ->
                heap v' !! t = heap v !! t)
  /\ (forall t, content <$> heap v' !! t = content <$> heap v !! t)
  /\ exists moved,
       (builds_nodes (model v) -> moved = [])
       /\ forall el, ~ own_container v renderer el ->
                     dom v' !! el = without_elements moved <$> dom v !! el.
Proof.
  intros v'. subst v'. split.
  { destruct (_update_writes renderer geometry v) as (tpl & tv & h & d & ->).
    repeat split. }
  assert (Hsame : forall el, dom v !! el = without_elements [] <$> dom v !! el).
  { intros el. now destruct (dom v !! el). }
  destruct (_update_cases renderer geometry v)
    as [-> | [[e ->] | (tooltip & Htt & [-> | [c ->]])]].
  - repeat split; try reflexivity. exists []. split; [reflexivity|]. intros el _. apply Hsame.
  - repeat split; try reflexivity. exists []. split; [reflexivity|]. intros el _. apply Hsame.
  - unfold clear_tooltip, modify. cbn [snd]. split; [|split].
    + intros t Ht. cbn. apply lookup_alter_ne. congruence.
    + intros t. cbn. rewrite lookup_alter. destruct (decide (tooltip = t)) as [<-|Hne].
      * now destruct (heap v !! tooltip).
      * reflexivity.
    + exists []. split; [reflexivity|]. intros el _. apply Hsame.
  - rewrite bind_run.
    pose proof (collect_writes (model v) c v) as Hw.
    pose proof (fun Hb => collect_nodes (model v) Hb c v eq_refl) as Hn.
    destruct (collect_hits ext (model v) c v) as [[e|hits] v1].
    + cbn [snd] in *. destruct Hw as (tpl & tv & ->).
      repeat split; try reflexivity.
      exists []. split; [reflexivity|]. intros el _. apply Hsame.
    + cbn [snd] in Hw. destruct Hw as (tpl & tv & ->).
      set (v1 := set_template_view tv (set_template_el tpl v)) in *.
      destruct (commit_run tooltip hits v1) as (h & d & moved & -> & Hh & Hc & Hmoved & Hd).
      split; [|split].
      * intros t Ht. cbn. apply Hh. congruence.
      * intros t. cbn. apply Hc.
      * exists moved. split.
        -- intros Hb. destruct Hmoved as [-> | ->]; [reflexivity|].
           apply moved_elements_built. now destruct (Hn Hb).
        -- intros el Hel. cbn. apply Hd. intros t Ht Hcont. apply Hel.
           now exists tooltip, t.
Qed.

(** X10: the update step returns at once, the view unchanged and nothing
    thrown, when the tool is inactive, when the geometry is neither a
    point nor a span, or when no tooltip is registered for the renderer. *)
Theorem update_guards_leave_view_alone renderer geometry v :
  HoverTool.active (model v) = false
  \/ pointer_of geometry = None
  \/ _ttmodels v !! renderer_ref renderer = None ->
  _update ext renderer geometry v = (inr tt, v).
Proof.
  intros H. unfold _update. rewrite bind_run. unfold get_view. cbv beta iota.
  destruct (HoverTool.active (model v)) eqn:Ha; cbn [negb]; [|reflexivity].
  destruct (pointer_of geometry) as [[sx sy]|] eqn:Hg; [|reflexivity].
  match goal with |- context [if ?b then mret tt else _] => destruct b end; [reflexivity|].
  destruct H as [H | [H | H]]; [discriminate..|]. now rewrite H.
Qed.

(** X11: an inspection that is empty and has no view makes the update
    step clear the renderer's tooltip, position only, and do nothing
    else. *)
Theorem update_without_hit_clears renderer geometry v tooltip fullset :
  HoverTool.active (model v) = true ->
  pointer_of geometry <> None ->
  HoverTool.muted_policy (model v) = show \/ muted renderer = false ->
  _ttmodels v !! renderer_ref renderer = Some tooltip ->
  inspectors v !! renderer_ref renderer = Some fullset ->
  Selection_is_empty fullset = true ->
  selection_view fullset = None ->
  _update ext renderer geometry v
  = (inr tt, set_heap (alter Tooltip_clear tooltip (heap v)) v).
Proof.
  intros Ha Hg Hmuted Htt Hins He Hv.
  unfold _update. rewrite bind_run. unfold get_view. cbv beta iota.
  rewrite Ha. cbn [negb].
  destruct (pointer_of geometry) as [[sx sy]|]; [|congruence].
  assert (Hm : match HoverTool.muted_policy (model v) with
               | ignore => muted renderer
               | show => false
               end = false).
  { destruct Hmuted as [-> | ->]; [reflexivity|].
    now destruct (HoverTool.muted_policy (model v)). }
  now rewrite Hm, Htt, Hins, He, Hv.
Qed.

Lemma for_each_nothing {A B} (l : list A) (body : A -> M (list B)) v :
  (forall a, a ∈ l -> body a v = (inr [], v)) ->
  for_each l body v = (inr [], v).
Proof.
  induction l as [|a l IH]; intros H; [reflexivity|].
  cbn [for_each]. rewrite bind_run, (H a (list_elem_of_here _ _)).
  rewrite bind_run, IH; [reflexivity|].
  intros a' Ha'. apply H. now apply list_elem_of_further.
Qed.

(** X12: with the [snap_to_data] point policy, when the glyph resolves an
    anchor point for none of the inspected indices, neither the configured
    anchor nor the center, every index is skipped: nothing is rendered,
    nothing is thrown, and the renderer's tooltip is cleared. *)
Theorem update_without_anchor_clears renderer geometry v sx sy tooltip fullset rview b :
  HoverTool.active (model v) = true ->
  pointer_of geometry = Some (sx, sy) ->
  HoverTool.muted_policy (model v) = show \/ muted renderer = false ->
  _ttmodels v !! renderer_ref renderer = Some tooltip ->
  inspectors v !! renderer_ref renderer = Some fullset ->
  Selection_is_empty fullset = false \/ is_Some (selection_view fullset) ->
  renderer_view v (renderer_ref renderer) = Some rview ->
  view_glyph rview = OtherGlyphView b ->
  image_indices fullset = [] ->
  HoverTool.point_policy (model v) = snap_to_data ->
  (forall i, i ∈ indices (convert_selection_to_subset renderer fullset) ->
     get_anchor_point b (HoverTool.anchor (model v)) i (sx, sy) = None
     /\ get_anchor_point b Anchor.center i (sx, sy) = None) ->
  _update ext renderer geometry v
  = (inr tt, set_heap (alter Tooltip_clear tooltip (heap v)) v).
Proof.
  intros Ha Hg Hmuted Htt Hins Hhit Hview Hglyph Himg Hpp Hanchor.
  rewrite (_update_run renderer geometry v sx sy tooltip fullset rview) by assumption.
  set (c := update_scope renderer geometry sx sy rview fullset).
  assert (Hc : s_glyph c = OtherGlyphView b) by exact Hglyph.
  assert (Himage : image_hits ext c v = (inr [], v)).
  { unfold image_hits. subst c. cbn [s_fullset update_scope]. now rewrite Himg. }
  assert (Hpoints : index_hits ext (model v) c v = (inr [], v)).
  { unfold index_hits. apply for_each_nothing. intros i Hi. rewrite Hc.
    unfold point_hit. cbv zeta. rewrite Hc. cbn [glyph_base].
    destruct (Hanchor i Hi) as [H1 H2].
    subst c. cbn [s_sx s_sy update_scope]. now rewrite Hpp, H1, H2. }
  unfold collect_hits. rewrite !bind_run.
  unfold patch_hits, area_hits, line_hits. rewrite Hc.
  cbv iota. rewrite !ret_run. cbv iota. rewrite !bind_run, !ret_run. cbv iota.
  rewrite !bind_run, !ret_run. cbv iota. rewrite !bind_run, Himage. cbv iota.
  rewrite !bind_run, Hpoints. reflexivity.
Qed.

(** With what rendering needs in place a hit is pushed. *)
Lemma push_result m c tt_sx tt_sy vars v :
  render_ready m v ->
  exists node v',
    push ext c tt_sx tt_sy vars v = (inr [((tt_sx, tt_sy), node)], v')
    /\ render_ready m v' /\ renders_only v v'.
Proof.
  intros Hc. unfold push. rewrite bind_run.
  pose proof (_render_tooltips_returns ext m (fun _ => True)
                (data_source (s_renderer c)) vars
                (fun _ _ _ => I) (fun _ _ _ => I) v (conj Hc I)) as T.
  pose proof (_render_tooltips_writes (data_source (s_renderer c)) vars v) as W.
  destruct (_render_tooltips ext (data_source (s_renderer c)) vars v) as [[e|node] v'];
    [contradiction|].
  exists node, v'. split; [reflexivity|]. split; [exact (proj1 T)|exact W].
Qed.

Lemma for_each_push_result m c {A} (fx fy : A -> Js.value) (fv : A -> TooltipVars) l :
  forall v,
    render_ready m v ->
    exists hits v',
      for_each l (fun a => push ext c (fx a) (fy a) (fv a)) v = (inr hits, v')
      /\ map fst hits = map (fun a => (fx a, fy a)) l
      /\ render_ready m v' /\ renders_only v v'.
Proof.
  induction l as [|a l IH]; intros v Hc.
  - exists [], v. split; [reflexivity|]. split; [reflexivity|].
    split; [exact Hc|apply renders_only_refl].
  - cbn [for_each]. rewrite bind_run.
    destruct (push_result m c (fx a) (fy a) (fv a) v Hc) as (node & v1 & -> & Hc1 & W1).
    rewrite bind_run. destruct (IH v1 Hc1) as (hits & v2 & -> & Hmap & Hc2 & W2).
    exists (((fx a, fy a), node) :: hits), v2. split; [reflexivity|].
    split; [cbn; now rewrite Hmap|].
    split; [exact Hc2|eapply renders_only_trans; eassumption].
Qed.

(** X13: for a line glyph whose inspection holds segment hits only, with
    a coherent template cache and the structured template's view built,
    the update step resolves the anchor of the last segment of the
    selection by the line policy.  It returns and moves the renderer's
    tooltip there when the tooltip has a content node; when it has none,
    as a tooltip fresh from the rebuild, the step fails after the hits are
    rendered and the tooltip stays as it was. *)
Theorem update_places_tooltip_at_last_line_hit renderer geometry v sx sy tooltip t fullset
    rview b _x _y gsx gsy interp_hit i :
  HoverTool.active (model v) = true ->
  pointer_of geometry = Some (sx, sy) ->
  HoverTool.muted_policy (model v) = show \/ muted renderer = false ->
  _ttmodels v !! renderer_ref renderer = Some tooltip ->
  heap v !! tooltip = Some t ->
  inspectors v !! renderer_ref renderer = Some fullset ->
  Selection_is_empty fullset = false \/ is_Some (selection_view fullset) ->
  renderer_view v (renderer_ref renderer) = Some rview ->
  view_glyph rview = LineView b _x _y gsx gsy interp_hit ->
  render_ready (model v) v ->
  last (line_indices (convert_selection_to_subset renderer fullset)) = Some i ->
  image_indices fullset = [] ->
  indices (convert_selection_to_subset renderer fullset) = [] ->
  let r := line_policy_hit (HoverTool.line_policy (model v)) (x_scale rview) (y_scale rview)
             _x _y gsx gsy interp_hit i geometry sx sy in
  let out := _update ext renderer geometry v in
  match content t with
  | Some (Container _) =>
      fst out = inr tt
      /\ position <$> heap (snd out) !! tooltip
         = Some (Some (PosCoords (r_tt_sx r) (r_tt_sy r)))
  | _ =>
      fst out = inl (content_failure ext)
      /\ heap (snd out) !! tooltip = Some t
  end.
Proof.
  intros Ha Hg Hmuted Htt Ht Hins Hhit Hview Hglyph Hready Hlast Himg Hidx r out.
  subst out.
  rewrite (_update_run renderer geometry v sx sy tooltip fullset rview) by assumption.
  set (c := update_scope renderer geometry sx sy rview fullset).
  assert (Hc : s_glyph c = LineView b _x _y gsx gsy interp_hit) by exact Hglyph.
  set (hit := fun i => line_policy_hit (HoverTool.line_policy (model v))
                         (x_scale rview) (y_scale rview) _x _y gsx gsy interp_hit
                         i geometry sx sy).
  destruct (for_each_push_result (model v) c
              (fun i => r_tt_sx (hit i)) (fun i => r_tt_sy (hit i))
              (fun i => mk_vars c (Some (r_index (hit i))) (r_tt_x (hit i)) (r_tt_y (hit i))
                          (r_tt_sx (hit i)) (r_tt_sy (hit i))
                          (Some (IndicesList (line_indices (s_subset c)))) None)
              (line_indices (convert_selection_to_subset renderer fullset)) v Hready)
    as (hits & v1 & Hline & Hmap & _ & Hw).
  assert (Himage : forall v0, image_hits ext c v0 = (inr [], v0)).
  { intros v0. unfold image_hits. subst c. cbn [s_fullset update_scope]. now rewrite Himg. }
  assert (Hpoints : forall v0, index_hits ext (model v) c v0 = (inr [], v0)).
  { intros v0. unfold index_hits. subst c. cbn [s_subset update_scope]. now rewrite Hidx. }
  assert (Hlines : line_hits ext (HoverTool.line_policy (model v)) c v = (inr hits, v1)).
  { unfold line_hits. rewrite Hc. exact Hline. }
  unfold collect_hits. rewrite !bind_run.
  unfold patch_hits, area_hits. rewrite Hc. cbv iota. rewrite !ret_run. cbv iota.
  rewrite !bind_run, !ret_run. cbv iota. rewrite !bind_run, Hlines. cbv iota.
  rewrite !bind_run, Himage. cbv iota. rewrite !bind_run, Hpoints. cbv iota.
  rewrite ret_run. cbn [app]. rewrite !app_nil_r.
  assert (Hl : fst <$> last hits = Some (r_tt_sx r, r_tt_sy r)).
  { rewrite <- fmap_last.
    change (fst <$> hits
            = (fun i => (r_tt_sx (hit i), r_tt_sy (hit i)))
                <$> line_indices (convert_selection_to_subset renderer fullset)) in Hmap.
    now rewrite Hmap, fmap_last, Hlast. }
  destruct (last hits) as [[pos node]|] eqn:El; [|discriminate].
  injection Hl as ->.
  assert (Ht1 : heap v1 !! tooltip = Some t) by now destruct Hw as (tpl & tv & ->).
  pose proof (commit_at tooltip hits v1 _ node t El Ht1) as Hcommit.
  destruct (content t) as [[markup|el]|]; [|exact Hcommit|]; now rewrite Hcommit.
Qed.
End UpdateFrame.

(** X14: every line policy reports the segment's lower or upper index.
    On a line, [nearest] and [next] report the screen anchor and the data
    point of the reported index, while [prev] reports index [i] and the
    screen anchor of sample [i] with the data point of sample [i+1].  On a
    multi-line, [nearest] and [prev] are consistent in that sense, while
    [next] reports index [j+1] with the data point of sample [j]. *)
Theorem line_policies_report_adjacent_samples :
  (forall policy xscale yscale _x _y gsx gsy interp_hit i geometry sx sy,
      let r := line_policy_hit policy xscale yscale _x _y gsx gsy interp_hit
                 i geometry sx sy in
      (r_index r = i \/ r_index r = i + 1)
      /\ (policy = nearest \/ policy = next ->
          (r_tt_sx r, r_tt_sy r) = sample gsx gsy (r_index r)
          /\ (r_tt_x r, r_tt_y r) = sample _x _y (r_index r))
      /\ (policy = prev ->
          r_index r = i /\ (r_tt_sx r, r_tt_sy r) = sample gsx gsy i
          /\ (r_tt_x r, r_tt_y r) = sample _x _y (i + 1)))
  /\ (forall policy xscale yscale _xs _ys sxs sys interp_hit i j geometry sx sy r,
        multiline_policy_hit policy xscale yscale _xs _ys sxs sys interp_hit
          i j geometry sx sy = inr r ->
        (r_index r = j \/ r_index r = j + 1)
        /\ (policy = nearest \/ policy = prev ->
            (r_tt_sx r, r_tt_sy r)
            = sample (ragged_row sxs i) (ragged_row sys i) (r_index r)
            /\ r_tt_x r = ragged_get _xs i (r_index r)
            /\ r_tt_y r = ragged_get _ys i (r_index r))
        /\ (policy = next ->
            r_index r = j + 1
            /\ r_tt_x r = ragged_get _xs i j /\ r_tt_y r = ragged_get _ys i j)).
Proof.
  split.
  - intros policy xscale yscale _x _y gsx gsy interp_hit i geometry sx sy r. subst r.
    destruct policy; unfold line_policy_hit; cbv zeta;
      try rewrite _nearest_line_hit_unfold;
      try destruct (Js.lt _ _);
      try destruct (interp_hit i geometry) as [tx ty];
      cbn; repeat (intros; try split);
      repeat match goal with
             | H : _ \/ _ |- _ => destruct H
             end;
      try discriminate; auto.
  - intros policy xscale yscale _xs _ys sxs sys interp_hit i j geometry sx sy r.
    destruct policy; unfold multiline_policy_hit; cbv zeta;
      try rewrite _nearest_line_hit_unfold;
      try destruct (Js.lt _ _);
      try destruct (interp_hit i j geometry) as [tx ty];
      cbn; intros Hr; try discriminate Hr; injection Hr as <-;
      cbn; repeat (intros; try split);
      repeat match goal with
             | H : _ \/ _ |- _ => destruct H
             end;
      try discriminate; auto.
Qed.

Lemma update_touches_one_tooltip_witness :
  let v := sample_two_view (with_policies show nearest true) in
  let v' := snd (_update sample_collaborators (sample_renderer 1 true) (PointGeometry 8 0) v) in
  _ttmodels v' = _ttmodels v
  /\ heap v' !! 1 = heap v !! 1
  /\ dom v' !! 1 = Some [NElement 9]
  /\ position <$> heap v !! 0 = Some (Some (PosCoords (Some 5%float) (Some 5%float)))
  /\ position <$> heap v' !! 0 = Some (Some (PosCoords (Some 10%float) (Some 0%float))).
Proof.
  intros v v'.
  destruct (update_touches_one_tooltip sample_collaborators (sample_renderer 1 true)
              (PointGeometry 8 0) v) as ((_ & Hm & _) & Hh & _ & moved & Hmoved & Hd).
  split; [exact Hm|]. split; [apply Hh; discriminate|]. split; [|split; reflexivity].
  fold v' in Hd. rewrite (Hd 1).
  - now rewrite (Hmoved I).
  - intros (tooltip & t & Htt & Ht & Hc).
    apply (inj Some) in Htt. subst tooltip.
    apply (inj Some) in Ht. subst t. discriminate.
Defined.

Lemma update_guards_leave_view_alone_witness :
  let v := sample_view (with_policies show nearest false) in
  _update sample_collaborators (sample_renderer 1 true) (PointGeometry 8 0) v = (inr tt, v)
  /\ _update sample_collaborators (sample_renderer 1 true) (RectGeometry 0 1 0 1)
       (sample_view (with_policies show nearest true))
     = (inr tt, sample_view (with_policies show nearest true))
  /\ _update sample_collaborators (sample_renderer 7 false) (PointGeometry 8 0)
       (sample_view (with_policies show nearest true))
     = (inr tt, sample_view (with_policies show nearest true)).
Proof.
  intros v. split; [|split]; apply update_guards_leave_view_alone.
  - left. reflexivity.
  - right. left. reflexivity.
  - right. right. reflexivity.
Defined.

Lemma update_without_hit_clears_witness :
  let v := set_inspectors {[ 1 := empty_selection ]}
             (sample_view (with_policies show nearest true)) in
  let out := _update sample_collaborators (sample_renderer 1 true) (PointGeometry 50 50) v in
  fst out = inr tt
  /\ heap (snd out) !! 0 = Some (sample_tooltip None horizontal).
Proof.
  intros v out. subst out.
  rewrite (update_without_hit_clears sample_collaborators (sample_renderer 1 true)
             (PointGeometry 50 50) v 0 empty_selection eq_refl ltac:(discriminate)
             (or_introl eq_refl) eq_refl eq_refl eq_refl eq_refl).
  split; reflexivity.
Defined.

Lemma update_without_anchor_clears_witness :
  let v := sample_points_view (with_policies show nearest true) in
  let out := _update sample_collaborators (sample_renderer 1 false) (PointGeometry 50 50) v in
  fst out = inr tt
  /\ heap (snd out) !! 0 = Some (sample_tooltip None horizontal).
Proof.
  intros v out. subst out.
  rewrite (update_without_anchor_clears sample_collaborators (sample_renderer 1 false)
             (PointGeometry 50 50) v 50%float 50%float 0
             {| indices := [0; 1]; line_indices := []; multiline_indices := ∅;
                image_indices := []; selection_view := None |}
             sample_point_view sample_base eq_refl eq_refl (or_introl eq_refl) eq_refl
             eq_refl (or_introl eq_refl) eq_refl eq_refl eq_refl eq_refl
             (fun _ _ => conj eq_refl eq_refl)).
  split; reflexivity.
Defined.

Lemma update_places_tooltip_at_last_line_hit_witness :
  let v := sample_view (with_policies show prev true) in
  let out := _update sample_collaborators (sample_renderer 1 true) (PointGeometry 8 0) v in
  fst out = inr tt
  /\ position <$> heap (snd out) !! 0
     = Some (Some (PosCoords (Some 0%float) (Some 0%float))).
Proof.
  intros v out. subst out.
  apply (update_places_tooltip_at_last_line_hit sample_collaborators (sample_renderer 1 true)
           (PointGeometry 8 0) v 8%float 0%float 0
           (sample_tooltip (Some (PosCoords (Some 5%float) (Some 5%float))) horizontal)
           {| indices := []; line_indices := [0]; multiline_indices := ∅;
              image_indices := []; selection_view := None |}
           sample_line_view sample_base [0; 10]%float [0; 0]%float [0; 10]%float [0; 0]%float
           (fun _ _ => (0%float, 0%float)) 0);
    try reflexivity.
  - now left.
  - now left.
  - split; [split; [reflexivity|now left]|exact I].
Defined.

Lemma line_policies_report_adjacent_samples_witness :
  let r := line_policy_hit prev identity_scale identity_scale
             [1; 2; 3]%float [4; 5; 6]%float [10; 20; 30]%float [40; 50; 60]%float
             (fun _ _ => (0%float, 0%float)) 1 (PointGeometry 0 0) 0 0 in
  r_index r = 1
  /\ (r_tt_sx r, r_tt_sy r) = (Some 20%float, Some 50%float)
  /\ (r_tt_x r, r_tt_y r) = (Some 3%float, Some 6%float).
Proof.
  intros r.
  apply (proj2 (proj2 (proj1 line_policies_report_adjacent_samples prev
                         identity_scale identity_scale
                         [1; 2; 3]%float [4; 5; 6]%float [10; 20; 30]%float
                         [40; 50; 60]%float (fun _ _ => (0%float, 0%float))
                         1 (PointGeometry 0 0) 0%float 0%float))).
  reflexivity.
Defined.

(** ** More on the controller *)

Lemma elem_of_underlying_refs k rs :
  k ∈ underlying_refs rs <-> exists g, g ∈ glyph_renderers rs /\ renderer_ref g = k.
Proof.
  unfold underlying_refs. change (map renderer_ref ?l) with (renderer_ref <$> l).
  rewrite list_elem_of_fmap. split; intros (g & H1 & H2); exists g; auto.
Qed.

(** X15: a rebuild drops every entry it finds.  Without a tooltip
    specification the map stays empty; with one, its keys are exactly the
    glyph renderers behind the computed renderers, those of graph
    renderers included. *)
Theorem rebuild_keys_are_the_glyph_renderers v :
  (HoverTool.tooltips (model v) = None -> _ttmodels (_update_ttmodels v) = ∅)
  /\ (HoverTool.tooltips (model v) <> None ->
      forall k, is_Some (_ttmodels (_update_ttmodels v) !! k)
                <-> k ∈ underlying_refs (computed_renderers v)).
Proof.
  unfold _update_ttmodels. cbn [model set_ttmodels].
  destruct (HoverTool.tooltips (model v)) as [spec|]; split; try congruence.
  - intros _ k. change (computed_renderers (set_ttmodels ∅ v)) with (computed_renderers v).
    cbn [_ttmodels set_connected]. split.
    + intros Hk.
      destruct (decide (k ∈ underlying_refs (computed_renderers v))) as [Hin|Hout];
        [exact Hin|].
      rewrite (register_all_other _ _ _ Hout) in Hk. cbn in Hk.
      rewrite lookup_empty in Hk. now destruct Hk.
    + intros Hk. apply elem_of_underlying_refs in Hk as (g & Hg & <-).
      now apply register_all_keys.
  - reflexivity.
Qed.

Lemma register_all_next_ref rs : forall v,
  next_ref (foldl register_renderer v rs) = next_ref v + length rs.
Proof.
  induction rs as [|r rs IH]; intros v; cbn [foldl length]; [lia|].
  rewrite IH, register_renderer_next_ref. lia.
Qed.

Lemma register_all_fresh rs : forall v n0,
  n0 <= next_ref v ->
  (forall r t, _ttmodels v !! r = Some t -> n0 <= t < next_ref v) ->
  (forall t, n0 <= t < next_ref v -> heap v !! t = Some (new_Tooltip (model v))) ->
  let v' := foldl register_renderer v rs in
  (forall r t, _ttmodels v' !! r = Some t -> n0 <= t < next_ref v')
  /\ (forall t, n0 <= t < next_ref v' -> heap v' !! t = Some (new_Tooltip (model v))).
Proof.
  induction rs as [|r rs IH]; intros v n0 Hn Hmap Hheap; [now split|].
  cbn [foldl]. rewrite <- (register_renderer_model v r). apply IH.
  - rewrite register_renderer_next_ref. lia.
  - intros r' t. rewrite register_renderer_next_ref.
    destruct r as [g | ref n e | ref]; cbn [register_renderer _ttmodels set_ttmodels
                                            set_next_ref set_heap].
    + intros H0. destruct (decide (renderer_ref g = r')) as [<-|Hne].
      * rewrite lookup_insert_eq in H0. injection H0 as <-. lia.
      * rewrite lookup_insert_ne in H0 by exact Hne. apply Hmap in H0. lia.
    + intros H0. destruct (decide (renderer_ref e = r')) as [<-|Hne].
      * rewrite lookup_insert_eq in H0. injection H0 as <-. lia.
      * rewrite lookup_insert_ne in H0 by exact Hne.
        destruct (decide (renderer_ref n = r')) as [<-|Hne'].
        -- rewrite lookup_insert_eq in H0. injection H0 as <-. lia.
        -- rewrite lookup_insert_ne in H0 by exact Hne'. apply Hmap in H0. lia.
    + intros H. apply Hmap in H. lia.
  - intros t. rewrite register_renderer_next_ref, register_renderer_heap,
      register_renderer_model. intros Ht.
    destruct (decide (next_ref v = t)) as [<-|Hne].
    + apply lookup_insert_eq.
    + rewrite lookup_insert_ne by exact Hne. apply Hheap. lia.
Qed.

(** X16: every entry of a rebuilt map points to a live tooltip that was
    created by this rebuild: hidden (position null), with the tool's
    attachment and arrow setting. *)
Theorem rebuild_maps_to_fresh_tooltips v r t :
  _ttmodels (_update_ttmodels v) !! r = Some t ->
  heap (_update_ttmodels v) !! t = Some (new_Tooltip (model v))
  /\ position (new_Tooltip (model v)) = None
  /\ attachment (new_Tooltip (model v)) = HoverTool.attachment (model v)
  /\ show_arrow (new_Tooltip (model v)) = HoverTool.show_arrow (model v).
Proof.
  unfold _update_ttmodels. cbn [model set_ttmodels].
  destruct (HoverTool.tooltips (model v)) as [spec|].
  - change (computed_renderers (set_ttmodels ∅ v)) with (computed_renderers v).
    cbn [_ttmodels heap set_connected]. intros Hr.
    destruct (register_all_fresh (computed_renderers v) (set_ttmodels ∅ v) (next_ref v))
      as [Hmap Hheap].
    + reflexivity.
    + intros r' t'. cbn. now rewrite lookup_empty.
    + intros t'. cbn. lia.
    + split; [|now repeat split]. apply Hheap. eapply Hmap, Hr.
  - cbn. now rewrite lookup_empty.
Qed.

Lemma register_all_position rs : forall v k r g,
  NoDup (underlying_refs rs) ->
  rs !! k = Some r ->
  g ∈ glyph_renderers [r] ->
  _ttmodels (foldl register_renderer v rs) !! renderer_ref g = Some (next_ref v + k).
Proof.
  induction rs as [|r0 rs IH]; intros v k r g Hnd Hk Hg; [discriminate|].
  unfold underlying_refs in Hnd. cbn [glyph_renderers flat_map] in Hnd.
  rewrite map_app in Hnd. apply NoDup_app in Hnd as (Hr & Hdisj & Hrs).
  destruct k as [|k]; cbn [foldl].
  - injection Hk as ->. rewrite Nat.add_0_r.
    assert (Hin : renderer_ref g ∈ map renderer_ref
                    match r with
                    | GlyphR g0 => [g0]
                    | GraphR _ n e => [n; e]
                    | OtherR _ => []
                    end).
    { cbn [glyph_renderers flat_map] in Hg. rewrite app_nil_r in Hg.
      change (map renderer_ref ?l) with (renderer_ref <$> l).
      apply list_elem_of_fmap. now exists g. }
    rewrite register_all_other by (apply Hdisj, Hin).
    destruct r as [g0 | ref n e | ref]; cbn in Hin |- *.
    + apply list_elem_of_singleton in Hin as ->. apply lookup_insert_eq.
    + destruct (decide (renderer_ref e = renderer_ref g)) as [Heq|Hne].
      * rewrite Heq. apply lookup_insert_eq.
      * rewrite lookup_insert_ne by exact Hne.
        apply elem_of_cons in Hin as [-> | Hin]; [apply lookup_insert_eq|].
        apply list_elem_of_singleton in Hin. congruence.
    + inversion Hin.
  - rewrite (IH (register_renderer v r0) k r g Hrs Hk Hg), register_renderer_next_ref.
    f_equal. lia.
Qed.

(** X17: when the glyph renderers behind the computed renderers are
    pairwise distinct, the glyph renderers of the renderer at position
    [k] get the [k]-th tooltip created by the rebuild, so glyph renderers
    of different computed renderers never share a tooltip. *)
Theorem rebuild_gives_each_renderer_its_tooltip v k1 k2 r1 r2 g1 g2 :
  HoverTool.tooltips (model v) <> None ->
  NoDup (underlying_refs (computed_renderers v)) ->
  computed_renderers v !! k1 = Some r1 ->
  computed_renderers v !! k2 = Some r2 ->
  g1 ∈ glyph_renderers [r1] ->
  g2 ∈ glyph_renderers [r2] ->
  let m := _ttmodels (_update_ttmodels v) in
  m !! renderer_ref g1 = Some (next_ref v + k1)
  /\ m !! renderer_ref g2 = Some (next_ref v + k2)
  /\ (k1 <> k2 -> m !! renderer_ref g1 <> m !! renderer_ref g2).
Proof.
  intros Hspec Hnd H1 H2 Hg1 Hg2 m. subst m.
  unfold _update_ttmodels. cbn [model set_ttmodels].
  destruct (HoverTool.tooltips (model v)) as [spec|]; [|congruence].
  change (computed_renderers (set_ttmodels ∅ v)) with (computed_renderers v).
  cbn [_ttmodels set_connected].
  rewrite (register_all_position _ (set_ttmodels ∅ v) k1 r1 g1 Hnd H1 Hg1).
  rewrite (register_all_position _ (set_ttmodels ∅ v) k2 r2 g2 Hnd H2 Hg2).
  cbn [next_ref set_ttmodels]. repeat split. intros Hne [= H]. lia.
Qed.

Lemma geometry_pointer_build mode sx sy :
  geometry_pointer (build_geometry mode sx sy) = (sx, sy).
Proof. now destruct mode. Qed.

Lemma emit_loop_log geometry sx sy v0 rs : forall v,
  renderer_view v = renderer_view v0 ->
  geometry_pointer geometry = (sx, sy) ->
  callback_log (foldl (emit_step geometry) v rs)
  = callback_log v ++ omap (callback_call v0 geometry sx sy) rs.
Proof.
  induction rs as [|r rs IH]; intros v Hview Hp; cbn [foldl omap list_omap].
  - now rewrite app_nil_r.
  - destruct r as [g | ref n e | ref]; cbn [callback_call emit_step].
    + rewrite <- Hview. destruct (renderer_view v (renderer_ref g)) as [rview|] eqn:Hr.
      * rewrite Hp. rewrite IH by assumption. cbn [callback_log set_callback_log].
        now rewrite <- app_assoc.
      * now apply IH.
    + now apply IH.
    + now apply IH.
Qed.

Lemma triple_for_each_ {A} (I : HoverToolView -> Prop) (l : list A)
    (body : A -> M unit) P :
  (forall a, a ∈ l -> triple I (body a) (fun _ => I) P) ->
  triple I (for_each_ l body) (fun _ => I) P.
Proof.
  induction l as [|a l IH]; intros Hbody.
  - now apply triple_ret.
  - cbn [for_each_]. eapply triple_bind; [apply Hbody, list_elem_of_here|].
    intros u. apply IH. intros a' Ha'. apply Hbody. now apply list_elem_of_further.
Qed.

Lemma inspects_within_refl geometry keys v : inspects_within geometry keys v v.
Proof. split; [apply inspects_only_refl|]. intros k. now left. Qed.

Lemma inspects_within_trans geometry keys v1 v2 v3 :
  inspects_within geometry keys v1 v2 -> inspects_within geometry keys v2 v3 ->
  inspects_within geometry keys v1 v3.
Proof.
  intros [H1 K1] [H2 K2]. split; [eapply inspects_only_trans; eassumption|].
  intros k. destruct (K2 k) as [E2 | [Hin Hi]]; [|right; now split].
  destruct (K1 k) as [E1 | [Hin (gview & Hv & Hi)]]; [left; congruence|].
  right. split; [exact Hin|]. exists gview.
  destruct H2 as (tpl & tv & h & d & i & ->). cbn in *. split; [exact Hv|congruence].
Qed.

Lemma inspects_within_mono geometry keys keys' v v' :
  (forall k, k ∈ keys -> k ∈ keys') ->
  inspects_within geometry keys v v' -> inspects_within geometry keys' v v'.
Proof.
  intros Hsub [H K]. split; [exact H|]. intros k.
  destruct (K k) as [E | [Hin Hi]]; [now left|right]. split; [now apply Hsub|exact Hi].
Qed.

Lemma inspected_stable geometry keys v v' k :
  inspects_within geometry keys v v' -> inspected geometry v k -> inspected geometry v' k.
Proof.
  intros [H K] (gview & Hv & Hi). destruct (K k) as [E | [_ Hk]]; [|exact Hk].
  exists gview. destruct H as (tpl & tv & h & d & i & ->). cbn in *.
  split; [exact Hv|congruence].
Qed.

Lemma clears_only_refl v : clears_only v v.
Proof.
  exists (heap v), (inspectors v). split; [now destruct v|]. intros t. now left.
Qed.

Lemma clears_only_trans v1 v2 v3 :
  clears_only v1 v2 -> clears_only v2 v3 -> clears_only v1 v3.
Proof.
  intros (h1 & i1 & -> & H1) (h2 & i2 & -> & H2). exists h2, i2.
  split; [reflexivity|]. intros t. cbn in H2.
  destruct (H2 t) as [E2 | [E2 [r Hr]]]; destruct (H1 t) as [E1 | [E1 [r' Hr']]].
  - left. congruence.
  - right. split; [congruence|now exists r'].
  - right. split; [congruence|now exists r].
  - right. split; [|now exists r]. rewrite E2, E1.
    now destruct (heap v1 !! t).
Qed.

Lemma quiet_clears geometry v v' : clears_only v v' -> quiet geometry v -> quiet geometry v'.
Proof. intros (h & i & -> & _) H. exact H. Qed.

Section ControllerFacts.
Variable ext : Collaborators.

Lemma _update_throws renderer geometry :
  triple (fun _ => True) (_update ext renderer geometry) (fun _ _ => True)
    (update_exception ext).
Proof.
  intros v _.
  pose proof (_update_triple ext (fun _ => True) is_TypeError
                (fun ds vars =>
                   _render_tooltips_throws ext (fun _ => True) ds vars
                     (fun _ _ _ => I) (fun _ _ _ => I))
                renderer geometry v v (conj eq_refl I)) as T.
  destruct (_update ext renderer geometry v) as [[e|u] v']; [|exact I].
  unfold update_exception.
  destruct T as [Hty | [[Hty _] | [[-> _] | [-> _]]]]; auto.
Qed.

Lemma inspect_step_throws geometry r :
  triple (fun _ => True) (inspect_step ext geometry r) (fun _ _ => True)
    (update_exception ext).
Proof.
  assert (Hemit : forall g, triple (fun _ => True) (emit_inspect ext g geometry)
                              (fun _ _ => True) (update_exception ext)).
  { intros g. unfold emit_inspect. apply triple_get. intros v0 _.
    case_bool_decide.
    - eapply triple_weaken; [apply _update_throws|(cbv beta; auto)..].
    - now apply triple_ret. }
  assert (Heval : forall g gview, triple (fun _ => True) (evaluate ext g gview geometry)
                                    (fun _ _ => True) (update_exception ext)).
  { intros g gview. unfold evaluate.
    eapply triple_bind with (Q := fun _ _ => True); [now apply triple_modify|].
    intros u. apply Hemit. }
  unfold inspect_step. apply triple_get. intros v0 _.
  destruct (renderer_view v0 (data_renderer_ref r)) as [rview|]; [|now apply triple_ret].
  eapply triple_weaken with (I' := fun _ => True) (Q' := fun _ _ => True)
    (P' := update_exception ext); [|(cbv beta; auto)..].
  destruct r as [g | ref n e | ref]; cbn [sm_inspect]; [apply Heval| |now apply triple_ret].
  apply triple_for_each_. intros g _. apply triple_get. intros v1 _.
  destruct (renderer_view v1 (renderer_ref g)) as [gview|].
  - eapply triple_weaken; [apply Heval|(cbv beta; auto)..].
  - now apply triple_ret.
Qed.

Lemma _inspect_throws sx sy :
  triple (fun _ => True) (_inspect ext sx sy) (fun _ _ => True) (update_exception ext).
Proof.
  unfold _inspect. apply triple_get. intros v0 _.
  eapply triple_bind with (Q := fun _ _ => True).
  - eapply triple_weaken with (I' := fun _ => True) (Q' := fun _ _ => True)
    (P' := update_exception ext); [|(cbv beta; auto)..].
    apply triple_for_each_. intros r _. apply inspect_step_throws.
  - intros u. now apply triple_modify.
Qed.

(** Evaluating a renderer on its view leaves it inspected, whatever the
    update it triggers does. *)
Lemma evaluate_run g gview geometry v :
  renderer_view v (renderer_ref g) = Some gview ->
  inspects_within geometry [renderer_ref g] v (snd (evaluate ext g gview geometry v))
  /\ inspected geometry (snd (evaluate ext g gview geometry v)) (renderer_ref g).
Proof.
  intros Hview. unfold evaluate. rewrite bind_run. unfold modify. cbv beta iota.
  set (v0 := set_inspectors
               (<[renderer_ref g := hit_test gview geometry]> (inspectors v)) v).
  assert (Hup : updates_only v0 (snd (emit_inspect ext g geometry v0))).
  { unfold emit_inspect. rewrite bind_run. unfold get_view. cbv beta iota.
    case_bool_decide; [apply _update_writes|apply updates_only_refl]. }
  destruct Hup as (tpl & tv & h & d & ->).
  assert (Hi : inspected geometry
                 (set_dom d (set_heap h (set_template_view tv (set_template_el tpl v0))))
                 (renderer_ref g)).
  { exists gview. split; [exact Hview|]. cbn. apply lookup_insert_eq. }
  split; [|exact Hi]. split.
  - exists tpl, tv, h, d, (<[renderer_ref g := hit_test gview geometry]> (inspectors v)).
    reflexivity.
  - intros k. destruct (decide (k = renderer_ref g)) as [->|Hne].
    + right. split; [apply list_elem_of_here|exact Hi].
    + left. cbn. now apply lookup_insert_ne.
Qed.

Lemma inspect_step_run geometry r v :
  inspects_within geometry (underlying_refs [r]) v (snd (inspect_step ext geometry r v))
  /\ (fst (inspect_step ext geometry r v) = inr tt ->
      is_Some (renderer_view v (data_renderer_ref r)) ->
      forall g, g ∈ glyph_renderers [r] ->
                is_Some (renderer_view v (renderer_ref g)) ->
                inspected geometry (snd (inspect_step ext geometry r v)) (renderer_ref g)).
Proof.
  unfold inspect_step. rewrite bind_run. unfold get_view. cbv beta iota.
  destruct (renderer_view v (data_renderer_ref r)) as [rview|] eqn:Hr.
  2:{ split; [apply inspects_within_refl|]. intros _ [? ?]. discriminate. }
  destruct r as [g | ref n e | ref]; cbn [sm_inspect].
  - destruct (evaluate_run g rview geometry v Hr) as [Hw Hi].
    split; [exact Hw|]. intros _ _ g' Hg' _.
    apply list_elem_of_singleton in Hg' as ->. exact Hi.
  - cbn [for_each_]. rewrite bind_run.
    assert (Hkeys : forall g, g = n \/ g = e ->
              forall k, k ∈ [renderer_ref g] -> k ∈ underlying_refs [GraphR ref n e]).
    { intros g Hg k Hk. apply list_elem_of_singleton in Hk as ->.
      unfold underlying_refs. cbn. destruct Hg as [-> | ->];
        [apply list_elem_of_here|apply list_elem_of_further, list_elem_of_here]. }
    assert (Hone : forall g v0, g = n \/ g = e ->
              let out := (v1 ← get_view;
                          match renderer_view v1 (renderer_ref g) with
                          | Some gview => evaluate ext g gview geometry
                          | None => mret tt
                          end) v0 in
              inspects_within geometry (underlying_refs [GraphR ref n e]) v0 (snd out)
              /\ (is_Some (renderer_view v0 (renderer_ref g)) ->
                  inspected geometry (snd out) (renderer_ref g))).
    { intros g v0 Hg out. subst out. rewrite bind_run. unfold get_view. cbv beta iota.
      destruct (renderer_view v0 (renderer_ref g)) as [gview|] eqn:Hgv.
      - destruct (evaluate_run g gview geometry v0 Hgv) as [Hw Hi].
        split; [|now intros _].
        eapply inspects_within_mono; [apply (Hkeys g Hg)|exact Hw].
      - split; [apply inspects_within_refl|]. intros [? ?]. discriminate. }
    destruct (Hone n v (or_introl eq_refl)) as [Hw1 Hi1].
    destruct ((v1 ← get_view;
               match renderer_view v1 (renderer_ref n) with
               | Some gview => evaluate ext n gview geometry
               | None => mret tt
               end) v) as [[ex|u] v1] eqn:E1; cbn [fst snd] in *.
    { split; [exact Hw1|discriminate]. }
    rewrite bind_run.
    destruct (Hone e v1 (or_intror eq_refl)) as [Hw2 Hi2].
    assert (Hview1 : renderer_view v1 = renderer_view v).
    { destruct Hw1 as [(tpl & tv & h & d & i & ->) _]. reflexivity. }
    destruct ((v2 ← get_view;
               match renderer_view v2 (renderer_ref e) with
               | Some gview => evaluate ext e gview geometry
               | None => mret tt
               end) v1) as [[ex|u2] v2] eqn:E2; cbn [fst snd] in *.
    { split; [eapply inspects_within_trans; eassumption|discriminate]. }
    rewrite ret_run. cbn [fst snd].
    split; [eapply inspects_within_trans; eassumption|].
    intros _ _ g Hg Hgv. cbn in Hg.
    apply elem_of_cons in Hg as [-> | Hg].
    + eapply inspected_stable; [exact Hw2|]. now apply Hi1.
    + apply list_elem_of_singleton in Hg as ->. apply Hi2. now rewrite Hview1.
  - rewrite ret_run. split; [apply inspects_within_refl|].
    intros _ _ g Hg. inversion Hg.
Qed.

Lemma inspect_loop_run geometry rs : forall v,
  inspects_within geometry (underlying_refs rs) v
    (snd (for_each_ rs (inspect_step ext geometry) v))
  /\ (fst (for_each_ rs (inspect_step ext geometry) v) = inr tt ->
      forall r g, r ∈ rs ->
                  is_Some (renderer_view v (data_renderer_ref r)) ->
                  g ∈ glyph_renderers [r] ->
                  is_Some (renderer_view v (renderer_ref g)) ->
                  inspected geometry (snd (for_each_ rs (inspect_step ext geometry) v))
                    (renderer_ref g)).
Proof.
  induction rs as [|r rs IH]; intros v.
  - cbn [for_each_]. rewrite ret_run. split; [apply inspects_within_refl|].
    intros _ r g Hr. inversion Hr.
  - cbn [for_each_]. rewrite bind_run.
    assert (Hsub1 : forall k, k ∈ underlying_refs [r] -> k ∈ underlying_refs (r :: rs)).
    { intros k. unfold underlying_refs. cbn. rewrite app_nil_r, map_app.
      intros Hk. apply elem_of_app. now left. }
    assert (Hsub2 : forall k, k ∈ underlying_refs rs -> k ∈ underlying_refs (r :: rs)).
    { intros k. unfold underlying_refs. cbn. rewrite map_app.
      intros Hk. apply elem_of_app. now right. }
    destruct (inspect_step_run geometry r v) as [Hw1 Hi1].
    destruct (inspect_step ext geometry r v) as [[ex|u] v1]; cbn [fst snd] in *.
    { split; [exact (inspects_within_mono _ _ _ _ _ Hsub1 Hw1)|discriminate]. }
    destruct (IH v1) as [Hw2 Hi2].
    assert (Hview1 : renderer_view v1 = renderer_view v).
    { destruct Hw1 as [(tpl & tv & h & d & i & ->) _]. reflexivity. }
    split.
    + eapply inspects_within_trans;
        [exact (inspects_within_mono _ _ _ _ _ Hsub1 Hw1)
        |exact (inspects_within_mono _ _ _ _ _ Hsub2 Hw2)].
    + intros Hret r' g Hr' Hv' Hg Hgv. apply elem_of_cons in Hr' as [-> | Hr'].
      * eapply inspected_stable; [exact Hw2|]. destruct u. now apply Hi1.
      * apply (Hi2 Hret r' g Hr'); [now rewrite Hview1|exact Hg|now rewrite Hview1].
Qed.

(** A quiet update returns, and clears at most. *)
Lemma emit_quiet g gview geometry v :
  quiet geometry v ->
  renderer_view v (renderer_ref g) = Some gview ->
  inspectors v !! renderer_ref g = Some (hit_test gview geometry) ->
  exists v', emit_inspect ext g geometry v = (inr tt, v') /\ clears_only v v'.
Proof.
  intros Hq Hview Hins. unfold emit_inspect. rewrite bind_run. unfold get_view.
  cbv beta iota.
  case_bool_decide; [|exists v; split; [reflexivity|apply clears_only_refl]].
  unfold _update. rewrite bind_run. unfold get_view. cbv beta iota.
  destruct (HoverTool.active (model v)) eqn:Ha; cbn [negb];
    [|exists v; split; [reflexivity|apply clears_only_refl]].
  destruct Hq as [Hq | Hq]; [congruence|].
  destruct (pointer_of geometry) as [[sx sy]|];
    [|exists v; split; [reflexivity|apply clears_only_refl]].
  match goal with |- context [if ?b then mret tt else _] => destruct b end;
    [exists v; split; [reflexivity|apply clears_only_refl]|].
  destruct (_ttmodels v !! renderer_ref g) as [tooltip|] eqn:Htt;
    [|exists v; split; [reflexivity|apply clears_only_refl]].
  rewrite Hins. destruct (Hq _ _ Hview) as [He Hv]. rewrite He, Hv. cbn [andb].
  eexists. split; [reflexivity|].
  exists (alter Tooltip_clear tooltip (heap v)), (inspectors v).
  split; [now destruct v|]. intros t. rewrite lookup_alter.
  destruct (decide (tooltip = t)) as [<-|Hne]; [right|now left].
  split; [reflexivity|now exists (renderer_ref g)].
Qed.

Lemma evaluate_quiet g gview geometry v :
  quiet geometry v ->
  renderer_view v (renderer_ref g) = Some gview ->
  exists v', evaluate ext g gview geometry v = (inr tt, v') /\ clears_only v v'.
Proof.
  intros Hq Hview. unfold evaluate. rewrite bind_run. unfold modify. cbv beta iota.
  set (v0 := set_inspectors
               (<[renderer_ref g := hit_test gview geometry]> (inspectors v)) v).
  assert (H0 : clears_only v v0).
  { exists (heap v), (<[renderer_ref g := hit_test gview geometry]> (inspectors v)).
    split; [now destruct v|]. intros t. now left. }
  destruct (emit_quiet g gview geometry v0 (quiet_clears _ _ _ H0 Hq) Hview
              (lookup_insert_eq _ _ _)) as (v' & -> & H1).
  exists v'. split; [reflexivity|]. exact (clears_only_trans _ _ _ H0 H1).
Qed.

Lemma inspect_step_quiet geometry r v :
  quiet geometry v ->
  exists v', inspect_step ext geometry r v = (inr tt, v') /\ clears_only v v'.
Proof.
  intros Hq. unfold inspect_step. rewrite bind_run. unfold get_view. cbv beta iota.
  destruct (renderer_view v (data_renderer_ref r)) as [rview|] eqn:Hr;
    [|exists v; split; [reflexivity|apply clears_only_refl]].
  destruct r as [g | ref n e | ref]; cbn [sm_inspect].
  - now apply evaluate_quiet.
  - assert (Hone : forall g v0, quiet geometry v0 ->
              exists v', (v1 ← get_view;
                          match renderer_view v1 (renderer_ref g) with
                          | Some gview => evaluate ext g gview geometry
                          | None => mret tt
                          end) v0 = (inr tt, v') /\ clears_only v0 v').
    { intros g v0 Hq0. rewrite bind_run. unfold get_view. cbv beta iota.
      destruct (renderer_view v0 (renderer_ref g)) as [gview|] eqn:Hgv.
      - now apply evaluate_quiet.
      - exists v0. split; [reflexivity|apply clears_only_refl]. }
    cbn [for_each_]. rewrite bind_run.
    destruct (Hone n v Hq) as (v1 & -> & H1). rewrite bind_run.
    destruct (Hone e v1 (quiet_clears _ _ _ H1 Hq)) as (v2 & -> & H2).
    exists v2. split; [reflexivity|]. exact (clears_only_trans _ _ _ H1 H2).
  - exists v. split; [reflexivity|apply clears_only_refl].
Qed.

Lemma inspect_loop_quiet geometry rs : forall v,
  quiet geometry v ->
  exists v', for_each_ rs (inspect_step ext geometry) v = (inr tt, v') /\ clears_only v v'.
Proof.
  induction rs as [|r rs IH]; intros v Hq.
  - exists v. split; [reflexivity|apply clears_only_refl].
  - cbn [for_each_]. rewrite bind_run.
    destruct (inspect_step_quiet geometry r v Hq) as (v1 & -> & H1).
    destruct (IH v1 (quiet_clears _ _ _ H1 Hq)) as (v2 & -> & H2).
    exists v2. split; [reflexivity|]. exact (clears_only_trans _ _ _ H1 H2).
Qed.

(** A quiet clear returns; it clears every tooltip of the map, writes the
    inspections and the callback log, and nothing else. *)
Lemma _clear_quiet v :
  quiet (build_geometry (HoverTool.mode (model v)) Js.Infinity Js.Infinity) v ->
  exists v',
    _clear ext v = (inr tt, v')
    /\ _ttmodels v' = _ttmodels v
    /\ dom v' = dom v
    /\ (forall r t, _ttmodels v !! r = Some t ->
                    heap v' !! t = Tooltip_clear <$> heap v !! t)
    /\ (forall t, (forall r, _ttmodels v !! r <> Some t) -> heap v' !! t = heap v !! t)
    /\ (forall r g gview,
          r ∈ computed_renderers v ->
          is_Some (renderer_view v (data_renderer_ref r)) ->
          g ∈ glyph_renderers [r] ->
          renderer_view v (renderer_ref g) = Some gview ->
          inspectors v' !! renderer_ref g
          = Some (hit_test gview
                    (build_geometry (HoverTool.mode (model v)) Js.Infinity Js.Infinity))).
Proof.
  set (sentinel := build_geometry (HoverTool.mode (model v)) Js.Infinity Js.Infinity).
  intros Hq. unfold _clear, _inspect. rewrite !bind_run. unfold get_view. cbv beta iota.
  fold sentinel. rewrite bind_run.
  destruct (inspect_loop_quiet sentinel (computed_renderers v) v Hq) as (v1 & E1 & H1).
  pose proof (inspect_loop_run sentinel (computed_renderers v) v) as [_ Hi].
  rewrite E1 in Hi |- *. cbn [fst snd] in Hi. unfold modify. cbv beta iota.
  destruct (_emit_callback_frame sentinel v1) as (Hm & Hh & Hins & Hd).
  destruct H1 as (h & i & -> & Hheap). cbn in Hm, Hh, Hins, Hd.
  eexists. split; [reflexivity|].
  assert (Hclear : forall t,
            heap (clear_all (_emit_callback sentinel (set_inspectors i (set_heap h v)))) !! t
            = if decide (t ∈ map snd (map_to_list (_ttmodels v)))
              then Tooltip_clear <$> h !! t else h !! t).
  { intros t. unfold clear_all. cbn [heap set_heap]. rewrite clear_entries, Hm, Hh.
    reflexivity. }
  split; [exact Hm|]. split; [exact Hd|]. split; [|split].
  - intros r t Hrt. rewrite Hclear, decide_True.
    + destruct (Hheap t) as [-> | [-> _]]; [reflexivity|].
      now destruct (heap v !! t).
    + apply list_elem_of_fmap. exists (r, t). split; [reflexivity|].
      now apply elem_of_map_to_list.
  - intros t Hnone. rewrite Hclear, decide_False.
    + destruct (Hheap t) as [-> | [_ [r Hr]]]; [reflexivity|]. now destruct (Hnone r).
    + intros Hin. apply list_elem_of_fmap in Hin as ([r t'] & -> & Hin).
      apply elem_of_map_to_list in Hin. now destruct (Hnone r).
  - intros r g gview Hr Hrv Hg Hgv. cbn [inspectors clear_all set_heap]. rewrite Hins.
    destruct (Hi eq_refl r g Hr Hrv Hg (ex_intro _ gview Hgv)) as (gview' & Hv' & Hins').
    cbn in Hv', Hins'. congruence.
Qed.

(** X18: an active tool handles a move inside the frame by inspecting at
    the pointer.  When the handler returns, every glyph renderer behind a
    computed renderer, both with a view, has the index sets its evaluator
    returns for the geometry of the tool's mode.  Whether it returns or
    throws, the inspection of a renderer that has no view, or that is not
    behind a computed renderer, is left as it was; and what it throws is
    what an update step throws. *)
Theorem move_inside_inspects_viewed_renderers ev v :
  HoverTool.active (model v) = true ->
  bbox_contains (frame_bbox v) (ev_sx ev) (ev_sy ev) = true ->
  let geometry := build_geometry (HoverTool.mode (model v)) (ev_sx ev) (ev_sy ev) in
  let out := _move ext ev v in
  (fst out = inr tt ->
   forall r g gview,
     r ∈ computed_renderers v ->
     is_Some (renderer_view v (data_renderer_ref r)) ->
     g ∈ glyph_renderers [r] ->
     renderer_view v (renderer_ref g) = Some gview ->
     inspectors (snd out) !! renderer_ref g = Some (hit_test gview geometry))
  /\ (forall k,
        renderer_view v k = None \/ k ∉ underlying_refs (computed_renderers v) ->
        inspectors (snd out) !! k = inspectors v !! k)
  /\ (forall e, fst out = inl e -> update_exception ext e).
Proof.
  intros Ha Hin geometry out.
  assert (Hout : out = _inspect ext (ev_sx ev) (ev_sy ev) v).
  { subst out. unfold _move. rewrite bind_run. unfold get_view. cbv beta iota.
    now rewrite Ha, Hin. }
  rewrite Hout. clear out Hout. split; [|split].
  - unfold _inspect. rewrite bind_run. unfold get_view. cbv beta iota. fold geometry.
    rewrite bind_run.
    pose proof (inspect_loop_run geometry (computed_renderers v) v) as [[Hw _] Hi].
    destruct (for_each_ (computed_renderers v) (inspect_step ext geometry) v)
      as [[e|[]] v1]; [discriminate|].
    intros _ r g gview Hr Hrv Hg Hgv. unfold modify. cbn [snd fst] in *.
    destruct (_emit_callback_frame geometry v1) as (_ & _ & -> & _).
    destruct (Hi eq_refl r g Hr Hrv Hg (ex_intro _ gview Hgv)) as (gview' & Hv' & Hins').
    destruct Hw as (tpl & tv & h & d & i & ->). cbn in Hv'. congruence.
  - intros k Hk. unfold _inspect. rewrite bind_run. unfold get_view. cbv beta iota.
    fold geometry. rewrite bind_run.
    pose proof (inspect_loop_run geometry (computed_renderers v) v) as [[Hw Hkeys] _].
    destruct (for_each_ (computed_renderers v) (inspect_step ext geometry) v)
      as [[e|u] v1]; cbn [snd] in *.
    + destruct (Hkeys k) as [E | [Hkin (gview & Hv & _)]]; [exact E|].
      destruct Hw as (tpl & tv & h & d & i & ->). cbn in Hv.
      destruct Hk as [Hk | Hk]; [congruence|contradiction].
    + unfold modify. cbn [snd].
      destruct (_emit_callback_frame geometry v1) as (_ & _ & -> & _).
      destruct (Hkeys k) as [E | [Hkin (gview & Hv & _)]]; [exact E|].
      destruct Hw as (tpl & tv & h & d & i & ->). cbn in Hv.
      destruct Hk as [Hk | Hk]; [congruence|contradiction].
  - intros e He. pose proof (_inspect_throws (ev_sx ev) (ev_sy ev) v I) as T.
    destruct (_inspect ext (ev_sx ev) (ev_sy ev) v) as [[e'|u] v1]; [|discriminate].
    cbn in He. injection He as <-. exact T.
Qed.

(** X19: an inspection calls the user callback only when the update of
    every inspected renderer has returned; it then calls it once for each
    computed glyph renderer that has a view, in the order of the computed
    renderers, with the data-space pointer of that renderer's scales.
    Graph renderers get no call, without a callback nothing is called,
    and when an update throws nothing is called either. *)
Theorem inspect_calls_back_once_per_viewed_glyph_renderer sx sy v :
  let geometry := build_geometry (HoverTool.mode (model v)) sx sy in
  let out := _inspect ext sx sy v in
  callback_log (snd out)
  = callback_log v
    ++ match fst out, HoverTool.callback (model v) with
       | inr _, Some _ => omap (callback_call v geometry sx sy) (computed_renderers v)
       | _, _ => []
       end.
Proof.
  intros geometry out. subst out. unfold _inspect. rewrite bind_run. unfold get_view.
  cbv beta iota. fold geometry. rewrite bind_run.
  pose proof (inspect_loop_run geometry (computed_renderers v) v) as [[Hw _] _].
  destruct (for_each_ (computed_renderers v) (inspect_step ext geometry) v)
    as [[e|u] v1]; cbn [fst snd] in *;
    destruct Hw as (tpl & tv & h & d & i & ->).
  { cbn. now rewrite app_nil_r. }
  unfold modify. cbn [fst snd]. unfold _emit_callback. cbn [model set_inspectors set_dom
    set_heap set_template_view set_template_el].
  destruct (HoverTool.callback (model v)); [|cbn; now rewrite app_nil_r].
  set (v1 := set_inspectors i _).
  change (computed_renderers v1) with (computed_renderers v).
  change (callback_log (foldl (emit_step geometry) v1 (computed_renderers v))
          = callback_log v ++ omap (callback_call v geometry sx sy) (computed_renderers v)).
  now rewrite (emit_loop_log geometry sx sy v (computed_renderers v) v1 eq_refl
                 (geometry_pointer_build _ _ _)).
Qed.

(** X20: with an inactive tool a pointer exit still clears, where a
    pointer move does nothing: it returns, the map and the content nodes
    are kept, every tooltip of the map has its position set to null and
    no other tooltip is written, and repositioning a cleared tooltip hides
    its element without touching the element's classes. *)
Theorem move_exit_clears_even_when_inactive ev v :
  HoverTool.active (model v) = false ->
  let out := _move_exit ext v in
  _move ext ev v = (inr tt, v)
  /\ fst out = inr tt
  /\ _ttmodels (snd out) = _ttmodels v
  /\ dom (snd out) = dom v
  /\ (forall r t, _ttmodels v !! r = Some t ->
                  heap (snd out) !! t = Tooltip_clear <$> heap v !! t)
  /\ (forall t, (forall r, _ttmodels v !! r <> Some t) ->
                heap (snd out) !! t = heap v !! t)
  /\ (forall r t tooltip bbox d el,
        _ttmodels v !! r = Some t ->
        heap (snd out) !! t = Some tooltip ->
        displayed (_reposition tooltip bbox d el) = false
        /\ classList (_reposition tooltip bbox d el) = classList el).
Proof.
  intros Ha out. subst out. unfold _move_exit.
  destruct (_clear_quiet v (or_introl Ha)) as (v' & -> & Hm & Hd & Hclear & Hother & _).
  cbn [fst snd]. split.
  { unfold _move. rewrite bind_run. unfold get_view. cbv beta iota. now rewrite Ha. }
  repeat (split; [assumption || reflexivity|]).
  intros r t tooltip bbox d el Hrt Ht. rewrite (Hclear r t Hrt) in Ht.
  destruct (heap v !! t) as [tt0|]; [|discriminate]. injection Ht as <-.
  split; reflexivity.
Qed.
End ControllerFacts.

Lemma move_inside_inspects_viewed_renderers_witness :
  let v := set_inspectors {[ 1 := empty_selection; 9 := empty_selection ]}
             (sample_view (with_policies show nearest true)) in
  let out := _move sample_collaborators {| ev_sx := 3; ev_sy := 2 |} v in
  fst out = inr tt
  /\ line_indices <$> inspectors (snd out) !! 1 = Some [0]
  /\ inspectors (snd out) !! 9 = Some empty_selection.
Proof.
  intros v out.
  destruct (move_inside_inspects_viewed_renderers sample_collaborators
              {| ev_sx := 3; ev_sy := 2 |} v eq_refl eq_refl) as (H1 & H2 & _).
  assert (Hret : fst out = inr tt) by (vm_compute; reflexivity).
  split; [exact Hret|]. split.
  - pose proof (H1 Hret (GlyphR (sample_renderer 1 true)) (sample_renderer 1 true)
                  sample_line_view (list_elem_of_here _ _) (ex_intro _ _ eq_refl)
                  (list_elem_of_here _ _) eq_refl) as E.
    change (inspectors (snd out) !! 1
            = Some (hit_test sample_line_view (PointGeometry 3 2))) in E.
    now rewrite E.
  - fold out in H2. rewrite (H2 9 (or_introl eq_refl)). reflexivity.
Defined.

Lemma move_exit_clears_even_when_inactive_witness :
  let v := sample_view (with_policies show nearest false) in
  position <$> heap v !! 0 = Some (Some (PosCoords (Some 5%float) (Some 5%float)))
  /\ _move sample_collaborators {| ev_sx := 300; ev_sy := 2 |} v = (inr tt, v)
  /\ fst (_move_exit sample_collaborators v) = inr tt
  /\ position <$> heap (snd (_move_exit sample_collaborators v)) !! 0 = Some None.
Proof.
  intros v.
  destruct (move_exit_clears_even_when_inactive sample_collaborators
              {| ev_sx := 300; ev_sy := 2 |} v eq_refl) as (Hmove & Hret & _ & _ & H & _).
  split; [reflexivity|]. split; [exact Hmove|]. split; [exact Hret|].
  now rewrite (H 1 0 eq_refl).
Defined.

(** ** Pointer moves outside the frame *)

(** C4 (amended): while the tool is active, a pointer move outside the
    frame's box clears.  The inspection is run with the sentinel geometry
    (Infinity, Infinity) for every glyph renderer behind a computed
    renderer, both with a view.  When the evaluators report no hit for the
    sentinel, the handler returns, the inspection of each of these
    renderers is the empty result of its evaluator, the map and the
    content nodes are kept, and every tooltip of the map has its position
    set to null, its other properties untouched. *)
Theorem move_outside_clears ext v ev :
  HoverTool.active (model v) = true ->
  bbox_contains (frame_bbox v) (ev_sx ev) (ev_sy ev) = false ->
  let sentinel := build_geometry (HoverTool.mode (model v)) Js.Infinity Js.Infinity in
  (forall k gview, renderer_view v k = Some gview -> no_hit (hit_test gview sentinel)) ->
  let out := _move ext ev v in
  fst out = inr tt
  /\ _ttmodels (snd out) = _ttmodels v
  /\ dom (snd out) = dom v
  /\ (forall r t, _ttmodels v !! r = Some t ->
                  heap (snd out) !! t = Tooltip_clear <$> heap v !! t)
  /\ (forall r g gview,
        r ∈ computed_renderers v ->
        is_Some (renderer_view v (data_renderer_ref r)) ->
        g ∈ glyph_renderers [r] ->
        renderer_view v (renderer_ref g) = Some gview ->
        inspectors (snd out) !! renderer_ref g = Some (hit_test gview sentinel)
        /\ Selection_is_empty <$> inspectors (snd out) !! renderer_ref g = Some true).
Proof.
  intros Ha Hout sentinel Hq out.
  assert (E : out = _clear ext v).
  { subst out. unfold _move. rewrite bind_run. unfold get_view. cbv beta iota.
    now rewrite Ha, Hout. }
  rewrite E. clear out E.
  destruct (_clear_quiet ext v (or_intror Hq)) as (v' & -> & Hm & Hd & Hclear & _ & Hi).
  cbn [fst snd]. repeat (split; [assumption || reflexivity|]).
  intros r g gview Hr Hrv Hg Hgv. rewrite (Hi r g gview Hr Hrv Hg Hgv).
  split; [reflexivity|]. cbn [fmap option_fmap option_map]. f_equal.
  exact (proj1 (Hq _ _ Hgv)).
Qed.

Lemma move_outside_clears_witness :
  let v := sample_view (with_policies show nearest true) in
  let out := _move sample_collaborators {| ev_sx := 300; ev_sy := 2 |} v in
  fst out = inr tt
  /\ _ttmodels (snd out) !! 1 = Some 0
  /\ position <$> heap v !! 0 = Some (Some (PosCoords (Some 5%float) (Some 5%float)))
  /\ position <$> heap (snd out) !! 0 = Some None
  /\ inspectors (snd out) !! 1 = Some empty_selection.
Proof.
  intros v out.
  assert (Hq : forall k gview,
            renderer_view v k = Some gview ->
            no_hit (hit_test gview (build_geometry (HoverTool.mode (model v))
                                      Js.Infinity Js.Infinity))).
  { intros k gview. cbn. destruct (k =? 1)%nat; [|discriminate].
    intros [= <-]. split; reflexivity. }
  destruct (move_outside_clears sample_collaborators v {| ev_sx := 300; ev_sy := 2 |}
              eq_refl eq_refl Hq) as (Hret & Hm & _ & Hh & Hi).
  fold out in Hret, Hm, Hh, Hi.
  split; [exact Hret|]. split; [now rewrite Hm|]. split; [reflexivity|].
  split; [now rewrite (Hh 1 0 eq_refl)|].
  apply (Hi (GlyphR (sample_renderer 1 true)) (sample_renderer 1 true) sample_line_view).
  - apply list_elem_of_here.
  - now eexists.
  - apply list_elem_of_here.
  - reflexivity.
Defined.

(** C4 as stated fails in three ways.  An inactive tool ignores the move:
    the showing tooltip stays where it is and the inspection is not run.
    A computed renderer without a view is skipped: the inspection it has
    from an earlier move stays, hits and all.  And emptiness is the
    evaluator's doing: one that reports a hit for every geometry leaves a
    hit in the inspection, though the tooltip is hidden all the same. *)
Lemma move_outside_need_not_empty_inspections :
  let ev := {| ev_sx := 300; ev_sy := 2 |} in
  bbox_contains box100 300 2 = false
  /\ (let v := sample_view (with_policies show nearest false) in
      let out := _move sample_collaborators ev v in
      _ttmodels v !! 1 = Some 0
      /\ position <$> heap (snd out) !! 0
         = Some (Some (PosCoords (Some 5%float) (Some 5%float)))
      /\ Selection_is_empty <$> inspectors (snd out) !! 1 = Some false)
  /\ (let v := sample_unviewed_view (with_policies show nearest true) in
      let out := _move sample_collaborators ev v in
      GlyphR (sample_renderer 5 false) ∈ computed_renderers v
      /\ fst out = inr tt
      /\ position <$> heap (snd out) !! 0 = Some None
      /\ Selection_is_empty <$> inspectors (snd out) !! 1 = Some true
      /\ Selection_is_empty <$> inspectors (snd out) !! 5 = Some false)
  /\ (let v := sample_multiline_view (with_policies show nearest true) in
      let out := _move sample_collaborators ev v in
      fst out = inr tt
      /\ position <$> heap (snd out) !! 0 = Some None
      /\ Selection_is_empty <$> inspectors (snd out) !! 1 = Some false).
Proof.
  intros ev. split; [reflexivity|]. split; [|split].
  - vm_compute. repeat split.
  - split; [apply list_elem_of_further, list_elem_of_here|].
    vm_compute. repeat split.
  - vm_compute. repeat split.
Qed.

Lemma rebuild_keys_are_the_glyph_renderers_witness :
  let v := set_ttmodels {[ 42 := 7 ]} sample_graph_view in
  _ttmodels v !! 42 = Some 7
  /\ _ttmodels (_update_ttmodels v) !! 42 = None
  /\ is_Some (_ttmodels (_update_ttmodels v) !! 2).
Proof.
  intros v.
  pose proof (proj2 (rebuild_keys_are_the_glyph_renderers v) ltac:(discriminate)) as H.
  split; [reflexivity|]. split.
  - apply eq_None_not_Some. intros Hs. apply H in Hs.
    revert Hs. apply (bool_decide_unpack _). vm_compute. exact I.
  - apply H. apply (bool_decide_unpack _). vm_compute. exact I.
Defined.

Lemma rebuild_maps_to_fresh_tooltips_witness :
  heap (_update_ttmodels sample_graph_view) !! 1 = Some (new_Tooltip HoverTool.defaults).
Proof.
  apply (rebuild_maps_to_fresh_tooltips sample_graph_view 2 1). reflexivity.
Defined.

Lemma rebuild_gives_each_renderer_its_tooltip_witness :
  let m := _ttmodels (_update_ttmodels sample_graph_view) in
  m !! 3 = Some 0 /\ m !! 2 = Some 1 /\ m !! 3 <> m !! 2.
Proof.
  intros m.
  destruct (rebuild_gives_each_renderer_its_tooltip sample_graph_view 0 1
              (GlyphR (sample_renderer 3 false))
              (GraphR 10 (sample_renderer 1 false) (sample_renderer 2 false))
              (sample_renderer 3 false) (sample_renderer 2 false))
    as (H1 & H2 & H3); try reflexivity.
  - discriminate.
  - apply (bool_decide_unpack _). vm_compute. exact I.
  - apply list_elem_of_here.
  - apply list_elem_of_further, list_elem_of_here.
  - split; [exact H1|]. split; [exact H2|]. apply H3. discriminate.
Defined.

(** ** More on hit resolution *)

Lemma Prim2SF_nan : Prim2SF nan = S754_nan.
Proof. reflexivity. Qed.

Lemma sub_nan_l (a : float) : PrimFloat.sub nan a = nan.
Proof.
  apply Prim2SF_inj. rewrite sub_spec, Prim2SF_nan. reflexivity.
Qed.

Lemma add_nan_l (a : float) : PrimFloat.add nan a = nan.
Proof.
  apply Prim2SF_inj. rewrite add_spec, Prim2SF_nan. reflexivity.
Qed.

Lemma add_nan_r (a : float) : PrimFloat.add a nan = nan.
Proof.
  apply Prim2SF_inj. rewrite add_spec, Prim2SF_nan.
  unfold SF64add, SFadd. now destruct (Prim2SF a).
Qed.

Lemma ltb_nan_r (a : float) : PrimFloat.ltb a nan = false.
Proof.
  rewrite ltb_spec, Prim2SF_nan. unfold SFltb, SFcompare. now destruct (Prim2SF a).
Qed.

(** X22: when the upper sample [i+1] lacks the coordinate the distance
    is measured on (the array is too short there), its distance is NaN,
    the comparison [dist1 < dist2] is false, and [_nearest_line_hit]
    reports the upper sample with its missing coordinate, however close
    the pointer is to sample [i]. *)
Theorem nearest_without_upper_sample_reports_upper i geometry sx sy dx dy :
  match geometry with
  | SpanGeometry DirH _ _ => Js.get dx (i + 1) = None
  | SpanGeometry DirV _ _ => Js.get dy (i + 1) = None
  | _ => Js.get dx (i + 1) = None \/ Js.get dy (i + 1) = None
  end ->
  _nearest_line_hit i geometry sx sy dx dy = (sample dx dy (i + 1), i + 1).
Proof.
  intros H. rewrite _nearest_line_hit_unfold.
  assert (Hd : pointer_distance geometry sx sy (sample dx dy (i + 1)) = nan).
  { unfold pointer_distance, sample, dist_2_pts. cbn [fst snd px py].
    assert (Hp : Js.get dx (i + 1) = None \/ Js.get dy (i + 1) = None ->
                 PrimFloat.sqrt
                   (Js.add
                      (Js.mul (Js.sub (Js.to_number (Js.get dx (i + 1))) (Js.to_number (Some sx)))
                              (Js.sub (Js.to_number (Js.get dx (i + 1))) (Js.to_number (Some sx))))
                      (Js.mul (Js.sub (Js.to_number (Js.get dy (i + 1))) (Js.to_number (Some sy)))
                              (Js.sub (Js.to_number (Js.get dy (i + 1))) (Js.to_number (Some sy)))))
                 = nan).
    { unfold Js.add, Js.mul, Js.sub. intros [-> | ->]; cbn [Js.to_number];
        rewrite sub_nan_l; change (PrimFloat.mul nan nan) with nan;
        rewrite ?add_nan_l, ?add_nan_r; reflexivity. }
    destruct geometry as [| [] | |]; try (now apply Hp);
      rewrite H; cbn [Js.to_number]; unfold Js.sub, Js.Math_abs;
      now rewrite sub_nan_l. }
  rewrite Hd. unfold Js.lt. now rewrite ltb_nan_r.
Qed.

Lemma nearest_without_upper_sample_reports_upper_witness :
  _nearest_line_hit 1 (PointGeometry 0 0) 0 0 [0; 10]%float [0; 0]%float
    = ((None, None), 2)
  /\ _nearest_line_hit 0 (SpanGeometry DirH 1 0) 1 0 [0]%float [0; 5]%float
    = ((None, Some 5%float), 1).
Proof.
  split.
  - apply (nearest_without_upper_sample_reports_upper 1 (PointGeometry 0 0) 0%float 0%float
             [0; 10]%float [0; 0]%float). now left.
  - apply (nearest_without_upper_sample_reports_upper 0 (SpanGeometry DirH 1 0)
             1%float 0%float [0]%float [0; 5]%float). reflexivity.
Defined.

Section FillGlyphs.
Variable ext : Collaborators.

(** X21: for a patch glyph, and for a vertical or horizontal area
    glyph with at least one line index inspected, an update that finds
    no image or point index, with what rendering needs in place, anchors
    its hits at the pointer's own screen coordinates.  It returns and
    places the renderer's tooltip there when the tooltip has a content
    node; when it has none the step fails after the hits are rendered and
    the tooltip stays as it was. *)
Theorem update_places_fill_glyph_tooltip_at_pointer renderer geometry v sx sy tooltip t
    fullset rview :
  HoverTool.active (model v) = true ->
  pointer_of geometry = Some (sx, sy) ->
  HoverTool.muted_policy (model v) = show \/ muted renderer = false ->
  _ttmodels v !! renderer_ref renderer = Some tooltip ->
  heap v !! tooltip = Some t ->
  inspectors v !! renderer_ref renderer = Some fullset ->
  Selection_is_empty fullset = false \/ is_Some (selection_view fullset) ->
  renderer_view v (renderer_ref renderer) = Some rview ->
  match view_glyph rview with
  | PatchView _ => True
  | VAreaView _ | HAreaView _ =>
      line_indices (convert_selection_to_subset renderer fullset) <> []
  | _ => False
  end ->
  render_ready (model v) v ->
  image_indices fullset = [] ->
  indices (convert_selection_to_subset renderer fullset) = [] ->
  let out := _update ext renderer geometry v in
  match content t with
  | Some (Container _) =>
      fst out = inr tt
      /\ position <$> heap (snd out) !! tooltip
         = Some (Some (PosCoords (Some sx) (Some sy)))
  | _ =>
      fst out = inl (content_failure ext)
      /\ heap (snd out) !! tooltip = Some t
  end.
Proof.
  intros Ha Hg Hmuted Htt Ht Hins Hhit Hview Hglyph Hready Himg Hidx out.
  subst out.
  rewrite (_update_run ext renderer geometry v sx sy tooltip fullset rview) by assumption.
  set (c := update_scope renderer geometry sx sy rview fullset).
  assert (Himage : forall v0, image_hits ext c v0 = (inr [], v0)).
  { intros v0. unfold image_hits. subst c. cbn [s_fullset update_scope]. now rewrite Himg. }
  assert (Hpoints : forall v0, index_hits ext (model v) c v0 = (inr [], v0)).
  { intros v0. unfold index_hits. subst c. cbn [s_subset update_scope]. now rewrite Hidx. }
  assert (Hfinish : forall (hits : list Hit) v1,
            renders_only v v1 ->
            (exists node, last hits = Some ((Some sx, Some sy), node)) ->
            match content t with
            | Some (Container _) =>
                fst (commit ext tooltip hits v1) = inr tt
                /\ position <$> heap (snd (commit ext tooltip hits v1)) !! tooltip
                   = Some (Some (PosCoords (Some sx) (Some sy)))
            | _ =>
                fst (commit ext tooltip hits v1) = inl (content_failure ext)
                /\ heap (snd (commit ext tooltip hits v1)) !! tooltip = Some t
            end).
  { intros hits v1 Hw [node Hl].
    assert (Ht1 : heap v1 !! tooltip = Some t) by now destruct Hw as (tpl & tv & ->).
    pose proof (commit_at ext tooltip hits v1 _ node t Hl Ht1) as Hcommit.
    destruct (content t) as [[markup|el]|]; [|exact Hcommit|]; now rewrite Hcommit. }
  assert (Hlast : forall (hits : list Hit) (l : list nat),
            l <> [] ->
            map fst hits = map (fun _ : nat => (Some sx, Some sy)) l ->
            exists node, last hits = Some ((Some sx, Some sy), node)).
  { intros hits l Hl Hmap. destruct (last hits) as [[pos node]|] eqn:El.
    - exists node. f_equal. f_equal.
      assert (Hin : pos ∈ map fst hits).
      { change (pos ∈ fst <$> hits). apply list_elem_of_fmap.
        exists (pos, node). split; [reflexivity|]. apply last_Some_elem_of, El. }
      rewrite Hmap in Hin. change (map ?f ?l) with (f <$> l) in Hin.
      apply list_elem_of_fmap in Hin as (? & -> & _). reflexivity.
    - apply last_None in El. subst hits. symmetry in Hmap. apply map_eq_nil in Hmap.
      contradiction. }
  assert (Harea : forall b,
            s_glyph c = VAreaView b \/ s_glyph c = HAreaView b ->
            line_indices (convert_selection_to_subset renderer fullset) <> [] ->
            exists hits v1,
              area_hits ext c v = (inr hits, v1) /\ renders_only v v1
              /\ exists node, last hits = Some ((Some sx, Some sy), node)).
  { intros b Hb Hne.
    destruct (for_each_push_result ext (model v) c
                (fun _ : nat => Some sx) (fun _ : nat => Some sy)
                (fun i => mk_vars c (Some i) (Some (s_x c)) (Some (s_y c)) (Some sx) (Some sy)
                            (Some (IndicesList (line_indices (s_subset c)))) None)
                (line_indices (convert_selection_to_subset renderer fullset)) v Hready)
      as (hits & v1 & Hrun & Hmap & _ & W).
    exists hits, v1. split; [|split; [exact W|now apply (Hlast hits _ Hne)]].
    unfold area_hits. destruct Hb as [-> | ->]; exact Hrun. }
  unfold collect_hits. rewrite !bind_run.
  destruct (view_glyph rview) as [b|b|b| | |] eqn:Eg; try contradiction.
  - (* patch *)
    assert (Hc : s_glyph c = PatchView b) by exact Eg.
    destruct (push_result ext (model v) c (Some sx) (Some sy)
                (mk_vars c None (Some (s_x c)) (Some (s_y c)) (Some sx) (Some sy) None None)
                v Hready) as (node & v1 & Hpush & _ & W).
    assert (Hpatch : patch_hits ext c v = (inr [((Some sx, Some sy), node)], v1)).
    { unfold patch_hits. rewrite Hc. exact Hpush. }
    rewrite Hpatch. cbv iota. rewrite !bind_run.
    unfold area_hits, line_hits. rewrite Hc. cbv iota. rewrite !ret_run. cbv iota.
    rewrite !bind_run, !ret_run. cbv iota. rewrite !bind_run, Himage. cbv iota.
    rewrite !bind_run, Hpoints. cbv iota. rewrite ret_run.
    apply Hfinish; [exact W|]. now exists node.
  - (* varea *)
    assert (Hc : s_glyph c = VAreaView b) by exact Eg.
    destruct (Harea b (or_introl Hc) Hglyph) as (hits & v1 & Hrun & W & Hl).
    unfold patch_hits, line_hits. rewrite Hc. cbv iota. rewrite !ret_run. cbv iota.
    rewrite !bind_run, Hrun. cbv iota. rewrite !bind_run, !ret_run. cbv iota.
    rewrite !bind_run, Himage. cbv iota. rewrite !bind_run, Hpoints. cbv iota.
    rewrite ret_run. cbn [app]. rewrite !app_nil_r. now apply Hfinish.
  - (* harea *)
    assert (Hc : s_glyph c = HAreaView b) by exact Eg.
    destruct (Harea b (or_intror Hc) Hglyph) as (hits & v1 & Hrun & W & Hl).
    unfold patch_hits, line_hits. rewrite Hc. cbv iota. rewrite !ret_run. cbv iota.
    rewrite !bind_run, Hrun. cbv iota. rewrite !bind_run, !ret_run. cbv iota.
    rewrite !bind_run, Himage. cbv iota. rewrite !bind_run, Hpoints. cbv iota.
    rewrite ret_run. cbn [app]. rewrite !app_nil_r. now apply Hfinish.
Qed.
End FillGlyphs.

Lemma update_places_fill_glyph_tooltip_at_pointer_witness :
  let v := sample_area_view (with_policies ignore nearest true) in
  let out := _update sample_collaborators (sample_renderer 1 false) (PointGeometry 8 3) v in
  fst out = inr tt
  /\ position <$> heap (snd out) !! 0
     = Some (Some (PosCoords (Some 8%float) (Some 3%float))).
Proof.
  intros v out. subst out.
  apply (update_places_fill_glyph_tooltip_at_pointer sample_collaborators
           (sample_renderer 1 false) (PointGeometry 8 3) v 8%float 3%float 0
           (sample_tooltip None horizontal)
           {| indices := []; line_indices := [0; 1]; multiline_indices := ∅;
              image_indices := []; selection_view := None |}
           {| x_scale := identity_scale; y_scale := identity_scale;
              view_glyph := VAreaView sample_base;
              hit_test := fun _ => empty_selection |});
    try reflexivity.
  - now right.
  - now left.
  - discriminate.
  - split; [split; [reflexivity|now left]|exact I].
Defined.
